(** * MenuItem: a shallow embedding of [menu/menuitem.ts]

    The class [MenuItem] of custom-electron-titlebar renders one row of a
    DOM-based menu.  This development embeds the class method by method:
    JavaScript strings are [string]s whose characters are the code units
    below 256, optional properties are [option]s read through JavaScript
    truthiness, the DOM is a store of elements indexed by node identity, and
    a method is a command on the world that either yields the next world or
    faults (a [TypeError] on a property access of [undefined]). *)

From Stdlib Require Import String Ascii List Bool Arith ZArith Lia DecimalString.
From stdpp Require Import base option gmap strings list fin_maps.

Local Open Scope string_scope.
Local Open Scope list_scope.
Local Open Scope nat_scope.

(** ** JavaScript values *)

Module Js.

(** Truthiness of an optional string property: [undefined] and the empty
    string are falsy. *)
Definition truthy_string (s : option string) : bool :=
  match s with
  | Some EmptyString => false
  | Some _ => true
  | None => false
  end.

(** Truthiness of an optional boolean property. *)
Definition truthy_bool (b : option bool) : bool :=
  match b with
  | Some true => true
  | _ => false
  end.

(** Truthiness of a number that may be [undefined]: zero is falsy. *)
Definition truthy_nat (n : option nat) : bool :=
  match n with
  | Some (S _) => true
  | _ => false
  end.

(** The template literal [`${n}`] of a non-negative integer. *)
Definition string_of_nat (n : nat) : string :=
  NilZero.string_of_uint (Nat.to_uint n).

(** White space and line terminators removed by [String.prototype.trim],
    among the code units below 256. *)
Definition is_white_space (c : ascii) : bool :=
  let n := nat_of_ascii c in
  (n =? 9) || (n =? 10) || (n =? 11) || (n =? 12) || (n =? 13)
  || (n =? 32) || (n =? 160).

Fixpoint trimStart (s : string) : string :=
  match s with
  | String c rest => if is_white_space c then trimStart rest else s
  | EmptyString => EmptyString
  end.

Definition rev_string (s : string) : string :=
  string_of_list_ascii (List.rev (list_ascii_of_string s)).

Definition trimEnd (s : string) : string :=
  rev_string (trimStart (rev_string s)).

Definition trim (s : string) : string := trimEnd (trimStart s).

(** The global function [escape] of ECMAScript (Annex B.2.1.1): every code
    unit outside [A-Z a-z 0-9 @ * _ + - . /] is replaced by [%XX], two
    upper-case hexadecimal digits (code units from 256 up, written [%uXXXX],
    are outside this model's strings).  [menuitem.ts] imports no binding
    called [escape], so this is the function its call resolves to. *)
Definition is_unescaped (c : ascii) : bool :=
  let n := nat_of_ascii c in
  ((65 <=? n) && (n <=? 90)) || ((97 <=? n) && (n <=? 122))
  || ((48 <=? n) && (n <=? 57))
  || (n =? 64) || (n =? 42) || (n =? 95) || (n =? 43)
  || (n =? 45) || (n =? 46) || (n =? 47).

Definition hex_digit (d : nat) : ascii :=
  if d <? 10 then ascii_of_nat (48 + d) else ascii_of_nat (55 + d).

Fixpoint escape (s : string) : string :=
  match s with
  | EmptyString => EmptyString
  | String c rest =>
      if is_unescaped c then String c (escape rest)
      else
        let n := nat_of_ascii c in
        String "%" (String (hex_digit (n / 16))
                      (String (hex_digit (n mod 16)) (escape rest)))
  end.

End Js.

(** ** Mnemonic markers: the declarations imported from [./menu] *)

(** The array returned by [RegExp.prototype.exec]: the match, and the two
    capture groups [matches[1]] and [matches[2]] that the class reads, each
    possibly [undefined]. *)
Record RegExpExecArray := {
  index : nat;
  match0 : string;
  group1 : option string;
  group2 : option string
}.

Definition is_amp (c : ascii) : bool := Ascii.eqb c "&".

(** Modelled from the spec: one match attempt of [MENU_MNEMONIC_REGEX],
    "an ampersand-escaped or double-ampersand-escaped character", at the
    start of [s]: the matched text, the captured character and what
    follows.  Two ampersands are tried first; when nothing follows the
    pair, the pattern still matches one ampersand followed by an
    ampersand. *)
Definition marker_here (s : string) : option (string * ascii * string) :=
  match s with
  | String a (String b rest) =>
      if is_amp a then
        if is_amp b then
          match rest with
          | String c rest' =>
              Some (String a (String b (String c EmptyString)), c, rest')
          | EmptyString => Some (String a (String b EmptyString), b, rest)
          end
        else Some (String a (String b EmptyString), b, rest)
      else None
  | _ => None
  end.

(** Whether a string holds an ampersand at all. *)
Fixpoint has_amp (s : string) : bool :=
  match s with
  | EmptyString => false
  | String c rest => is_amp c || has_amp rest
  end.

(** Modelled from the spec: the constant [MENU_MNEMONIC_REGEX] of
    [menu/menu.ts], "a mnemonic marker pattern (an ampersand-escaped or
    double-ampersand-escaped character)".  [exec] returns the leftmost
    match of one or two ampersands followed by one character, which it
    captures. *)
Fixpoint MENU_MNEMONIC_REGEX_exec_at (i : nat) (s : string)
  : option RegExpExecArray :=
  match s with
  | EmptyString => None
  | String _ rest =>
      match marker_here s with
      | Some (m, c, _) =>
          Some {| index := i; match0 := m;
                  group1 := Some (String c EmptyString); group2 := None |}
      | None => MENU_MNEMONIC_REGEX_exec_at (S i) rest
      end
  end.

Definition MENU_MNEMONIC_REGEX_exec (s : string) : option RegExpExecArray :=
  MENU_MNEMONIC_REGEX_exec_at 0 s.

(** [(!!matches[1] ? matches[1] : matches[2])], the capture group that both
    the constructor and [updateLabel] select. *)
Definition selected_group (m : RegExpExecArray) : option string :=
  if Js.truthy_string (group1 m) then group1 m else group2 m.

(** Modelled from the spec: the helper [cleanMnemonic] of [menu/menu.ts],
    which "strips the mnemonic from the accessible label": the first marker
    is replaced by the character it marks, the ampersands are dropped. *)
Fixpoint cleanMnemonic (label : string) : string :=
  match label with
  | EmptyString => EmptyString
  | String a rest =>
      match marker_here label with
      | Some (_, c, after) => String c after
      | None => String a (cleanMnemonic rest)
      end
  end.

(** The underline tag [<u aria-hidden="true">$1</u>] around a character. *)
Definition dquote : string := String "034" EmptyString.

Definition underline (c : ascii) : string :=
  "<u aria-hidden=" +:+ dquote +:+ "true" +:+ dquote +:+ ">"
  +:+ String c "</u>".

(** A string with a given prefix removed, when it has that prefix. *)
Fixpoint strip_prefix (p s : string) : option string :=
  match p, s with
  | EmptyString, _ => Some s
  | String a p', String b s' =>
      if Ascii.eqb a b then strip_prefix p' s' else None
  | String _ _, EmptyString => None
  end.

(** Modelled from the spec: one match attempt of
    [MENU_ESCAPED_MNEMONIC_REGEX] at the start of [s], one or two [&amp;]
    and the character after them. *)
Definition escaped_marker_here (s : string) : option (ascii * string) :=
  match strip_prefix "&amp;&amp;" s with
  | Some (String c rest) => Some (c, rest)
  | _ =>
      match strip_prefix "&amp;" s with
      | Some (String c rest) => Some (c, rest)
      | _ => None
      end
  end.

(** Modelled from the spec: [s.replace(MENU_ESCAPED_MNEMONIC_REGEX,
    '<u aria-hidden="true">$1</u>')], with the constant of [menu/menu.ts]
    read as the marker pattern over HTML-escaped text ([&amp;] for each
    ampersand); the first match is replaced by "the single underline tag"
    around the captured character. *)
Fixpoint replace_escaped_mnemonic (s : string) : string :=
  match s with
  | EmptyString => EmptyString
  | String a rest =>
      match escaped_marker_here s with
      | Some (c, after) => underline c +:+ after
      | None => String a (replace_escaped_mnemonic rest)
      end
  end.


(** ** The configuration objects *)

Inductive MenuItemType := normal | separator | submenu | checkbox | radio.

#[global] Instance MenuItemType_eq_dec : EqDecision MenuItemType.
Proof. solve_decision. Defined.

Abbreviation NodeId := nat.
Definition Handler := nat.
Definition BrowserWindow := nat.

(** [KeyCode] is a numeric enum whose member [Unknown] is zero. *)
Definition KeyCode := nat.

(** An event object: its identity and the mouse button it reports. *)
Record EventLike := { event_id : nat; button : nat }.

(** [IMenuItem], the [MenuItemConstructorOptions] that the class reads.
    Every property is optional; [click] names the handler function. *)
Record IMenuItem := {
  label : option string;
  sublabel : option string;
  icon : option string;
  accelerator : option string;
  type : option MenuItemType;
  enabled : option bool;
  checked : option bool;
  click : option Handler
}.

Definition set_checked (b : option bool) (it : IMenuItem) : IMenuItem :=
  {| label := label it; sublabel := sublabel it; icon := icon it;
     accelerator := accelerator it; type := type it; enabled := enabled it;
     checked := b; click := click it |}.

Definition set_enabled (b : option bool) (it : IMenuItem) : IMenuItem :=
  {| label := label it; sublabel := sublabel it; icon := icon it;
     accelerator := accelerator it; type := type it; enabled := b;
     checked := checked it; click := click it |}.

(** [IMenuOptions]: the one option the class reads. *)
Record IMenuOptions := { enableMnemonics : option bool }.

(** Modelled from the spec: the colour value type of [common/color], an
    immutable value of which the class only observes [toString()]. *)
Record Color := { css : string }.

Definition Color_toString (c : Color) : string := css c.

(** [IMenuStyle]: the four colours the class reads. *)
Record IMenuStyle := {
  foregroundColor : option Color;
  selectionForegroundColor : option Color;
  backgroundColor : option Color;
  selectionBackgroundColor : option Color
}.

(** ** The DOM store *)

Inductive EventType := MOUSE_DOWN | CLICK | DBLCLICK | MOUSE_UP | MOUSE_OUT.

(** The arrow functions that [render] registers, named by what they do. *)
Inductive Listener :=
  | activate_on_mouse_down
  | click_through
  | swallow_dblclick
  | deactivate.

#[global] Instance EventType_eq_dec : EqDecision EventType.
Proof. solve_decision. Defined.

#[global] Instance Listener_eq_dec : EqDecision Listener.
Proof. solve_decision. Defined.

Module Dom.

(** An element: the properties and attributes that the class touches.
    [title] is the content attribute of that name; an inline style
    property that is absent from [inline_style] is cleared.
    [childNodes] lists the element children that [append] attaches, in
    order.  [innerHTML] and [textContent] hold the string last assigned to
    the property, [None] while nothing assigned it: the nodes that a
    browser builds from an assigned string are stood for by that string
    and are neither in [childNodes] nor elements of the store. *)
Record HTMLElement := {
  tagName : string;
  classList : list string;
  attributes : gmap string string;
  tabIndex : option Z;
  inline_style : gmap string string;
  innerHTML : option string;
  textContent : option string;
  childNodes : list NodeId;
  parentNode : option NodeId;
  listeners : list (EventType * Listener)
}.

Abbreviation Store := (gmap nat HTMLElement).

Definition with_classList (f : list string -> list string) (el : HTMLElement)
  : HTMLElement :=
  {| tagName := tagName el; classList := f (classList el);
     attributes := attributes el; tabIndex := tabIndex el;
     inline_style := inline_style el; innerHTML := innerHTML el;
     textContent := textContent el; childNodes := childNodes el;
     parentNode := parentNode el; listeners := listeners el |}.

Definition with_attributes (f : gmap string string -> gmap string string)
  (el : HTMLElement) : HTMLElement :=
  {| tagName := tagName el; classList := classList el;
     attributes := f (attributes el); tabIndex := tabIndex el;
     inline_style := inline_style el; innerHTML := innerHTML el;
     textContent := textContent el; childNodes := childNodes el;
     parentNode := parentNode el; listeners := listeners el |}.

Definition with_tabIndex (t : option Z) (el : HTMLElement) : HTMLElement :=
  {| tagName := tagName el; classList := classList el;
     attributes := attributes el; tabIndex := t;
     inline_style := inline_style el; innerHTML := innerHTML el;
     textContent := textContent el; childNodes := childNodes el;
     parentNode := parentNode el; listeners := listeners el |}.

Definition with_inline_style (f : gmap string string -> gmap string string)
  (el : HTMLElement) : HTMLElement :=
  {| tagName := tagName el; classList := classList el;
     attributes := attributes el; tabIndex := tabIndex el;
     inline_style := f (inline_style el); innerHTML := innerHTML el;
     textContent := textContent el; childNodes := childNodes el;
     parentNode := parentNode el; listeners := listeners el |}.

Definition with_innerHTML (h : option string) (el : HTMLElement) : HTMLElement :=
  {| tagName := tagName el; classList := classList el;
     attributes := attributes el; tabIndex := tabIndex el;
     inline_style := inline_style el; innerHTML := h;
     textContent := textContent el; childNodes := childNodes el;
     parentNode := parentNode el; listeners := listeners el |}.

Definition with_textContent (t : option string) (el : HTMLElement) : HTMLElement :=
  {| tagName := tagName el; classList := classList el;
     attributes := attributes el; tabIndex := tabIndex el;
     inline_style := inline_style el; innerHTML := innerHTML el;
     textContent := t; childNodes := childNodes el;
     parentNode := parentNode el; listeners := listeners el |}.

Definition with_childNodes (f : list NodeId -> list NodeId) (el : HTMLElement)
  : HTMLElement :=
  {| tagName := tagName el; classList := classList el;
     attributes := attributes el; tabIndex := tabIndex el;
     inline_style := inline_style el; innerHTML := innerHTML el;
     textContent := textContent el; childNodes := f (childNodes el);
     parentNode := parentNode el; listeners := listeners el |}.

Definition with_parentNode (p : option NodeId) (el : HTMLElement) : HTMLElement :=
  {| tagName := tagName el; classList := classList el;
     attributes := attributes el; tabIndex := tabIndex el;
     inline_style := inline_style el; innerHTML := innerHTML el;
     textContent := textContent el; childNodes := childNodes el;
     parentNode := p; listeners := listeners el |}.

Definition with_listeners
  (f : list (EventType * Listener) -> list (EventType * Listener))
  (el : HTMLElement) : HTMLElement :=
  {| tagName := tagName el; classList := classList el;
     attributes := attributes el; tabIndex := tabIndex el;
     inline_style := inline_style el; innerHTML := innerHTML el;
     textContent := textContent el; childNodes := childNodes el;
     parentNode := parentNode el; listeners := f (listeners el) |}.

(** The element helpers of [common/dom] ("element creation, class
    toggling, disposable event listeners") are not part of the sources at
    hand; the spec takes them as given primitives.  A node identity held by
    a live reference always names an element, so the helpers are total on
    the store. *)

(** Modelled from the spec: [addClass(node, name)] of [common/dom], class
    toggling through [classList.add], which keeps the tokens unique. *)
Definition addClass (n : NodeId) (name : string) (d : Store) : Store :=
  alter (with_classList
           (fun l => if decide (name ∈ l) then l else l ++ [name])) n d.

(** Modelled from the spec: [removeClass(node, name)] of [common/dom]. *)
Definition removeClass (n : NodeId) (name : string) (d : Store) : Store :=
  alter (with_classList (filter (fun x => x <> name))) n d.

(** Modelled from the spec: [hasClass(node, name)] of [common/dom]. *)
Definition hasClass (n : NodeId) (name : string) (d : Store) : bool :=
  match d !! n with
  | Some el => bool_decide (name ∈ classList el)
  | None => false
  end.

(** [node.setAttribute(k, v)]. *)
Definition setAttribute (n : NodeId) (k v : string) (d : Store) : Store :=
  alter (with_attributes (insert k v)) n d.

Definition getAttribute (n : NodeId) (k : string) (d : Store) : option string :=
  d !! n ≫= fun el => attributes el !! k.

(** [node.tabIndex] as assigned, [None] while nothing assigned it. *)
Definition getTabIndex (n : NodeId) (d : Store) : option Z :=
  d !! n ≫= tabIndex.

(** [node.style[p] = v], where [null] clears the property. *)
Definition setStyle (n : NodeId) (p : string) (v : option string) (d : Store)
  : Store :=
  alter (with_inline_style
           (fun st => match v with
                      | Some s => <[p := s]> st
                      | None => delete p st
                      end)) n d.

Definition getStyle (n : NodeId) (p : string) (d : Store) : option string :=
  d !! n ≫= fun el => inline_style el !! p.

(** Modelled from the spec: [$('tag.class')] of [common/dom], element
    creation: a new element, detached, with one class. *)
Definition create (tag cls : string) : HTMLElement :=
  {| tagName := tag; classList := [cls]; attributes := ∅; tabIndex := None;
     inline_style := ∅; innerHTML := None; textContent := None;
     childNodes := []; parentNode := None; listeners := [] |}.

(** Modelled from the spec: [append(parent, $('tag.class'))] of
    [common/dom]: the new element gets an identity that no element of the
    store has, becomes the last child of [parent], and is returned. *)
Definition append_new (parent : NodeId) (tag cls : string) (d : Store)
  : NodeId * Store :=
  let n := fresh (dom d) in
  (n, alter (with_childNodes (fun l => l ++ [n])) parent
        (<[n := with_parentNode (Some parent) (create tag cls)]> d)).

(** Modelled from the spec: [removeNode(node)] of [common/dom], which
    detaches the node from its parent, if it has one. *)
Definition removeNode (n : NodeId) (d : Store) : Store :=
  match d !! n ≫= parentNode with
  | Some p =>
      alter (with_parentNode None) n
        (alter (with_childNodes (filter (fun x => x <> n))) p d)
  | None => d
  end.

(** Modelled from the spec: [addDisposableListener(node, type, handler)]
    of [common/dom] registers the handler; the disposable it returns
    removes that registration again. *)
Definition addListener (n : NodeId) (ty : EventType) (l : Listener) (d : Store)
  : Store :=
  alter (with_listeners (fun ls => ls ++ [(ty, l)])) n d.

Fixpoint remove_first (x : EventType * Listener)
  (ls : list (EventType * Listener)) : list (EventType * Listener) :=
  match ls with
  | [] => []
  | y :: ls' => if decide (x = y) then ls' else y :: remove_first x ls'
  end.

Definition removeListener (n : NodeId) (ty : EventType) (l : Listener)
  (d : Store) : Store :=
  alter (with_listeners (remove_first (ty, l))) n d.

End Dom.

(** A disposable returned by [addDisposableListener]. *)
Record IDisposable := {
  listened_node : NodeId;
  listened_type : EventType;
  listened_by : Listener
}.

(** ** The instance and the world it lives in *)

(** The fields of a [MenuItem]; a field not yet assigned is [undefined].
    [_toDispose] is the registration list of the base class [Disposable]. *)
Record MenuItem := {
  options : IMenuOptions;
  menuStyle : option IMenuStyle;
  container : option NodeId;
  itemElement : option NodeId;
  item : IMenuItem;
  labelElement : option NodeId;
  checkElement : option NodeId;
  mnemonic : option KeyCode;
  event : option EventLike;
  currentWindow : BrowserWindow;
  _toDispose : list IDisposable
}.

(** What the outside observes besides the DOM, in the order it happens. *)
Inductive Effect :=
  | Stopped (e : EventLike) (cancelBubble : bool)
  | Clicked (h : Handler) (it : IMenuItem) (win : BrowserWindow)
            (ev : option EventLike)
  | FocusCalled (n : NodeId)
  | BlurCalled (n : NodeId).

Record World := {
  this : MenuItem;
  nodes : Dom.Store;
  trace : list Effect
}.

Definition set_this (f : MenuItem -> MenuItem) (w : World) : World :=
  {| this := f (this w); nodes := nodes w; trace := trace w |}.

Definition set_nodes (f : Dom.Store -> Dom.Store) (w : World) : World :=
  {| this := this w; nodes := f (nodes w); trace := trace w |}.

Definition emit (e : Effect) (w : World) : World :=
  {| this := this w; nodes := nodes w; trace := trace w ++ [e] |}.

Definition set_menuStyle (v : option IMenuStyle) (m : MenuItem) : MenuItem :=
  {| options := options m; menuStyle := v; container := container m;
     itemElement := itemElement m; item := item m;
     labelElement := labelElement m; checkElement := checkElement m;
     mnemonic := mnemonic m; event := event m;
     currentWindow := currentWindow m; _toDispose := _toDispose m |}.

Definition set_container (v : option NodeId) (m : MenuItem) : MenuItem :=
  {| options := options m; menuStyle := menuStyle m; container := v;
     itemElement := itemElement m; item := item m;
     labelElement := labelElement m; checkElement := checkElement m;
     mnemonic := mnemonic m; event := event m;
     currentWindow := currentWindow m; _toDispose := _toDispose m |}.

Definition set_itemElement (v : option NodeId) (m : MenuItem) : MenuItem :=
  {| options := options m; menuStyle := menuStyle m; container := container m;
     itemElement := v; item := item m;
     labelElement := labelElement m; checkElement := checkElement m;
     mnemonic := mnemonic m; event := event m;
     currentWindow := currentWindow m; _toDispose := _toDispose m |}.

Definition set_item (v : IMenuItem) (m : MenuItem) : MenuItem :=
  {| options := options m; menuStyle := menuStyle m; container := container m;
     itemElement := itemElement m; item := v;
     labelElement := labelElement m; checkElement := checkElement m;
     mnemonic := mnemonic m; event := event m;
     currentWindow := currentWindow m; _toDispose := _toDispose m |}.

Definition set_labelElement (v : option NodeId) (m : MenuItem) : MenuItem :=
  {| options := options m; menuStyle := menuStyle m; container := container m;
     itemElement := itemElement m; item := item m;
     labelElement := v; checkElement := checkElement m;
     mnemonic := mnemonic m; event := event m;
     currentWindow := currentWindow m; _toDispose := _toDispose m |}.

Definition set_checkElement (v : option NodeId) (m : MenuItem) : MenuItem :=
  {| options := options m; menuStyle := menuStyle m; container := container m;
     itemElement := itemElement m; item := item m;
     labelElement := labelElement m; checkElement := v;
     mnemonic := mnemonic m; event := event m;
     currentWindow := currentWindow m; _toDispose := _toDispose m |}.

Definition set_mnemonic (v : option KeyCode) (m : MenuItem) : MenuItem :=
  {| options := options m; menuStyle := menuStyle m; container := container m;
     itemElement := itemElement m; item := item m;
     labelElement := labelElement m; checkElement := checkElement m;
     mnemonic := v; event := event m;
     currentWindow := currentWindow m; _toDispose := _toDispose m |}.

Definition set__toDispose (v : list IDisposable) (m : MenuItem) : MenuItem :=
  {| options := options m; menuStyle := menuStyle m; container := container m;
     itemElement := itemElement m; item := item m;
     labelElement := labelElement m; checkElement := checkElement m;
     mnemonic := mnemonic m; event := event m;
     currentWindow := currentWindow m; _toDispose := v |}.

(** *** Commands

    A method body is a command: it maps the world to the next world, or to
    [None] when it throws.  Commands compose in sequence; reading through
    an [undefined] reference throws. *)
Definition Cmd := World -> option World.

Definition skip : Cmd := Some.

Definition seq (c1 c2 : Cmd) : Cmd := fun w => c1 w ≫= c2.

Definition lift (f : World -> World) : Cmd := fun w => Some (f w).

(** [ref.m(...)] where [ref] is a field that may be [undefined]. *)
Definition deref (field : MenuItem -> option NodeId) (k : NodeId -> Cmd) : Cmd :=
  fun w => match field (this w) with
           | Some n => k n w
           | None => None
           end.

Definition on_nodes (f : Dom.Store -> Dom.Store) : Cmd := lift (set_nodes f).

Declare Scope cmd_scope.
Delimit Scope cmd_scope with cmd.
Bind Scope cmd_scope with Cmd.
Notation "c1 ;; c2" := (seq c1%cmd c2%cmd)
  (at level 100, right associativity) : cmd_scope.

(** *** What the class takes from its host

    The locale-dependent case mappings of the engine, the key-code table of
    [common/keyCodes], the window that [remote.getCurrentWindow()] returns,
    and what a click handler does to the item object it is handed. *)
Class Host := {
  toLocaleUpperCase : string -> string;
  toLocaleLowerCase : string -> string;
  KeyCodeUtils_fromString : string -> KeyCode;
  remote_getCurrentWindow : BrowserWindow;
  click_effect : Handler -> IMenuItem -> IMenuItem
}.

(** Modelled from the spec: [EventHelper.stop(e, cancelBubble)] of
    [common/dom], which "stops event propagation"; the call is recorded. *)
Definition EventHelper_stop (e : EventLike) (cancelBubble : bool) : Cmd :=
  lift (emit (Stopped e cancelBubble)).

Section MenuItem.

Context `{Host}.

(** [constructor(item, options = {})].  The instance, whose fields are
    [undefined] until assigned, or [None] when the constructor throws (a
    [toLocaleUpperCase] call on [undefined]). *)
Definition new_MenuItem (it : IMenuItem) (opts : option IMenuOptions)
  : option MenuItem :=
  let opts := default {| enableMnemonics := None |} opts in
  let m := {| options := opts; menuStyle := None; container := None;
              itemElement := None; item := it; labelElement := None;
              checkElement := None; mnemonic := None; event := None;
              currentWindow := remote_getCurrentWindow; _toDispose := [] |} in
  if Js.truthy_string (label it) && Js.truthy_bool (enableMnemonics opts) then
    match label it ≫= MENU_MNEMONIC_REGEX_exec with
    | Some matches =>
        g ← selected_group matches;
        Some (set_mnemonic
                (Some (KeyCodeUtils_fromString (toLocaleUpperCase g))) m)
    | None => Some m
    end
  else Some m.

(** [isEnabled()]. *)
Definition isEnabled (w : World) : option bool := enabled (item (this w)).

(** [updateLabel()]. *)
Definition updateLabel : Cmd := fun w =>
  match label (item (this w)) with
  | Some label0 =>
      if Js.truthy_string (Some label0) then
        let cleanLabel := cleanMnemonic label0 in
        let label1 :=
          if negb (Js.truthy_bool (enableMnemonics (options (this w))))
          then cleanLabel else label0 in
        let matches := MENU_MNEMONIC_REGEX_exec label1 in
        let label2 :=
          match matches with
          | Some _ => replace_escaped_mnemonic (Js.escape label1)
          | None => label1
          end in
        (deref labelElement (fun l =>
           on_nodes (Dom.setAttribute l "aria-label" cleanLabel)) ;;
         match matches with
         | Some m =>
             deref itemElement (fun i w' =>
               g ← selected_group m;
               on_nodes (Dom.setAttribute i "aria-keyshortcuts"
                           (toLocaleLowerCase g)) w')
         | None => skip
         end ;;
         deref labelElement (fun l =>
           on_nodes (alter (Dom.with_innerHTML (Some (Js.trim label2))) l)))%cmd w
      else Some w
  | None => Some w
  end.

(** [updateTooltip()]. *)
Definition updateTooltip : Cmd := fun w =>
  let it := item (this w) in
  let title : option string :=
    if Js.truthy_string (sublabel it) then sublabel it
    else if negb (Js.truthy_string (label it)) && Js.truthy_string (label it)
            && Js.truthy_string (icon it)
    then (if Js.truthy_string (accelerator it) then accelerator it
          else label it)
    else None in
  match title with
  | Some t =>
      if Js.truthy_string title then
        deref itemElement (fun i => on_nodes (Dom.setAttribute i "title" t)) w
      else Some w
  | None => Some w
  end.

(** [updateEnabled()]. *)
Definition updateEnabled : Cmd := fun w =>
  if Js.truthy_bool (enabled (item (this w)))
     && negb (bool_decide (type (item (this w)) = Some separator))
  then
    (deref container (fun c => on_nodes (Dom.removeClass c "disabled")) ;;
     deref container (fun c =>
       on_nodes (alter (Dom.with_tabIndex (Some 0%Z)) c)))%cmd w
  else
    deref container (fun c => on_nodes (Dom.addClass c "disabled")) w.

(** [updateChecked()]. *)
Definition updateChecked : Cmd := fun w =>
  if Js.truthy_bool (checked (item (this w))) then
    (deref itemElement (fun i => on_nodes (Dom.addClass i "checked")) ;;
     deref itemElement (fun i =>
       on_nodes (Dom.setAttribute i "role" "menuitemcheckbox")) ;;
     deref itemElement (fun i =>
       on_nodes (Dom.setAttribute i "aria-checked" "true")))%cmd w
  else
    (deref itemElement (fun i => on_nodes (Dom.removeClass i "checked")) ;;
     deref itemElement (fun i =>
       on_nodes (Dom.setAttribute i "role" "menuitem")) ;;
     deref itemElement (fun i =>
       on_nodes (Dom.setAttribute i "aria-checked" "false")))%cmd w.

(** [onClick(event)].  The handler is called with [this.item],
    [this.currentWindow] and the field [this.event]; the item object is
    shared with the handler, which may change it. *)
Definition onClick (e : EventLike) : Cmd :=
  (EventHelper_stop e true ;;
   (fun w =>
      match click (item (this w)) with
      | Some h =>
          Some (set_this (set_item (click_effect h (item (this w))))
                  (emit (Clicked h (item (this w)) (currentWindow (this w))
                           (event (this w))) w))
      | None => Some w
      end) ;;
   (fun w =>
      if bool_decide (type (item (this w)) = Some checkbox) then
        (lift (set_this (fun m =>
           set_item (set_checked
                       (Some (negb (Js.truthy_bool (checked (item m)))))
                       (item m)) m)) ;;
         updateChecked)%cmd w
      else Some w))%cmd.

(** [applyStyle()]. *)
Definition applyStyle : Cmd := fun w =>
  match menuStyle (this w) with
  | None => Some w
  | Some st =>
      let isSelected :=
        match container (this w) with
        | Some c => Dom.hasClass c "focused" (nodes w)
        | None => false
        end in
      let fgColor :=
        if isSelected && bool_decide (is_Some (selectionForegroundColor st))
        then selectionForegroundColor st else foregroundColor st in
      let bgColor :=
        if isSelected && bool_decide (is_Some (selectionBackgroundColor st))
        then selectionBackgroundColor st else backgroundColor st in
      (deref checkElement (fun k =>
         on_nodes (Dom.setStyle k "backgroundColor" (Color_toString <$> fgColor))) ;;
       deref itemElement (fun i =>
         on_nodes (Dom.setStyle i "color" (Color_toString <$> fgColor))) ;;
       deref itemElement (fun i =>
         on_nodes (Dom.setStyle i "backgroundColor"
                     (Color_toString <$> bgColor))))%cmd w
  end.

(** [style(style)]. *)
Definition style (st : IMenuStyle) : Cmd :=
  (lift (set_this (set_menuStyle (Some st))) ;; applyStyle)%cmd.

(** [focus()]. *)
Definition focus : Cmd :=
  ((fun w =>
      match container (this w) with
      | Some c =>
          Some (set_nodes (Dom.addClass c "focused") (emit (FocusCalled c) w))
      | None => Some w
      end) ;;
   applyStyle)%cmd.

(** [blur()]. *)
Definition blur : Cmd :=
  ((fun w =>
      match container (this w) with
      | Some c =>
          Some (set_nodes (Dom.removeClass c "focused") (emit (BlurCalled c) w))
      | None => Some w
      end) ;;
   applyStyle)%cmd.

(** Modelled from the spec: [Disposable.dispose()] of [common/lifecycle],
    "a list of release callbacks" with "release all, in reverse registration
    order, exactly once": every registered listener is removed, the last
    registered first, and the list is emptied. *)
Definition Disposable_dispose : Cmd := fun w =>
  Some (set_this (set__toDispose [])
          (set_nodes
             (fun d =>
                foldr (fun x acc =>
                         Dom.removeListener (listened_node x) (listened_type x)
                           (listened_by x) acc) d (_toDispose (this w))) w)).

(** [dispose()]. *)
Definition dispose : Cmd :=
  ((fun w =>
      match itemElement (this w) with
      | Some i =>
          Some (set_this (set_itemElement None) (set_nodes (Dom.removeNode i) w))
      | None => Some w
      end) ;;
   Disposable_dispose)%cmd.

(** [this._register(addDisposableListener(this.container, type, handler))]. *)
Definition listen (ty : EventType) (l : Listener) : Cmd :=
  deref container (fun c w =>
    Some (set_this
            (fun m =>
               set__toDispose
                 (_toDispose m ++ [{| listened_node := c; listened_type := ty;
                                      listened_by := l |}]) m)
            (set_nodes (Dom.addListener c ty l) w))).

(** [append(parent, $('tag.class'))], the new node handed to [k]. *)
Definition append_to (parent : MenuItem -> option NodeId) (tag cls : string)
  (k : NodeId -> Cmd) : Cmd :=
  deref parent (fun p w =>
    let r := Dom.append_new p tag cls (nodes w) in
    k (fst r) (set_nodes (fun _ => snd r) w)).

(** [render(container)]. *)
Definition render (c : NodeId) : Cmd :=
  (lift (set_this (set_container (Some c))) ;;
   listen MOUSE_DOWN activate_on_mouse_down ;;
   listen CLICK click_through ;;
   listen DBLCLICK swallow_dblclick ;;
   listen MOUSE_UP deactivate ;;
   listen MOUSE_OUT deactivate ;;
   append_to container "a" "action-menu-item"
     (fun n => lift (set_this (set_itemElement (Some n)))) ;;
   deref itemElement (fun i => on_nodes (Dom.setAttribute i "role" "menuitem")) ;;
   (fun w =>
      match mnemonic (this w) with
      | Some k =>
          if Js.truthy_nat (Some k) then
            deref itemElement (fun i =>
              on_nodes (Dom.setAttribute i "aria-keyshortcuts"
                          (Js.string_of_nat k))) w
          else Some w
      | None => Some w
      end) ;;
   append_to itemElement "span" "menu-item-check"
     (fun n => lift (set_this (set_checkElement (Some n)))) ;;
   deref checkElement (fun k => on_nodes (Dom.setAttribute k "role" "none")) ;;
   append_to itemElement "span" "action-label"
     (fun n => lift (set_this (set_labelElement (Some n)))) ;;
   (fun w =>
      match accelerator (item (this w)) with
      | Some acc =>
          if Js.truthy_string (label (item (this w)))
             && Js.truthy_string (Some acc)
          then
            append_to itemElement "span" "keybinding"
              (fun n => on_nodes (alter (Dom.with_textContent (Some acc)) n)) w
          else Some w
      | None => Some w
      end) ;;
   updateLabel ;;
   updateTooltip ;;
   updateEnabled ;;
   updateChecked)%cmd.

(** The bodies of the arrow functions that [render] registers. *)
Definition run_listener (l : Listener) (e : EventLike) : Cmd :=
  match l with
  | activate_on_mouse_down => fun w =>
      match container (this w) with
      | Some c =>
          if Js.truthy_bool (enabled (item (this w))) && (button e =? 0)
          then Some (set_nodes (Dom.addClass c "active") w)
          else Some w
      | None => Some w
      end
  | click_through => (EventHelper_stop e true ;; onClick e)%cmd
  | swallow_dblclick => EventHelper_stop e true
  | deactivate =>
      (EventHelper_stop e false ;;
       deref container (fun c => on_nodes (Dom.removeClass c "active")))%cmd
  end.

(** [getContainer()], [getItem()], [getMnemonic()]. *)
Definition getContainer (w : World) : option NodeId := container (this w).
Definition getItem (w : World) : IMenuItem := item (this w).
Definition getMnemonic (w : World) : option KeyCode := mnemonic (this w).

(** The world in which a freshly constructed instance finds the DOM [d]. *)
Definition world_of (m : MenuItem) (d : Dom.Store) : World :=
  {| this := m; nodes := d; trace := [] |}.

End MenuItem.

(** A host for running the model on examples: the case mappings on the
    letters A-Z and a-z, and a key-code table that knows exactly the
    one-letter strings. *)
Definition ascii_upper (c : ascii) : ascii :=
  let n := nat_of_ascii c in
  if (97 <=? n) && (n <=? 122) then ascii_of_nat (n - 32) else c.

Definition ascii_lower (c : ascii) : ascii :=
  let n := nat_of_ascii c in
  if (65 <=? n) && (n <=? 90) then ascii_of_nat (n + 32) else c.

Fixpoint map_string (f : ascii -> ascii) (s : string) : string :=
  match s with
  | EmptyString => EmptyString
  | String c rest => String (f c) (map_string f rest)
  end.

Definition letter_code (s : string) : KeyCode :=
  match s with
  | String c EmptyString =>
      let n := nat_of_ascii c in
      if (65 <=? n) && (n <=? 90) then n - 34 else 0
  | _ => 0
  end.

(** A handler that leaves the item alone (handler 0) and one that checks
    the item it is handed (any other handler). *)
Definition sample_click_effect (h : Handler) (it : IMenuItem) : IMenuItem :=
  match h with
  | 0 => it
  | S _ => set_checked (Some true) it
  end.

Definition sample_host : Host :=
  {| toLocaleUpperCase := map_string ascii_upper;
     toLocaleLowerCase := map_string ascii_lower;
     KeyCodeUtils_fromString := letter_code;
     remote_getCurrentWindow := 1;
     click_effect := sample_click_effect |}.

(** The public methods as a vocabulary of calls, to speak of every world
    that a client can reach from a fresh instance. *)
Inductive Method :=
  | call_render (c : NodeId)
  | call_onClick (e : EventLike)
  | call_focus
  | call_blur
  | call_updateLabel
  | call_updateTooltip
  | call_updateEnabled
  | call_updateChecked
  | call_dispose
  | call_style (st : IMenuStyle)
  | call_listener (l : Listener) (e : EventLike).

Definition call `{Host} (m : Method) : Cmd :=
  match m with
  | call_render c => render c
  | call_onClick e => onClick e
  | call_focus => focus
  | call_blur => blur
  | call_updateLabel => updateLabel
  | call_updateTooltip => updateTooltip
  | call_updateEnabled => updateEnabled
  | call_updateChecked => updateChecked
  | call_dispose => dispose
  | call_style st => style st
  | call_listener l e => run_listener l e
  end.

Fixpoint calls `{Host} (ms : list Method) : Cmd :=
  match ms with
  | [] => skip
  | m :: ms' => seq (call m) (calls ms')
  end.

(** Modelled from the spec: the helper export [escape(html)] of the menu
    bar module, "producing HTML-entity-escaped text"; [menuitem.ts] does
    not import it.  The markup characters are replaced by their entities. *)
Fixpoint html_escape (s : string) : string :=
  match s with
  | EmptyString => EmptyString
  | String c rest =>
      (if Ascii.eqb c "&" then "&amp;"
       else if Ascii.eqb c "<" then "&lt;"
       else if Ascii.eqb c ">" then "&gt;"
       else String c EmptyString) +:+ html_escape rest
  end.

(** Modelled from the spec: the label markup as the spec words it, the
    label "HTML-escaped before the underline markup is injected", to
    compare with what [updateLabel] assigns to [innerHTML]. *)
Definition spec_label_markup (label0 : string) : string :=
  Js.trim (replace_escaped_mnemonic (html_escape label0)).

(** The item object [{label: l}] with every other property absent. *)
Definition labelled (l : string) : IMenuItem :=
  {| label := Some l; sublabel := None; icon := None; accelerator := None;
     type := None; enabled := None; checked := None; click := None |}.

(** A document that holds one detached [div], the container to render in. *)
Definition one_div : Dom.Store := {[ 0 := Dom.create "div" "menubar-menu-button" ]}.

(** [new MenuItem(it, opts).render(container)] on that document. *)
Definition rendered_world `{Host} (it : IMenuItem) (opts : option IMenuOptions)
  : option World :=
  new_MenuItem it opts ≫= fun m => render 0 (world_of m one_div).

(** The item object as [onClick] finds it once the click handler, if
    there is one, has returned. *)
Definition item_after_click `{Host} (w : World) : IMenuItem :=
  match click (item (this w)) with
  | Some h => click_effect h (item (this w))
  | None => item (this w)
  end.

(** Whether the container carries the class that [focus] adds. *)
Definition is_focused (w : World) : bool :=
  match container (this w) with
  | Some c => Dom.hasClass c "focused" (nodes w)
  | None => false
  end.

(** The colour the spec asks for: the selection colour when the item is
    focused and has one, the base colour otherwise. *)
Definition chosen_colour (focused : bool) (selection base : option Color)
  : option Color :=
  match selection with
  | Some c => if focused then Some c else base
  | None => base
  end.

(** Sample items and events for running the model. *)
Definition primary_click : EventLike := {| event_id := 7; button := 0 |}.

Definition word_wrap_item : IMenuItem :=
  {| label := Some "&Word Wrap"; sublabel := None; icon := None;
     accelerator := Some "Alt+Z"; type := Some checkbox; enabled := Some true;
     checked := Some false; click := Some 0 |}.

Definition disabled_item : IMenuItem :=
  {| label := Some "&Paste"; sublabel := None; icon := None;
     accelerator := None; type := Some checkbox; enabled := Some false;
     checked := None; click := Some 0 |}.

Definition icon_only_item : IMenuItem :=
  {| label := None; sublabel := None; icon := Some "save.png";
     accelerator := Some "Ctrl+S"; type := Some normal; enabled := Some true;
     checked := None; click := None |}.

Definition separator_item : IMenuItem :=
  {| label := None; sublabel := None; icon := None; accelerator := None;
     type := Some separator; enabled := Some true; checked := None;
     click := None |}.

Definition mnemonics_on : option IMenuOptions :=
  Some {| enableMnemonics := Some true |}.

(** The world after render, or the bare document if render threw. *)
Definition rendered_or_bare `{Host} (it : IMenuItem) (opts : option IMenuOptions)
  : World :=
  default {| this := {| options := {| enableMnemonics := None |};
                        menuStyle := None; container := None;
                        itemElement := None; item := it; labelElement := None;
                        checkElement := None; mnemonic := None; event := None;
                        currentWindow := 0; _toDispose := [] |};
             nodes := one_div; trace := [] |}
    (rendered_world it opts).

Definition dark_style : IMenuStyle :=
  {| foregroundColor := Some {| css := "#cccccc" |};
     selectionForegroundColor := Some {| css := "#ffffff" |};
     backgroundColor := None;
     selectionBackgroundColor := Some {| css := "#094771" |} |}.

Definition tooltip_item : IMenuItem :=
  {| label := Some "Zoom"; sublabel := None; icon := None;
     accelerator := None; type := Some normal; enabled := Some true;
     checked := None; click := None |}.

(** A rendered item whose element still carries a title from before. *)
Definition stale_title_world : World :=
  set_nodes (Dom.setAttribute 1 "title" "Reset zoom")
    (rendered_or_bare (H := sample_host) tooltip_item None).

(** An item that is rendered while enabled and whose owner then writes
    [item.enabled = false]: the instance holds the same item object, so it
    reads the new value. *)
Definition enabled_then_disabled : World :=
  set_this (fun m => set_item (set_enabled (Some false) (item m)) m)
    (rendered_or_bare (H := sample_host) word_wrap_item None).

(** The registrations among [ds] that listen on the element [n], in the
    order of [ds]. *)
Definition registered_on (n : NodeId) (ds : list IDisposable)
  : list (EventType * Listener) :=
  map (fun x => (listened_type x, listened_by x))
    (filter (fun x => listened_node x = n) ds).

(** A mounted instance: the four references that [render] assigns are set
    and name four different elements of the document. *)
Definition mounted (w : World) : Prop :=
  exists c i k l,
    container (this w) = Some c
    /\ itemElement (this w) = Some i
    /\ checkElement (this w) = Some k
    /\ labelElement (this w) = Some l
    /\ NoDup [c; i; k; l]
    /\ {[c; i; k; l]} ⊆ dom (nodes w).

(** Two worlds with the same instance and the same elements alive. *)
Definition same_frame (w w' : World) : Prop :=
  this w' = this w /\ trace w' = trace w /\ dom (nodes w') = dom (nodes w).

(** A command that, run in [w], leaves the field [event] as it is. *)
Definition keeps_event_at (c : Cmd) (w : World) : Prop :=
  forall w', c w = Some w' -> event (this w') = event (this w).

(** ** Definitions for the extended properties *)

(** More sample items. *)
Definition minimap_item : IMenuItem :=
  {| label := Some "Minimap"; sublabel := None; icon := None;
     accelerator := None; type := Some checkbox; enabled := Some true;
     checked := None; click := None |}.

(** A rendered item with a stored style. *)
Definition styled_world : World :=
  default (rendered_or_bare (H := sample_host) word_wrap_item None)
    (style dark_style (rendered_or_bare (H := sample_host) word_wrap_item None)).

(** The registrations that [render] adds to the container, in order. *)
Definition render_listeners : list (EventType * Listener) :=
  [(MOUSE_DOWN, activate_on_mouse_down); (CLICK, click_through);
   (DBLCLICK, swallow_dblclick); (MOUSE_UP, deactivate);
   (MOUSE_OUT, deactivate)].

(** The disposables that [render] registers for a container [c]. *)
Definition render_disposables (c : NodeId) : list IDisposable :=
  map (fun r => {| listened_node := c; listened_type := fst r;
                   listened_by := snd r |}) render_listeners.

(** Whether [render] adds the accelerator text: the item has both a label
    and an accelerator with text. *)
Definition has_keybinding (it : IMenuItem) : bool :=
  Js.truthy_string (label it) && Js.truthy_string (accelerator it).

(** The four refresh calls that end [render]. *)
Definition refresh `{Host} : Cmd :=
  seq updateLabel (seq updateTooltip (seq updateEnabled updateChecked)).

(** The part of an element that the refresh methods never write: its tag,
    its place in the tree, its listeners and its text. *)
Definition skeleton (el : Dom.HTMLElement)
  : string * list NodeId * option NodeId * list (EventType * Listener)
    * option string :=
  (Dom.tagName el, Dom.childNodes el, Dom.parentNode el, Dom.listeners el,
   Dom.textContent el).

(** Where an element sits and who listens on it: its tag, its parent and
    its listeners. *)
Definition placement (el : Dom.HTMLElement)
  : string * option NodeId * list (EventType * Listener) :=
  (Dom.tagName el, Dom.parentNode el, Dom.listeners el).

(** Two documents that differ at most in what is painted on the elements
    [targets]: the same elements are alive, every element has the same
    skeleton, and the elements outside [targets] are the same. *)
Definition repainted (targets : list NodeId) (d d' : gmap nat Dom.HTMLElement)
  : Prop :=
  dom d' = dom d
  /\ (forall n, skeleton <$> (d' !! n) = skeleton <$> (d !! n))
  /\ (forall n, n ∉ targets -> d' !! n = d !! n).

(** The instance that the constructor builds when it derives no
    mnemonic, with the default options and window 1. *)
Definition plain_instance (it : IMenuItem) : MenuItem :=
  {| options := {| enableMnemonics := None |}; menuStyle := None;
     container := None; itemElement := None; item := it;
     labelElement := None; checkElement := None; mnemonic := None;
     event := None; currentWindow := 1; _toDispose := [] |}.

(** What each refresh method writes to the document, as a function of the
    item, the options and the elements it is given. *)
Definition label_paint `{Host} (it : IMenuItem) (opts : IMenuOptions)
  (l i : NodeId) (d : gmap nat Dom.HTMLElement) : gmap nat Dom.HTMLElement :=
  match label it with
  | Some label0 =>
      if Js.truthy_string (Some label0) then
        let cleanLabel := cleanMnemonic label0 in
        let label1 :=
          if negb (Js.truthy_bool (enableMnemonics opts))
          then cleanLabel else label0 in
        match MENU_MNEMONIC_REGEX_exec label1 with
        | Some r =>
            match selected_group r with
            | Some g =>
                alter (Dom.with_innerHTML
                         (Some (Js.trim (replace_escaped_mnemonic
                                           (Js.escape label1))))) l
                  (Dom.setAttribute i "aria-keyshortcuts" (toLocaleLowerCase g)
                     (Dom.setAttribute l "aria-label" cleanLabel d))
            | None => d
            end
        | None =>
            alter (Dom.with_innerHTML (Some (Js.trim label1))) l
              (Dom.setAttribute l "aria-label" cleanLabel d)
        end
      else d
  | None => d
  end.

Definition tooltip_paint (it : IMenuItem) (i : NodeId)
  (d : gmap nat Dom.HTMLElement) : gmap nat Dom.HTMLElement :=
  match sublabel it with
  | Some t => if Js.truthy_string (Some t)
              then Dom.setAttribute i "title" t d else d
  | None => d
  end.

Definition enabled_paint (it : IMenuItem) (c : NodeId)
  (d : gmap nat Dom.HTMLElement) : gmap nat Dom.HTMLElement :=
  if Js.truthy_bool (enabled it)
     && negb (bool_decide (type it = Some separator))
  then alter (Dom.with_tabIndex (Some 0%Z)) c (Dom.removeClass c "disabled" d)
  else Dom.addClass c "disabled" d.

Definition checked_paint (it : IMenuItem) (i : NodeId)
  (d : gmap nat Dom.HTMLElement) : gmap nat Dom.HTMLElement :=
  if Js.truthy_bool (checked it) then
    Dom.setAttribute i "aria-checked" "true"
      (Dom.setAttribute i "role" "menuitemcheckbox"
         (Dom.addClass i "checked" d))
  else
    Dom.setAttribute i "aria-checked" "false"
      (Dom.setAttribute i "role" "menuitem" (Dom.removeClass i "checked" d)).

(** * Properties *)

(** ** The marker pattern *)

Example exec_File :
  MENU_MNEMONIC_REGEX_exec "&File"
  = Some {| index := 0; match0 := "&F"; group1 := Some "F"; group2 := None |}.
Proof. reflexivity. Qed.

Example exec_Save_As :
  selected_group <$> MENU_MNEMONIC_REGEX_exec "Save &&As" = Some (Some "A").
Proof. reflexivity. Qed.

Example exec_plain : MENU_MNEMONIC_REGEX_exec "File" = None.
Proof. reflexivity. Qed.

Example exec_trailing_pair :
  MENU_MNEMONIC_REGEX_exec "R&&"
  = Some {| index := 1; match0 := "&&"; group1 := Some "&"; group2 := None |}.
Proof. reflexivity. Qed.

Example clean_File : cleanMnemonic "&File" = "File".
Proof. reflexivity. Qed.

Example escape_New_File : Js.escape "&New File" = "%26New%20File".
Proof. reflexivity. Qed.

Example replace_amp_File :
  replace_escaped_mnemonic "&amp;File" = underline "F" +:+ "ile".
Proof. reflexivity. Qed.

Example trim_pad : Js.trim "  Open Recent " = "Open Recent".
Proof. reflexivity. Qed.

(** A marker at the start of a string is a prefix of it: one or two
    ampersands and the captured character. *)
Lemma marker_here_shape s m c after :
  marker_here s = Some (m, c, after) ->
  s = m +:+ after /\
  (m = String "&" (String c EmptyString)
   \/ m = String "&" (String "&" (String c EmptyString))).
Proof.
  destruct s as [|a [|b rest]]; simpl; try discriminate.
  unfold is_amp.
  destruct (Ascii.eqb_spec a "&") as [->|]; [|discriminate].
  destruct (Ascii.eqb_spec b "&") as [->|].
  - destruct rest as [|c' rest']; intros [= <- <- <-]; simpl; auto.
  - intros [= <- <- <-]; simpl; auto.
Qed.

(** What [exec] finds: the label splits around the match, the match is a
    marker, only the first group is set and it holds one character, and
    [cleanMnemonic] keeps everything but the ampersands of that marker. *)
Lemma exec_at_shape s : forall i m,
  MENU_MNEMONIC_REGEX_exec_at i s = Some m ->
  exists pre c post,
    s = pre +:+ match0 m +:+ post
    /\ index m = i + String.length pre
    /\ (match0 m = String "&" (String c EmptyString)
        \/ match0 m = String "&" (String "&" (String c EmptyString)))
    /\ group1 m = Some (String c EmptyString)
    /\ group2 m = None
    /\ cleanMnemonic s = pre +:+ String c post.
Proof.
  induction s as [|a rest IH]; intros i m; [discriminate|].
  cbn [MENU_MNEMONIC_REGEX_exec_at cleanMnemonic].
  destruct (marker_here (String a rest)) as [[[m0 c] after]|] eqn:Hm.
  - intros [= <-]. apply marker_here_shape in Hm as [Hs Hshape].
    exists EmptyString, c, after. cbn [index match0 group1 group2].
    repeat split; auto; simpl; lia.
  - intros Hrec. destruct (IH _ _ Hrec) as (pre & c & post & -> & Hi & Hm0 & Hg1 & Hg2 & Hc).
    exists (String a pre), c, post. repeat split; auto.
    + simpl. lia.
    + simpl. now rewrite Hc.
Qed.

Lemma exec_shape s m :
  MENU_MNEMONIC_REGEX_exec s = Some m ->
  exists pre c post,
    s = pre +:+ match0 m +:+ post
    /\ index m = String.length pre
    /\ (match0 m = String "&" (String c EmptyString)
        \/ match0 m = String "&" (String "&" (String c EmptyString)))
    /\ group1 m = Some (String c EmptyString)
    /\ group2 m = None
    /\ cleanMnemonic s = pre +:+ String c post.
Proof.
  intros Hm. apply exec_at_shape in Hm.
  destruct Hm as (pre & c & post & ?); exists pre, c, post. intuition.
Qed.

(** The group that the class selects is always there when [exec] matches,
    so selecting it and calling a method on it cannot throw. *)
Lemma selected_group_exec s m :
  MENU_MNEMONIC_REGEX_exec s = Some m ->
  exists c, selected_group m = Some (String c EmptyString)
            /\ group1 m = Some (String c EmptyString).
Proof.
  intros Hm. destruct (exec_shape _ _ Hm) as (pre & c & post & _ & _ & _ & Hg & _).
  exists c. unfold selected_group. rewrite Hg. auto.
Qed.

(** A label without an ampersand has no marker, and is clean already. *)
Lemma marker_here_amp s r : marker_here s = Some r -> exists rest, s = String "&" rest.
Proof.
  destruct s as [|a [|b rest]]; simpl; try discriminate.
  unfold is_amp. destruct (Ascii.eqb_spec a "&") as [->|]; [eauto|discriminate].
Qed.

Lemma exec_at_no_amp s : forall i,
  has_amp s = false -> MENU_MNEMONIC_REGEX_exec_at i s = None.
Proof.
  induction s as [|a rest IH]; intros i Hs; [reflexivity|].
  simpl in Hs. apply orb_false_iff in Hs as [Ha Hrest].
  cbn [MENU_MNEMONIC_REGEX_exec_at].
  destruct (marker_here (String a rest)) as [r|] eqn:Hm.
  - apply marker_here_amp in Hm as [rest' [= -> _]]. discriminate.
  - auto.
Qed.

Lemma cleanMnemonic_no_amp s : has_amp s = false -> cleanMnemonic s = s.
Proof.
  induction s as [|a rest IH]; intros Hs; [reflexivity|].
  simpl in Hs. apply orb_false_iff in Hs as [Ha Hrest].
  cbn [cleanMnemonic].
  destruct (marker_here (String a rest)) as [r|] eqn:Hm.
  - apply marker_here_amp in Hm as [rest' [= -> _]]. discriminate.
  - now rewrite IH.
Qed.

(** ** The DOM helpers *)

Module DomFacts.
Import Dom.

Lemma getAttribute_setAttribute_eq n k v (d : Store) :
  is_Some (d !! n) -> getAttribute n k (setAttribute n k v d) = Some v.
Proof.
  intros [el Hel]. unfold getAttribute, setAttribute.
  rewrite lookup_alter_eq, Hel. simpl. apply lookup_insert_eq.
Qed.

Lemma getAttribute_setAttribute_ne n n' k k' v (d : Store) :
  n <> n' \/ k <> k' ->
  getAttribute n' k' (setAttribute n k v d) = getAttribute n' k' d.
Proof.
  intros Hne. unfold getAttribute, setAttribute.
  destruct (decide (n = n')) as [<-|Hn].
  - rewrite lookup_alter_eq. destruct (d !! n) as [el|]; [|reflexivity].
    simpl. apply lookup_insert_ne. intuition.
  - now rewrite lookup_alter_ne.
Qed.

Lemma getAttribute_alter_frame f n n' k (d : Store) :
  (forall el, attributes (f el) = attributes el) ->
  getAttribute n' k (alter f n d) = getAttribute n' k d.
Proof.
  intros Hf. unfold getAttribute.
  destruct (decide (n = n')) as [<-|Hn].
  - rewrite lookup_alter_eq. destruct (d !! n) as [el|]; [|reflexivity].
    simpl. now rewrite Hf.
  - now rewrite lookup_alter_ne.
Qed.

Lemma hasClass_alter_frame f n n' c (d : Store) :
  (forall el, classList (f el) = classList el) ->
  hasClass n' c (alter f n d) = hasClass n' c d.
Proof.
  intros Hf. unfold hasClass.
  destruct (decide (n = n')) as [<-|Hn].
  - rewrite lookup_alter_eq. destruct (d !! n) as [el|]; [|reflexivity].
    simpl. now rewrite Hf.
  - now rewrite lookup_alter_ne.
Qed.

Lemma hasClass_addClass_eq n c (d : Store) :
  is_Some (d !! n) -> hasClass n c (addClass n c d) = true.
Proof.
  intros [el Hel]. unfold hasClass, addClass.
  rewrite lookup_alter_eq, Hel. simpl. apply bool_decide_eq_true.
  destruct (decide (c ∈ classList el)); [assumption|].
  apply elem_of_app. right. apply list_elem_of_singleton. reflexivity.
Qed.

Lemma hasClass_removeClass_eq n c (d : Store) :
  hasClass n c (removeClass n c d) = false.
Proof.
  unfold hasClass, removeClass. rewrite lookup_alter_eq.
  destruct (d !! n) as [el|]; [|reflexivity]. simpl.
  apply bool_decide_eq_false. rewrite list_elem_of_filter. tauto.
Qed.

Lemma getStyle_setStyle_eq n p v (d : Store) :
  is_Some (d !! n) -> getStyle n p (setStyle n p v d) = v.
Proof.
  intros [el Hel]. unfold getStyle, setStyle.
  rewrite lookup_alter_eq, Hel. simpl.
  destruct v; [apply lookup_insert_eq | apply lookup_delete_eq].
Qed.

Lemma getStyle_setStyle_ne n n' p p' v (d : Store) :
  n <> n' \/ p <> p' ->
  getStyle n' p' (setStyle n p v d) = getStyle n' p' d.
Proof.
  intros Hne. unfold getStyle, setStyle.
  destruct (decide (n = n')) as [<-|Hn].
  - rewrite lookup_alter_eq. destruct (d !! n) as [el|]; [|reflexivity].
    simpl. destruct v; [apply lookup_insert_ne | apply lookup_delete_ne]; intuition.
  - now rewrite lookup_alter_ne.
Qed.

Lemma is_Some_alter f n n' (d : Store) :
  is_Some (alter f n d !! n') <-> is_Some (d !! n').
Proof. apply lookup_alter_is_Some. Qed.

End DomFacts.


(** ** Commands *)

Ltac world_simpl :=
  cbn [mbind option_bind this nodes trace set_nodes set_this emit].

Ltac run_cmd :=
  unfold EventHelper_stop, seq, deref, on_nodes, lift, skip; world_simpl.

Ltac run_with H := repeat (rewrite H; world_simpl).

(** ** [updateChecked] and [onClick] *)

(** What [updateChecked] writes, in one step. *)
Lemma updateChecked_run (w : World) i :
  itemElement (this w) = Some i ->
  updateChecked w =
  Some (set_nodes
          (fun d =>
             if Js.truthy_bool (checked (item (this w))) then
               Dom.setAttribute i "aria-checked" "true"
                 (Dom.setAttribute i "role" "menuitemcheckbox"
                    (Dom.addClass i "checked" d))
             else
               Dom.setAttribute i "aria-checked" "false"
                 (Dom.setAttribute i "role" "menuitem"
                    (Dom.removeClass i "checked" d))) w).
Proof.
  intros Hi. unfold updateChecked.
  destruct (Js.truthy_bool (checked (item (this w)))); run_cmd;
    run_with Hi; reflexivity.
Qed.

(** The ARIA state of the item element after [updateChecked]. *)
Lemma updateChecked_aria (w : World) i :
  itemElement (this w) = Some i ->
  is_Some (nodes w !! i) ->
  exists w',
    updateChecked w = Some w'
    /\ this w' = this w
    /\ trace w' = trace w
    /\ Dom.getAttribute i "role" (nodes w')
       = Some (if Js.truthy_bool (checked (item (this w)))
               then "menuitemcheckbox" else "menuitem")
    /\ Dom.getAttribute i "aria-checked" (nodes w')
       = Some (if Js.truthy_bool (checked (item (this w)))
               then "true" else "false")
    /\ Dom.hasClass i "checked" (nodes w')
       = Js.truthy_bool (checked (item (this w))).
Proof.
  intros Hi Hel. eexists. split; [apply (updateChecked_run w i Hi)|].
  cbn [set_nodes this nodes trace]. split; [reflexivity|]. split; [reflexivity|].
  destruct (Js.truthy_bool (checked (item (this w)))).
  - split; [|split].
    + rewrite DomFacts.getAttribute_setAttribute_ne by (right; discriminate).
      apply DomFacts.getAttribute_setAttribute_eq.
      now apply DomFacts.is_Some_alter.
    + apply DomFacts.getAttribute_setAttribute_eq.
      now apply DomFacts.is_Some_alter, DomFacts.is_Some_alter.
    + unfold Dom.setAttribute.
      rewrite !DomFacts.hasClass_alter_frame by reflexivity.
      now apply DomFacts.hasClass_addClass_eq.
  - split; [|split].
    + rewrite DomFacts.getAttribute_setAttribute_ne by (right; discriminate).
      apply DomFacts.getAttribute_setAttribute_eq.
      now apply DomFacts.is_Some_alter.
    + apply DomFacts.getAttribute_setAttribute_eq.
      now apply DomFacts.is_Some_alter, DomFacts.is_Some_alter.
    + unfold Dom.setAttribute.
      rewrite !DomFacts.hasClass_alter_frame by reflexivity.
      apply DomFacts.hasClass_removeClass_eq.
Qed.

(** [onClick] unfolded: the stop is recorded, the handler runs on the
    shared item object, and only then is the type tested. *)
Lemma onClick_run `{Host} (w : World) (e : EventLike) :
  onClick e w =
  let w1 := emit (Stopped e true) w in
  let w2 :=
    match click (item (this w)) with
    | Some h =>
        set_this (set_item (click_effect h (item (this w))))
          (emit (Clicked h (item (this w)) (currentWindow (this w))
                   (event (this w))) w1)
    | None => w1
    end in
  if bool_decide (type (item (this w2)) = Some checkbox) then
    updateChecked
      (set_this
         (fun m =>
            set_item (set_checked
                        (Some (negb (Js.truthy_bool (checked (item m)))))
                        (item m)) m) w2)
  else Some w2.
Proof.
  unfold onClick. run_cmd.
  destruct (click (item (this w))) as [h|]; world_simpl; reflexivity.
Qed.

Lemma item_after_click_run `{Host} (w : World) (e : EventLike) :
  item_after_click w =
  item (this (match click (item (this w)) with
              | Some h =>
                  set_this (set_item (click_effect h (item (this w))))
                    (emit (Clicked h (item (this w)) (currentWindow (this w))
                             (event (this w))) (emit (Stopped e true) w))
              | None => emit (Stopped e true) w
              end)).
Proof. unfold item_after_click. destruct (click (item (this w))); reflexivity. Qed.

(** C4. On a rendered item whose type is [checkbox] when the handler, if
    any, has returned, one [onClick] call assigns [checked] once, to the
    negation of the value it finds; without a handler that is the negation
    of the value before the call.  The item element then has role
    [menuitemcheckbox], [aria-checked] [true] and the class [checked] when
    the item is checked, and role [menuitem], [aria-checked] [false] and no
    such class when it is not. *)
Theorem onClick_checkbox_flips_checked `{Host} (w : World) (e : EventLike) i :
  type (item_after_click w) = Some checkbox ->
  itemElement (this w) = Some i ->
  is_Some (nodes w !! i) ->
  exists w',
    onClick e w = Some w'
    /\ checked (item (this w'))
       = Some (negb (Js.truthy_bool (checked (item_after_click w))))
    /\ (click (item (this w)) = None ->
        Js.truthy_bool (checked (item (this w')))
        = negb (Js.truthy_bool (checked (item (this w)))))
    /\ Dom.getAttribute i "role" (nodes w')
       = Some (if Js.truthy_bool (checked (item (this w')))
               then "menuitemcheckbox" else "menuitem")
    /\ Dom.getAttribute i "aria-checked" (nodes w')
       = Some (if Js.truthy_bool (checked (item (this w')))
               then "true" else "false")
    /\ Dom.hasClass i "checked" (nodes w')
       = Js.truthy_bool (checked (item (this w'))).
Proof.
  intros Hty Hi Hel.
  rewrite onClick_run. cbv zeta.
  rewrite (item_after_click_run w e) in Hty.
  unfold item_after_click.
  set (w2 := match click (item (this w)) with Some _ => _ | None => _ end) in *.
  rewrite bool_decide_eq_true_2 by exact Hty.
  set (w3 := set_this _ w2).
  assert (Hi3 : itemElement (this w3) = Some i).
  { subst w3 w2. destruct (click (item (this w))); exact Hi. }
  assert (Hel3 : is_Some (nodes w3 !! i)).
  { subst w3 w2. destruct (click (item (this w))); exact Hel. }
  assert (Hck : checked (item (this w3))
                = Some (negb (Js.truthy_bool (checked (item (this w2)))))).
  { reflexivity. }
  destruct (updateChecked_aria w3 i Hi3 Hel3)
    as (w' & Hrun & Hthis & _ & Hrole & Haria & Hcls).
  exists w'. rewrite Hthis.
  split; [exact Hrun|]. split.
  { rewrite Hck. subst w2. destruct (click (item (this w))); reflexivity. }
  split.
  { intros Hnone. rewrite Hck. subst w2. rewrite Hnone.
    cbn [this emit]. now destruct (Js.truthy_bool (checked (item (this w)))). }
  auto.
Qed.

(** The handler is called with the field [this.event], whatever event
    [onClick] was given. *)
Lemma onClick_handler_arguments `{Host} (w : World) (e : EventLike) h :
  click (item (this w)) = Some h ->
  is_Some (itemElement (this w)) ->
  exists w',
    onClick e w = Some w'
    /\ trace w' = trace w ++ [Stopped e true;
                              Clicked h (item (this w)) (currentWindow (this w))
                                (event (this w))].
Proof.
  intros Hh [i Hi]. rewrite onClick_run. cbv zeta. rewrite Hh.
  set (w2 := set_this _ _).
  assert (Htr : trace w2 = trace w ++ [Stopped e true;
                  Clicked h (item (this w)) (currentWindow (this w)) (event (this w))]).
  { subst w2. cbn [trace set_this emit]. now rewrite <- app_assoc. }
  destruct (bool_decide (type (item (this w2)) = Some checkbox)).
  - erewrite updateChecked_run by exact Hi. eexists. split; [reflexivity|].
    exact Htr.
  - eexists. split; [reflexivity|]. exact Htr.
Qed.

(** C9. [onClick] does not look at [enabled]: on a disabled item with a
    click handler it records the stop, calls the handler, and, when the
    type is [checkbox], still assigns the negation to [checked].  The test
    of [enabled] sits in the mouse-down listener, which does nothing on a
    disabled item, while the click listener goes straight to [onClick]. *)
Theorem onClick_runs_on_disabled_item `{Host} (w : World) (e : EventLike) h :
  Js.truthy_bool (enabled (item (this w))) = false ->
  click (item (this w)) = Some h ->
  is_Some (itemElement (this w)) ->
  exists w',
    onClick e w = Some w'
    /\ trace w' = trace w ++ [Stopped e true;
                              Clicked h (item (this w)) (currentWindow (this w))
                                (event (this w))]
    /\ (type (click_effect h (item (this w))) = Some checkbox ->
        checked (item (this w'))
        = Some (negb (Js.truthy_bool
                        (checked (click_effect h (item (this w)))))))
    /\ run_listener activate_on_mouse_down e w = Some w
    /\ run_listener click_through e w = onClick e (emit (Stopped e true) w).
Proof.
  intros Hdis Hh His.
  destruct (onClick_handler_arguments w e h Hh His) as (w' & Hrun & Htr).
  exists w'. split; [exact Hrun|]. split; [exact Htr|]. split; [|split].
  - intros Hty. destruct His as [i Hi].
    rewrite onClick_run in Hrun. cbv zeta in Hrun. rewrite Hh in Hrun.
    cbn [this set_this emit item set_item] in Hrun.
    rewrite bool_decide_eq_true_2 in Hrun by exact Hty.
    erewrite updateChecked_run in Hrun by exact Hi.
    injection Hrun as <-. reflexivity.
  - cbn [run_listener]. rewrite Hdis. cbn [andb].
    now destruct (container (this w)).
  - reflexivity.
Qed.

(** *** The field [event] is never assigned *)

Lemma keeps_event_seq c1 c2 w :
  keeps_event_at c1 w -> (forall w1, keeps_event_at c2 w1) ->
  keeps_event_at (seq c1 c2) w.
Proof.
  intros H1 H2 w'. unfold seq. destruct (c1 w) as [w1|] eqn:E1; [|discriminate].
  cbn. intros E2. rewrite (H2 _ _ E2). now apply H1.
Qed.

Lemma keeps_event_deref f k w :
  (forall n, keeps_event_at (k n) w) -> keeps_event_at (deref f k) w.
Proof.
  intros Hk w'. unfold deref. destruct (f (this w)); [apply Hk|discriminate].
Qed.

Lemma keeps_event_on_nodes f w : keeps_event_at (on_nodes f) w.
Proof. intros w' [= <-]. reflexivity. Qed.

Lemma keeps_event_lift f w :
  event (this (f w)) = event (this w) -> keeps_event_at (lift f) w.
Proof. intros Hf w' [= <-]. exact Hf. Qed.

Lemma keeps_event_skip w : keeps_event_at Some w.
Proof. intros w' [= <-]. reflexivity. Qed.

Ltac keeps_event :=
  repeat first
    [ apply keeps_event_skip
    | apply keeps_event_on_nodes
    | apply keeps_event_lift; reflexivity
    | apply keeps_event_seq
    | apply keeps_event_deref; intros ?
    | progress intros ? ].

Lemma updateChecked_keeps_event w : keeps_event_at updateChecked w.
Proof.
  unfold updateChecked, keeps_event_at.
  destruct (Js.truthy_bool _); fold (keeps_event_at); keeps_event.
Qed.

Ltac keeps_event_step :=
  first
    [ apply keeps_event_skip
    | apply keeps_event_on_nodes
    | apply keeps_event_lift; reflexivity
    | apply keeps_event_seq
    | apply keeps_event_deref; intros ?
    | apply updateChecked_keeps_event
    | match goal with
      | |- forall _ : World, keeps_event_at _ _ => intros ?
      | |- keeps_event_at (fun _ => _) _ => unfold keeps_event_at at 1; cbv beta zeta
      | |- forall w', Some _ = Some w' -> _ => intros ? [= <-]; reflexivity
      | |- forall w', None = Some w' -> _ => discriminate
      | |- keeps_event_at (match ?x with _ => _ end) _ => destruct x
      | |- forall w', (?o ≫= _) = Some w' -> _ =>
          destruct o; cbn [mbind option_bind]
      | |- forall w', match ?x with _ => _ end = Some w' -> _ => destruct x
      | |- forall w', (if ?x then _ else _) = Some w' -> _ => destruct x
      | |- forall w', ?c ?w = Some w' -> _ => change (keeps_event_at c w)
      end ].

Ltac keeps_event_auto := repeat keeps_event_step.

Lemma updateLabel_keeps_event `{Host} w : keeps_event_at updateLabel w.
Proof.
  unfold updateLabel. keeps_event_auto.
Qed.

Lemma updateTooltip_keeps_event w : keeps_event_at updateTooltip w.
Proof. unfold updateTooltip. keeps_event_auto. Qed.

Lemma updateEnabled_keeps_event w : keeps_event_at updateEnabled w.
Proof. unfold updateEnabled. keeps_event_auto. Qed.

Lemma applyStyle_keeps_event w : keeps_event_at applyStyle w.
Proof. unfold applyStyle. keeps_event_auto. Qed.

Lemma style_keeps_event st w : keeps_event_at (style st) w.
Proof. unfold style. keeps_event_auto; apply applyStyle_keeps_event. Qed.

Lemma focus_keeps_event w : keeps_event_at focus w.
Proof. unfold focus. keeps_event_auto; apply applyStyle_keeps_event. Qed.

Lemma blur_keeps_event w : keeps_event_at blur w.
Proof. unfold blur. keeps_event_auto; apply applyStyle_keeps_event. Qed.

Lemma dispose_keeps_event w : keeps_event_at dispose w.
Proof. unfold dispose, Disposable_dispose. keeps_event_auto. Qed.

Lemma onClick_keeps_event `{Host} e w : keeps_event_at (onClick e) w.
Proof. unfold onClick, EventHelper_stop. keeps_event_auto. Qed.

Lemma listen_keeps_event ty l w : keeps_event_at (listen ty l) w.
Proof. unfold listen. keeps_event_auto. Qed.

Lemma append_to_keeps_event f tag cls k w :
  (forall n w1, keeps_event_at (k n) w1) ->
  keeps_event_at (append_to f tag cls k) w.
Proof.
  intros Hk. unfold append_to. apply keeps_event_deref. intros p w' Hrun.
  apply Hk in Hrun. exact Hrun.
Qed.

Lemma render_keeps_event `{Host} c w : keeps_event_at (render c) w.
Proof.
  unfold render.
  repeat first
    [ apply listen_keeps_event
    | apply updateLabel_keeps_event
    | apply updateTooltip_keeps_event
    | apply updateEnabled_keeps_event
    | apply append_to_keeps_event; intros ? ?
    | keeps_event_step ].
Qed.

Lemma run_listener_keeps_event `{Host} l e w :
  keeps_event_at (run_listener l e) w.
Proof.
  destruct l; cbn [run_listener]; unfold EventHelper_stop;
    repeat first [ apply onClick_keeps_event | keeps_event_step ].
Qed.

Lemma call_keeps_event `{Host} m w : keeps_event_at (call m) w.
Proof.
  destruct m; cbn [call];
    auto using render_keeps_event, onClick_keeps_event, focus_keeps_event,
      blur_keeps_event, updateLabel_keeps_event, updateTooltip_keeps_event,
      updateEnabled_keeps_event, updateChecked_keeps_event,
      dispose_keeps_event, style_keeps_event, run_listener_keeps_event.
Qed.

Lemma calls_keeps_event `{Host} ms : forall w, keeps_event_at (calls ms) w.
Proof.
  induction ms as [|m ms IH]; intros w; cbn [calls].
  - apply keeps_event_skip.
  - apply keeps_event_seq; [apply call_keeps_event | exact IH].
Qed.

Lemma new_MenuItem_event `{Host} it opts m :
  new_MenuItem it opts = Some m -> event m = None.
Proof.
  unfold new_MenuItem.
  destruct (_ && _); [|intros [= <-]; reflexivity].
  destruct (label it ≫= MENU_MNEMONIC_REGEX_exec) as [r|];
    [|intros [= <-]; reflexivity].
  destruct (selected_group r); [|discriminate]. intros [= <-]. reflexivity.
Qed.

(** However a client drives an instance, on any document, the handler's
    third argument is [undefined]: the event given to [onClick] is never
    what the handler receives. *)
Lemma onClick_handler_gets_no_event `{Host} it opts m d ms w e h :
  new_MenuItem it opts = Some m ->
  calls ms (world_of m d) = Some w ->
  click (item (this w)) = Some h ->
  is_Some (itemElement (this w)) ->
  exists w',
    onClick e w = Some w'
    /\ trace w' = trace w ++ [Stopped e true;
                              Clicked h (item (this w)) (currentWindow (this w))
                                None].
Proof.
  intros Hnew Hcalls Hh His.
  destruct (onClick_handler_arguments w e h Hh His) as (w' & Hrun & Htr).
  exists w'. split; [exact Hrun|].
  rewrite Htr, (calls_keeps_event ms _ _ Hcalls). cbn [this world_of].
  now rewrite (new_MenuItem_event _ _ _ Hnew).
Qed.

(** C3 at a concrete click: the handler of a rendered item is called with
    the item and the window, and with [undefined] where the event of the
    click was to be. *)
Theorem onClick_handler_event_is_undefined :
  exists w w',
    rendered_world (H := sample_host) word_wrap_item mnemonics_on = Some w
    /\ onClick (H := sample_host) primary_click w = Some w'
    /\ trace w' = [Stopped primary_click true;
                   Clicked 0 word_wrap_item 1 None]
    /\ trace w' <> [Stopped primary_click true;
                    Clicked 0 word_wrap_item 1 (Some primary_click)].
Proof.
  eexists. eexists.
  split; [vm_compute; reflexivity|].
  split; [vm_compute; reflexivity|].
  split; [reflexivity|discriminate].
Qed.

(** ** [updateEnabled] *)

(** C6, as amended.  On a rendered item, [updateEnabled] gives an
    enabled item that is no separator the tab index zero and takes the
    class [disabled] away; a separator and a disabled item get the class
    [disabled] and their tab index is not assigned: it keeps the value it
    had, so it is unset exactly when it was unset before the call. *)
Theorem updateEnabled_focusability (w : World) c :
  container (this w) = Some c ->
  is_Some (nodes w !! c) ->
  exists w',
    updateEnabled w = Some w'
    /\ this w' = this w
    /\ (type (item (this w)) = Some separator ->
        Dom.getTabIndex c (nodes w') = Dom.getTabIndex c (nodes w)
        /\ Dom.hasClass c "disabled" (nodes w') = true)
    /\ (Js.truthy_bool (enabled (item (this w))) = true ->
        type (item (this w)) <> Some separator ->
        Dom.getTabIndex c (nodes w') = Some 0%Z
        /\ Dom.hasClass c "disabled" (nodes w') = false)
    /\ (Js.truthy_bool (enabled (item (this w))) = false ->
        Dom.getTabIndex c (nodes w') = Dom.getTabIndex c (nodes w)
        /\ Dom.hasClass c "disabled" (nodes w') = true)
    /\ (Dom.getTabIndex c (nodes w) = None ->
        Js.truthy_bool (enabled (item (this w))) = false
        \/ type (item (this w)) = Some separator ->
        Dom.getTabIndex c (nodes w') = None).
Proof.
  intros Hc Hel. unfold updateEnabled.
  assert (Hadd : Dom.getTabIndex c (Dom.addClass c "disabled" (nodes w))
                 = Dom.getTabIndex c (nodes w)
                 /\ Dom.hasClass c "disabled"
                      (Dom.addClass c "disabled" (nodes w)) = true).
  { split; [|now apply DomFacts.hasClass_addClass_eq].
    unfold Dom.getTabIndex, Dom.addClass. rewrite lookup_alter_eq.
    now destruct (nodes w !! c). }
  destruct (Js.truthy_bool (enabled (item (this w)))) eqn:Hen;
    [destruct (bool_decide (type (item (this w)) = Some separator)) eqn:Hsep|];
    cbn [andb negb]; run_cmd; run_with Hc.
  - apply bool_decide_eq_true in Hsep.
    eexists. split; [reflexivity|]. world_simpl. destruct Hadd as [Ht Hcl].
    split; [reflexivity|]. repeat split; auto; try congruence.
  - apply bool_decide_eq_false in Hsep.
    eexists. split; [reflexivity|]. world_simpl.
    split; [reflexivity|].
    split; [intros; contradiction|]. split; [|split; [discriminate|]].
    + intros _ _. split.
      * unfold Dom.getTabIndex. rewrite lookup_alter_eq.
        destruct Hel as [el Hel]. unfold Dom.removeClass.
        rewrite lookup_alter_eq, Hel. reflexivity.
      * rewrite DomFacts.hasClass_alter_frame by reflexivity.
        apply DomFacts.hasClass_removeClass_eq.
    + intros _ [Hoff|Hty]; [discriminate|contradiction].
  - eexists. split; [reflexivity|]. world_simpl. destruct Hadd as [Ht Hcl].
    split; [reflexivity|]. repeat split; auto; try discriminate; congruence.
Qed.

(** ** [updateTooltip] *)

(** Without a sublabel the second test of [updateTooltip] cannot hold, as
    it asks for a label that is both falsy and truthy: nothing is written. *)
Lemma updateTooltip_without_sublabel (w : World) :
  Js.truthy_string (sublabel (item (this w))) = false ->
  updateTooltip w = Some w.
Proof.
  intros Hsub. unfold updateTooltip. rewrite Hsub.
  destruct (Js.truthy_string (label (item (this w)))); reflexivity.
Qed.

(** With a sublabel, the tooltip is the sublabel. *)
Lemma updateTooltip_sublabel (w : World) i :
  Js.truthy_string (sublabel (item (this w))) = true ->
  itemElement (this w) = Some i ->
  is_Some (nodes w !! i) ->
  exists w',
    updateTooltip w = Some w'
    /\ Dom.getAttribute i "title" (nodes w') = sublabel (item (this w)).
Proof.
  intros Hsub Hi Hel. unfold updateTooltip. cbv zeta. rewrite Hsub.
  destruct (sublabel (item (this w))) as [t|] eqn:Ht; [|discriminate].
  rewrite Hsub. run_cmd. run_with Hi. eexists. split; [reflexivity|].
  world_simpl. now apply DomFacts.getAttribute_setAttribute_eq.
Qed.

(** C10. When the item has no sublabel, [updateTooltip] leaves the world
    as it is: a title that the item element already carries stays. *)
Theorem updateTooltip_never_clears (w : World) i t :
  Js.truthy_string (sublabel (item (this w))) = false ->
  Dom.getAttribute i "title" (nodes w) = Some t ->
  exists w',
    updateTooltip w = Some w'
    /\ w' = w
    /\ Dom.getAttribute i "title" (nodes w') = Some t.
Proof.
  intros Hsub Ht. exists w. split; [|split]; auto.
  now apply updateTooltip_without_sublabel.
Qed.

(** C2 at an item with an icon, an accelerator and no label: the tooltip
    that the claim asks for, the accelerator text, is not set; the item
    element has no title after [render] and after [updateTooltip]. *)
Theorem updateTooltip_icon_only_item_has_no_title :
  exists w,
    rendered_world (H := sample_host) icon_only_item None = Some w
    /\ itemElement (this w) = Some 1
    /\ updateTooltip w = Some w
    /\ Dom.getAttribute 1 "title" (nodes w) = None
    /\ Dom.getAttribute 1 "title" (nodes w) <> accelerator icon_only_item.
Proof.
  eexists. split; [vm_compute; reflexivity|].
  split; [reflexivity|]. split; [now apply updateTooltip_without_sublabel|].
  split; [vm_compute; reflexivity|]. vm_compute. discriminate.
Qed.

(** C6 as stated fails on an item that is disabled after it was rendered
    enabled: [updateEnabled] marks the container [disabled], and the tab
    index zero of the earlier call stays, so the item is still reached by
    tab. *)
Lemma updateEnabled_claim_counterexample :
  exists w',
    is_Some (rendered_world (H := sample_host) word_wrap_item None)
    /\ container (this enabled_then_disabled) = Some 0
    /\ Js.truthy_bool (enabled (item (this enabled_then_disabled))) = false
    /\ updateEnabled enabled_then_disabled = Some w'
    /\ Dom.hasClass 0 "disabled" (nodes w') = true
    /\ Dom.getTabIndex 0 (nodes w') = Some 0%Z
    /\ Dom.getTabIndex 0 (nodes w') <> None.
Proof.
  eexists. split; [vm_compute; eauto|].
  split; [vm_compute; reflexivity|]. split; [vm_compute; reflexivity|].
  split; [vm_compute; reflexivity|]. split; [vm_compute; reflexivity|].
  split; [vm_compute; reflexivity|]. vm_compute. discriminate.
Qed.

(** ** [dispose] *)

(** Releasing the listeners touches neither parents nor children. *)
Lemma release_frame {A} (g : Dom.HTMLElement -> A) (ds : list IDisposable) :
  (forall f el, g (Dom.with_listeners f el) = g el) ->
  forall (d : gmap nat Dom.HTMLElement) n,
    g <$> (foldr (fun x acc =>
                    Dom.removeListener (listened_node x) (listened_type x)
                      (listened_by x) acc) d ds !! n)
    = g <$> (d !! n).
Proof.
  intros Hg d n. induction ds as [|x ds IH]; [reflexivity|].
  cbn [foldr]. unfold Dom.removeListener at 1.
  destruct (decide (listened_node x = n)) as [->|Hne].
  - rewrite lookup_alter_eq, <- IH.
    destruct (foldr _ d ds !! n); [|reflexivity]. cbn. now rewrite Hg.
  - now rewrite lookup_alter_ne.
Qed.

Lemma removeNode_no_parent n (d : gmap nat Dom.HTMLElement) :
  Dom.removeNode n d !! n ≫= Dom.parentNode = None.
Proof.
  unfold Dom.removeNode.
  destruct (d !! n ≫= Dom.parentNode) as [p|] eqn:Hp; [|exact Hp].
  rewrite lookup_alter_eq. now destruct (alter _ p d !! n).
Qed.

Lemma removeNode_not_a_child n p elp (d : gmap nat Dom.HTMLElement) :
  d !! n ≫= Dom.parentNode = Some p ->
  Dom.removeNode n d !! p = Some elp ->
  n ∉ Dom.childNodes elp.
Proof.
  intros Hp. unfold Dom.removeNode. rewrite Hp.
  assert (Hfil : forall el, n ∉ Dom.childNodes
                   (Dom.with_childNodes (filter (fun x => x <> n)) el)).
  { intros el. cbn. rewrite list_elem_of_filter. tauto. }
  destruct (decide (n = p)) as [<-|Hne].
  - rewrite !lookup_alter_eq. destruct (d !! n) as [el|]; [|discriminate].
    intros [= <-]. apply Hfil.
  - rewrite lookup_alter_ne by exact Hne. rewrite lookup_alter_eq.
    destruct (d !! p) as [el|]; [|discriminate]. intros [= <-]. apply Hfil.
Qed.

(** Each release takes one registration away from the element it listens
    on: the element loses the registrations of the list, the last one
    first. *)
Lemma release_listeners (ds : list IDisposable)
  (d : gmap nat Dom.HTMLElement) n :
  Dom.listeners
    <$> (foldr (fun x acc =>
                  Dom.removeListener (listened_node x) (listened_type x)
                    (listened_by x) acc) d ds !! n)
  = (fun el => foldr Dom.remove_first (Dom.listeners el) (registered_on n ds))
      <$> (d !! n).
Proof.
  induction ds as [|x ds IH].
  { cbn [foldr]. unfold registered_on. rewrite filter_nil. cbn [map foldr].
    now destruct (d !! n). }
  cbn [foldr]. unfold Dom.removeListener at 1. unfold registered_on.
  rewrite filter_cons.
  destruct (decide (listened_node x = n)) as [<-|Hne].
  - rewrite lookup_alter_eq. cbn [map foldr].
    fold (registered_on (listened_node x) ds).
    destruct (foldr _ d ds !! listened_node x) as [el1|] eqn:E1;
      destruct (d !! listened_node x) as [el0|] eqn:E0;
      cbn in IH |- *; try discriminate; [|reflexivity].
    injection IH as IH. now rewrite IH.
  - rewrite lookup_alter_ne by exact Hne. exact IH.
Qed.

(** Detaching a node writes parents and children only. *)
Lemma removeNode_frame {A} (g : Dom.HTMLElement -> A) i :
  (forall f el, g (Dom.with_childNodes f el) = g el) ->
  (forall v el, g (Dom.with_parentNode v el) = g el) ->
  forall (d : gmap nat Dom.HTMLElement) n,
    g <$> (Dom.removeNode i d !! n) = g <$> (d !! n).
Proof.
  intros Hc Hp d n. unfold Dom.removeNode.
  destruct (d !! i ≫= Dom.parentNode) as [p|]; [|reflexivity].
  destruct (decide (i = n)) as [->|Hi];
    [rewrite lookup_alter_eq|rewrite lookup_alter_ne by exact Hi];
    (destruct (decide (p = n)) as [->|Hpn];
     [rewrite lookup_alter_eq|rewrite lookup_alter_ne by exact Hpn]);
    destruct (d !! n) as [el|]; try reflexivity; cbn;
    now rewrite ?Hp, ?Hc.
Qed.

Lemma removeNode_other_parents i (d : gmap nat Dom.HTMLElement) n :
  n <> i ->
  Dom.parentNode <$> (Dom.removeNode i d !! n) = Dom.parentNode <$> (d !! n).
Proof.
  intros Hn. unfold Dom.removeNode.
  destruct (d !! i ≫= Dom.parentNode) as [p|]; [|reflexivity].
  rewrite lookup_alter_ne by congruence.
  destruct (decide (p = n)) as [->|Hpn];
    [rewrite lookup_alter_eq|now rewrite lookup_alter_ne].
  now destruct (d !! n).
Qed.

Lemma removeNode_children_of_parent i p (d : gmap nat Dom.HTMLElement) :
  d !! i ≫= Dom.parentNode = Some p ->
  Dom.childNodes <$> (Dom.removeNode i d !! p)
  = filter (fun x => x <> i) <$> (Dom.childNodes <$> (d !! p)).
Proof.
  intros Hp. unfold Dom.removeNode. rewrite Hp.
  destruct (decide (i = p)) as [->|Hip];
    [rewrite !lookup_alter_eq
    |rewrite lookup_alter_ne by exact Hip; rewrite lookup_alter_eq];
    now destruct (d !! p).
Qed.

Lemma removeNode_other_children i (d : gmap nat Dom.HTMLElement) n :
  d !! i ≫= Dom.parentNode <> Some n ->
  Dom.childNodes <$> (Dom.removeNode i d !! n) = Dom.childNodes <$> (d !! n).
Proof.
  intros Hn. unfold Dom.removeNode.
  destruct (d !! i ≫= Dom.parentNode) as [p|]; [|reflexivity].
  assert (Hpn : p <> n) by congruence.
  destruct (decide (i = n)) as [->|Hi];
    [rewrite lookup_alter_eq|rewrite lookup_alter_ne by exact Hi];
    rewrite lookup_alter_ne by exact Hpn; now destruct (d !! n).
Qed.

(** C7. [dispose] always returns.  It detaches the item element, if the
    instance holds one, from its parent: the element has no parent left
    and the parent keeps its other children in their order, while every
    other element keeps its parent and its children.  It clears the
    reference, and releases the base class: every element loses the
    listeners registered on it, the last registration first, and the
    registration list is emptied.  Nothing else changes: every element
    keeps whatever is neither its parent, its children nor its listeners,
    the instance keeps its other fields, and nothing is called.  A second
    call finds nothing to do and leaves the world as the first call left
    it. *)
Theorem dispose_idempotent (w : World) :
  exists w1,
    dispose w = Some w1
    /\ itemElement (this w1) = None
    /\ _toDispose (this w1) = []
    /\ (forall i, itemElement (this w) = Some i ->
        nodes w1 !! i ≫= Dom.parentNode = None
        /\ forall p elp,
             nodes w !! i ≫= Dom.parentNode = Some p ->
             nodes w1 !! p = Some elp ->
             i ∉ Dom.childNodes elp)
    /\ (forall i p,
          itemElement (this w) = Some i ->
          nodes w !! i ≫= Dom.parentNode = Some p ->
          Dom.childNodes <$> (nodes w1 !! p)
          = filter (fun x => x <> i) <$> (Dom.childNodes <$> (nodes w !! p)))
    /\ (forall n,
          (forall i, itemElement (this w) = Some i ->
                     nodes w !! i ≫= Dom.parentNode <> Some n) ->
          Dom.childNodes <$> (nodes w1 !! n)
          = Dom.childNodes <$> (nodes w !! n))
    /\ (forall n,
          itemElement (this w) <> Some n ->
          Dom.parentNode <$> (nodes w1 !! n)
          = Dom.parentNode <$> (nodes w !! n))
    /\ (forall n,
          Dom.listeners <$> (nodes w1 !! n)
          = (fun el =>
               foldr Dom.remove_first (Dom.listeners el)
                 (registered_on n (_toDispose (this w))))
              <$> (nodes w !! n))
    /\ (forall A (g : Dom.HTMLElement -> A),
          (forall f el, g (Dom.with_listeners f el) = g el) ->
          (forall f el, g (Dom.with_childNodes f el) = g el) ->
          (forall v el, g (Dom.with_parentNode v el) = g el) ->
          forall n, g <$> (nodes w1 !! n) = g <$> (nodes w !! n))
    /\ container (this w1) = container (this w)
    /\ labelElement (this w1) = labelElement (this w)
    /\ checkElement (this w1) = checkElement (this w)
    /\ item (this w1) = item (this w)
    /\ options (this w1) = options (this w)
    /\ menuStyle (this w1) = menuStyle (this w)
    /\ mnemonic (this w1) = mnemonic (this w)
    /\ event (this w1) = event (this w)
    /\ currentWindow (this w1) = currentWindow (this w)
    /\ trace w1 = trace w
    /\ dispose w1 = Some w1.
Proof.
  unfold dispose, Disposable_dispose. run_cmd.
  set (release := foldr (fun x acc =>
                           Dom.removeListener (listened_node x)
                             (listened_type x) (listened_by x) acc)).
  destruct (itemElement (this w)) as [i|] eqn:Hi; world_simpl.
  - eexists. split; [reflexivity|]. world_simpl.
    cbn [_toDispose set_itemElement].
    split; [reflexivity|]. split; [reflexivity|]. split.
    { intros i' [= <-]. split.
      - pose proof (release_frame Dom.parentNode (_toDispose (this w))
                      (fun _ _ => eq_refl) (Dom.removeNode i (nodes w)) i) as Hf.
        fold release in Hf.
        destruct (release _ _ !! i) as [el1|] eqn:E1; [|reflexivity].
        cbn in Hf |- *.
        pose proof (removeNode_no_parent i (nodes w)) as Hno.
        destruct (Dom.removeNode i (nodes w) !! i) as [el0|]; [|discriminate].
        cbn in Hf, Hno. congruence.
      - intros p elp Hp Hlk.
        pose proof (release_frame Dom.childNodes (_toDispose (this w))
                      (fun _ _ => eq_refl) (Dom.removeNode i (nodes w)) p) as Hf.
        fold release in Hf. rewrite Hlk in Hf.
        destruct (Dom.removeNode i (nodes w) !! p) as [el0|] eqn:E0;
          [|discriminate].
        cbn in Hf. injection Hf as ->.
        eapply removeNode_not_a_child; eauto. }
    split.
    { intros i' p [= <-] Hp. unfold release.
      rewrite (release_frame Dom.childNodes) by reflexivity.
      now apply removeNode_children_of_parent. }
    split.
    { intros n Hn. unfold release.
      rewrite (release_frame Dom.childNodes) by reflexivity.
      apply removeNode_other_children. now apply Hn. }
    split.
    { intros n Hn. unfold release.
      rewrite (release_frame Dom.parentNode) by reflexivity.
      apply removeNode_other_parents. congruence. }
    split.
    { intros n. unfold release. rewrite release_listeners.
      pose proof (removeNode_frame Dom.listeners i (fun _ _ => eq_refl)
                    (fun _ _ => eq_refl) (nodes w) n) as Hf.
      destruct (Dom.removeNode i (nodes w) !! n) as [el1|];
        destruct (nodes w !! n) as [el0|]; cbn in Hf |- *;
        try discriminate; [|reflexivity].
      injection Hf as ->. reflexivity. }
    split.
    { intros A g Hg1 Hg2 Hg3 n. unfold release.
      rewrite (release_frame g) by exact Hg1.
      now apply removeNode_frame. }
    do 10 (split; [reflexivity|]).
    cbn [itemElement set__toDispose set_itemElement _toDispose foldr].
    unfold release. reflexivity.
  - eexists. split; [reflexivity|]. world_simpl.
    split; [cbn; exact Hi|]. split; [reflexivity|]. split; [congruence|].
    split; [intros i' p Hi'; congruence|].
    split.
    { intros n _. unfold release.
      now rewrite (release_frame Dom.childNodes) by reflexivity. }
    split.
    { intros n _. unfold release.
      now rewrite (release_frame Dom.parentNode) by reflexivity. }
    split; [intros n; unfold release; apply release_listeners|].
    split.
    { intros A g Hg1 _ _ n. unfold release.
      now rewrite (release_frame g) by exact Hg1. }
    do 10 (split; [reflexivity|]).
    cbn [itemElement set__toDispose _toDispose foldr]. rewrite Hi.
    world_simpl. unfold release. reflexivity.
Qed.

(** ** [style] and [applyStyle] *)

Lemma chosen_colour_code focused (selection base : option Color) :
  (if focused && bool_decide (is_Some selection) then selection else base)
  = chosen_colour focused selection base.
Proof.
  destruct selection as [c|], focused; cbn; try reflexivity.
Qed.

(** What [applyStyle] writes when a style is stored. *)
Lemma applyStyle_run (w : World) st i k :
  menuStyle (this w) = Some st ->
  itemElement (this w) = Some i ->
  checkElement (this w) = Some k ->
  applyStyle w =
  Some (set_nodes
          (fun d =>
             Dom.setStyle i "backgroundColor"
               (Color_toString <$>
                  chosen_colour (is_focused w) (selectionBackgroundColor st)
                    (backgroundColor st))
               (Dom.setStyle i "color"
                  (Color_toString <$>
                     chosen_colour (is_focused w) (selectionForegroundColor st)
                       (foregroundColor st))
                  (Dom.setStyle k "backgroundColor"
                     (Color_toString <$>
                        chosen_colour (is_focused w)
                          (selectionForegroundColor st) (foregroundColor st))
                     d))) w).
Proof.
  intros Hst Hi Hk. unfold applyStyle. rewrite Hst.
  fold (is_focused w). cbv zeta. rewrite !chosen_colour_code.
  run_cmd. rewrite Hk. world_simpl. run_with Hi. reflexivity.
Qed.

(** Without a stored style, [applyStyle] does nothing. *)
Lemma applyStyle_without_style (w : World) :
  menuStyle (this w) = None -> applyStyle w = Some w.
Proof. intros Hst. unfold applyStyle. now rewrite Hst. Qed.

(** C8. [style] stores the style and applies it to a rendered item: the
    foreground colour, which is the selection foreground when the item is
    focused and the style has one and the base foreground otherwise, becomes
    the background of the check indicator and the text colour of the row;
    the background colour, chosen the same way, becomes the background of
    the row.  A colour that is absent clears the inline property: the
    property then has no value. *)
Theorem style_applies_colours (w : World) (st : IMenuStyle) i k :
  itemElement (this w) = Some i ->
  checkElement (this w) = Some k ->
  i <> k ->
  is_Some (nodes w !! i) ->
  is_Some (nodes w !! k) ->
  exists w',
    style st w = Some w'
    /\ menuStyle (this w') = Some st
    /\ Dom.getStyle k "backgroundColor" (nodes w')
       = Color_toString <$> chosen_colour (is_focused w)
                              (selectionForegroundColor st) (foregroundColor st)
    /\ Dom.getStyle i "color" (nodes w')
       = Color_toString <$> chosen_colour (is_focused w)
                              (selectionForegroundColor st) (foregroundColor st)
    /\ Dom.getStyle i "backgroundColor" (nodes w')
       = Color_toString <$> chosen_colour (is_focused w)
                              (selectionBackgroundColor st) (backgroundColor st)
    /\ (chosen_colour (is_focused w) (selectionForegroundColor st)
          (foregroundColor st) = None ->
        Dom.getStyle k "backgroundColor" (nodes w') = None
        /\ Dom.getStyle i "color" (nodes w') = None)
    /\ (chosen_colour (is_focused w) (selectionBackgroundColor st)
          (backgroundColor st) = None ->
        Dom.getStyle i "backgroundColor" (nodes w') = None).
Proof.
  intros Hi Hk Hne Heli Helk. unfold style. run_cmd.
  erewrite (applyStyle_run _ st i k) by reflexivity || assumption.
  eexists. split; [reflexivity|]. world_simpl.
  change (is_focused (set_this (set_menuStyle (Some st)) w)) with (is_focused w).
  set (fg := chosen_colour _ (selectionForegroundColor st) _).
  set (bg := chosen_colour _ (selectionBackgroundColor st) _).
  assert (Hk' : Dom.getStyle k "backgroundColor"
                  (Dom.setStyle i "backgroundColor" (Color_toString <$> bg)
                     (Dom.setStyle i "color" (Color_toString <$> fg)
                        (Dom.setStyle k "backgroundColor"
                           (Color_toString <$> fg) (nodes w))))
                = Color_toString <$> fg).
  { rewrite !DomFacts.getStyle_setStyle_ne by (left; exact Hne).
    now apply DomFacts.getStyle_setStyle_eq. }
  assert (Hc' : Dom.getStyle i "color"
                  (Dom.setStyle i "backgroundColor" (Color_toString <$> bg)
                     (Dom.setStyle i "color" (Color_toString <$> fg)
                        (Dom.setStyle k "backgroundColor"
                           (Color_toString <$> fg) (nodes w))))
                = Color_toString <$> fg).
  { rewrite DomFacts.getStyle_setStyle_ne by (right; discriminate).
    apply DomFacts.getStyle_setStyle_eq. now apply DomFacts.is_Some_alter. }
  assert (Hb' : Dom.getStyle i "backgroundColor"
                  (Dom.setStyle i "backgroundColor" (Color_toString <$> bg)
                     (Dom.setStyle i "color" (Color_toString <$> fg)
                        (Dom.setStyle k "backgroundColor"
                           (Color_toString <$> fg) (nodes w))))
                = Color_toString <$> bg).
  { apply DomFacts.getStyle_setStyle_eq.
    now apply DomFacts.is_Some_alter, DomFacts.is_Some_alter. }
  split; [reflexivity|]. split; [exact Hk'|]. split; [exact Hc'|].
  split; [exact Hb'|]. split.
  - intros Hnone. rewrite Hk', Hc', Hnone. split; reflexivity.
  - intros Hnone. rewrite Hb', Hnone. reflexivity.
Qed.

(** ** The constructor *)

(** The constructor cannot throw: the group it selects is there whenever
    the pattern matches. *)
Lemma new_MenuItem_total `{Host} (it : IMenuItem) (opts : option IMenuOptions) :
  exists m, new_MenuItem it opts = Some m /\ item m = it.
Proof.
  unfold new_MenuItem.
  destruct (_ && _); [|eexists; split; reflexivity].
  destruct (label it ≫= MENU_MNEMONIC_REGEX_exec) as [r|] eqn:Hr;
    [|eexists; split; reflexivity].
  destruct (label it) as [l|]; [|discriminate]. cbn in Hr.
  destruct (selected_group_exec l r Hr) as (c & -> & _).
  eexists. split; reflexivity.
Qed.

(** C5. The constructor always returns an instance.  With mnemonics
    enabled and a label in which the marker pattern matches, the mnemonic
    is the key code of the first capture group, upper-cased; with mnemonics
    disabled, without a label, or with a label in which the pattern does not
    match, the mnemonic stays unset. *)
Theorem new_MenuItem_mnemonic `{Host} (it : IMenuItem) (opts : option IMenuOptions) :
  exists m,
    new_MenuItem it opts = Some m
    /\ item m = it
    /\ options m = default {| enableMnemonics := None |} opts
    /\ (forall l r,
          Js.truthy_bool (enableMnemonics (options m)) = true ->
          label it = Some l ->
          MENU_MNEMONIC_REGEX_exec l = Some r ->
          exists c,
            group1 r = Some (String c EmptyString)
            /\ mnemonic m
               = Some (KeyCodeUtils_fromString
                         (toLocaleUpperCase (String c EmptyString))))
    /\ (Js.truthy_bool (enableMnemonics (options m)) = false
        \/ label it = None
        \/ (exists l, label it = Some l /\ MENU_MNEMONIC_REGEX_exec l = None) ->
        mnemonic m = None).
Proof.
  unfold new_MenuItem.
  set (o := default {| enableMnemonics := None |} opts).
  destruct (label it) as [l|] eqn:Hl; cbn [mbind option_bind].
  - destruct (MENU_MNEMONIC_REGEX_exec l) as [r|] eqn:Hr.
    + destruct (selected_group_exec l r Hr) as (c & Hsel & Hg1).
      assert (Hne : Js.truthy_string (Some l) = true).
      { destruct l; [discriminate Hr|reflexivity]. }
      rewrite Hne, Hsel. cbn [andb mbind option_bind].
      destruct (Js.truthy_bool (enableMnemonics o)) eqn:Hen.
      * eexists. split; [reflexivity|].
        cbn [item options mnemonic set_mnemonic].
        split; [reflexivity|]. split; [reflexivity|]. split.
        -- intros l' r' _ [= <-] Hr'. rewrite Hr in Hr'. injection Hr' as <-.
           exists c. auto.
        -- intros [Hoff|[Hno|(l' & [= <-] & Hnone)]]; congruence.
      * eexists. split; [reflexivity|]. cbn [item options mnemonic].
        split; [reflexivity|]. split; [reflexivity|]. split; [|reflexivity].
        intros l' r' Hon. congruence.
    + assert (Hm : forall (b : bool) (x : MenuItem),
                 (if b then Some x else Some x) = Some x)
        by (intros []; reflexivity).
      rewrite Hm.
      eexists. split; [reflexivity|]. cbn [item options mnemonic].
      split; [reflexivity|]. split; [reflexivity|]. split; [|reflexivity].
      intros l' r' _ [= <-] Hr'. congruence.
  - cbn [Js.truthy_string andb].
    eexists. split; [reflexivity|]. cbn [item options mnemonic].
    split; [reflexivity|]. split; [reflexivity|]. split; [|reflexivity].
    intros l' r' _ Hl'. discriminate.
Qed.

Lemma new_MenuItem_mnemonic_witness :
  exists m,
    new_MenuItem (H := sample_host) (labelled "&File") mnemonics_on = Some m
    /\ mnemonic m = Some (letter_code "F").
Proof.
  destruct (new_MenuItem_mnemonic (H := sample_host) (labelled "&File")
              mnemonics_on) as (m & Hm & _ & Ho & Hyes & _).
  exists m. split; [exact Hm|].
  rewrite Ho in Hyes.
  destruct (Hyes "&File" _ eq_refl eq_refl eq_refl) as (c & Hc & Hmn).
  injection Hc as <-. exact Hmn.
Defined.

(** ** [updateLabel] *)

(** What [updateLabel] writes for a label with text, given the match it
    finds in the label it goes on with. *)
Lemma updateLabel_run `{Host} (w : World) l i label0 :
  label (item (this w)) = Some label0 ->
  label0 <> EmptyString ->
  labelElement (this w) = Some l ->
  itemElement (this w) = Some i ->
  let cleanLabel := cleanMnemonic label0 in
  let label1 :=
    if negb (Js.truthy_bool (enableMnemonics (options (this w))))
    then cleanLabel else label0 in
  updateLabel w =
  match MENU_MNEMONIC_REGEX_exec label1 with
  | Some r =>
      g ← selected_group r;
      Some (set_nodes
              (fun d =>
                 alter (Dom.with_innerHTML
                          (Some (Js.trim (replace_escaped_mnemonic
                                            (Js.escape label1))))) l
                   (Dom.setAttribute i "aria-keyshortcuts" (toLocaleLowerCase g)
                      (Dom.setAttribute l "aria-label" cleanLabel d))) w)
  | None =>
      Some (set_nodes
              (fun d =>
                 alter (Dom.with_innerHTML (Some (Js.trim label1))) l
                   (Dom.setAttribute l "aria-label" cleanLabel d)) w)
  end.
Proof.
  intros Hlab Hne Hl Hi. cbv zeta. unfold updateLabel. rewrite Hlab.
  assert (Ht : Js.truthy_string (Some label0) = true).
  { destruct label0; [contradiction|reflexivity]. }
  rewrite Ht. cbv zeta.
  destruct (MENU_MNEMONIC_REGEX_exec _) as [r|]; run_cmd; run_with Hl.
  - rewrite Hi. destruct (selected_group r); world_simpl; [|reflexivity].
    run_with Hl. reflexivity.
  - reflexivity.
Qed.

(** C1, amended.  On a rendered item whose label holds a mnemonic marker,
    [updateLabel] returns and sets [aria-label] to the label with the
    ampersands of the marker removed; when mnemonics are enabled it also
    sets [aria-keyshortcuts] to the marked character, lower-cased. *)
Theorem updateLabel_accessible_label `{Host} (w : World) l i label0 r :
  label (item (this w)) = Some label0 ->
  MENU_MNEMONIC_REGEX_exec label0 = Some r ->
  labelElement (this w) = Some l ->
  itemElement (this w) = Some i ->
  is_Some (nodes w !! l) ->
  is_Some (nodes w !! i) ->
  exists w' pre c post,
    updateLabel w = Some w'
    /\ label0 = pre +:+ match0 r +:+ post
    /\ (match0 r = String "&" (String c EmptyString)
        \/ match0 r = String "&" (String "&" (String c EmptyString)))
    /\ selected_group r = Some (String c EmptyString)
    /\ Dom.getAttribute l "aria-label" (nodes w') = Some (pre +:+ String c post)
    /\ (Js.truthy_bool (enableMnemonics (options (this w))) = true ->
        Dom.getAttribute i "aria-keyshortcuts" (nodes w')
        = Some (toLocaleLowerCase (String c EmptyString))).
Proof.
  intros Hlab Hr Hl Hi Hell Heli.
  destruct (exec_shape _ _ Hr) as (pre & c & post & Hsplit & _ & Hm0 & Hg1 & Hg2 & Hclean).
  assert (Hsel : selected_group r = Some (String c EmptyString)).
  { unfold selected_group. now rewrite Hg1. }
  assert (Hne : label0 <> EmptyString).
  { intros ->. discriminate Hr. }
  pose proof (updateLabel_run w l i label0 Hlab Hne Hl Hi) as Hrun.
  cbv zeta in Hrun.
  assert (Haria : forall h g (d : gmap nat Dom.HTMLElement),
             is_Some (d !! l) ->
             Dom.getAttribute l "aria-label"
               (alter (Dom.with_innerHTML h) l
                  (Dom.setAttribute i "aria-keyshortcuts" g
                     (Dom.setAttribute l "aria-label" (cleanMnemonic label0) d)))
             = Some (pre +:+ String c post)).
  { intros h g d Hd.
    rewrite DomFacts.getAttribute_alter_frame by reflexivity.
    rewrite DomFacts.getAttribute_setAttribute_ne by (right; discriminate).
    rewrite DomFacts.getAttribute_setAttribute_eq by exact Hd.
    now rewrite Hclean. }
  destruct (Js.truthy_bool (enableMnemonics (options (this w)))) eqn:Hen;
    cbn [negb] in Hrun.
  - rewrite Hr, Hsel in Hrun. cbn [mbind option_bind] in Hrun.
    eexists. exists pre, c, post. split; [exact Hrun|]. world_simpl.
    repeat split; auto.
    intros _. rewrite DomFacts.getAttribute_alter_frame by reflexivity.
    apply DomFacts.getAttribute_setAttribute_eq.
    now apply DomFacts.is_Some_alter.
  - destruct (MENU_MNEMONIC_REGEX_exec (cleanMnemonic label0)) as [r'|] eqn:Hr'.
    + destruct (selected_group_exec _ _ Hr') as (c' & Hsel' & _).
      rewrite Hsel' in Hrun. cbn [mbind option_bind] in Hrun.
      eexists. exists pre, c, post. split; [exact Hrun|]. world_simpl.
      repeat split; auto. discriminate.
    + eexists. exists pre, c, post. split; [exact Hrun|]. world_simpl.
      repeat split; auto; [|discriminate].
      rewrite DomFacts.getAttribute_alter_frame by reflexivity.
      rewrite DomFacts.getAttribute_setAttribute_eq by exact Hell.
      now rewrite Hclean.
Qed.

(** *** What [escape] does to the markup

    The global [escape] percent-encodes the ampersand, so the pattern over
    HTML-escaped text finds nothing to underline in its result. *)

Lemma escape_head_no_amp c rest :
  has_amp (Js.escape (String c rest)) = has_amp (Js.escape rest).
Proof.
  destruct c as [[] [] [] [] [] [] [] []]; reflexivity.
Qed.

Lemma escape_no_amp s : has_amp (Js.escape s) = false.
Proof.
  induction s as [|c rest IH]; [reflexivity|].
  now rewrite escape_head_no_amp.
Qed.

Lemma replace_escaped_mnemonic_no_amp s :
  has_amp s = false -> replace_escaped_mnemonic s = s.
Proof.
  induction s as [|a rest IH]; intros Hs; [reflexivity|].
  cbn [has_amp] in Hs. apply orb_false_iff in Hs as [Ha Hrest].
  cbn [replace_escaped_mnemonic].
  assert (Hhere : escaped_marker_here (String a rest) = None).
  { unfold escaped_marker_here. cbn [strip_prefix].
    unfold is_amp in Ha. rewrite Ascii.eqb_sym in Ha. now rewrite Ha. }
  now rewrite Hhere, IH.
Qed.

(** With mnemonics enabled, the markup that [updateLabel] assigns is the
    percent-encoded label, trimmed, without an underline tag. *)
Lemma updateLabel_markup `{Host} (w : World) l i label0 r :
  label (item (this w)) = Some label0 ->
  MENU_MNEMONIC_REGEX_exec label0 = Some r ->
  Js.truthy_bool (enableMnemonics (options (this w))) = true ->
  labelElement (this w) = Some l ->
  itemElement (this w) = Some i ->
  is_Some (nodes w !! l) ->
  exists w',
    updateLabel w = Some w'
    /\ nodes w' !! l ≫= Dom.innerHTML = Some (Js.trim (Js.escape label0)).
Proof.
  intros Hlab Hr Hen Hl Hi [el Hel].
  assert (Hne : label0 <> EmptyString) by (intros ->; discriminate Hr).
  pose proof (updateLabel_run w l i label0 Hlab Hne Hl Hi) as Hrun.
  cbv zeta in Hrun. rewrite Hen in Hrun. cbn [negb] in Hrun.
  rewrite Hr in Hrun. destruct (selected_group_exec _ _ Hr) as (c & Hsel & _).
  rewrite Hsel in Hrun. cbn [mbind option_bind] in Hrun.
  eexists. split; [exact Hrun|]. world_simpl.
  rewrite lookup_alter_eq. unfold Dom.setAttribute.
  destruct (decide (i = l)) as [->|Hil].
  - rewrite !lookup_alter_eq, Hel. cbn.
    now rewrite replace_escaped_mnemonic_no_amp by apply escape_no_amp.
  - rewrite lookup_alter_ne by exact Hil. rewrite lookup_alter_eq, Hel. cbn.
    now rewrite replace_escaped_mnemonic_no_amp by apply escape_no_amp.
Qed.

(** C1 as stated fails twice.  An item built with the default options has
    a marker in its label and no [aria-keyshortcuts] after [updateLabel];
    and with mnemonics enabled the markup of [&File] is [%26File], not the
    HTML-escaped label with its underline tag. *)
Lemma updateLabel_claim_counterexample :
  (exists w w',
      rendered_world (H := sample_host) (labelled "&File") None = Some w
      /\ is_Some (MENU_MNEMONIC_REGEX_exec "&File")
      /\ itemElement (this w) = Some 1
      /\ updateLabel (H := sample_host) w = Some w'
      /\ Dom.getAttribute 1 "aria-keyshortcuts" (nodes w') = None)
  /\ (exists w w',
         rendered_world (H := sample_host) (labelled "&File") mnemonics_on
         = Some w
         /\ labelElement (this w) = Some 3
         /\ updateLabel (H := sample_host) w = Some w'
         /\ nodes w' !! 3 ≫= Dom.innerHTML = Some "%26File"
         /\ spec_label_markup "&File" = underline "F" +:+ "ile"
         /\ nodes w' !! 3 ≫= Dom.innerHTML
            <> Some (spec_label_markup "&File")).
Proof.
  split.
  - eexists. eexists. split; [vm_compute; reflexivity|].
    split; [vm_compute; eauto|]. split; [reflexivity|].
    split; [vm_compute; reflexivity|]. vm_compute. reflexivity.
  - eexists. eexists. split; [vm_compute; reflexivity|].
    split; [reflexivity|]. split; [vm_compute; reflexivity|].
    split; [vm_compute; reflexivity|]. split; [vm_compute; reflexivity|].
    vm_compute. discriminate.
Qed.

(** ** The theorems at work on rendered items *)

Lemma updateLabel_accessible_label_witness :
  exists w',
    updateLabel (H := sample_host)
      (rendered_or_bare (H := sample_host) word_wrap_item mnemonics_on)
    = Some w'
    /\ Dom.getAttribute 3 "aria-label" (nodes w') = Some "Word Wrap"
    /\ Dom.getAttribute 1 "aria-keyshortcuts" (nodes w') = Some "w".
Proof.
  destruct (updateLabel_accessible_label (H := sample_host)
              (rendered_or_bare (H := sample_host) word_wrap_item mnemonics_on)
              3 1 "&Word Wrap"
              {| index := 0; match0 := "&W"; group1 := Some "W";
                 group2 := None |})
    as (w' & pre & c & post & Hrun & Hsplit & Hm0 & Hsel & Haria & Hkeys).
  - vm_compute; reflexivity.
  - vm_compute; reflexivity.
  - vm_compute; reflexivity.
  - vm_compute; reflexivity.
  - vm_compute; eauto.
  - vm_compute; eauto.
  - exists w'. split; [exact Hrun|].
    vm_compute in Hrun. injection Hrun as <-.
    split; vm_compute; reflexivity.
Defined.

Lemma onClick_checkbox_flips_checked_witness :
  exists w',
    onClick (H := sample_host) primary_click
      (rendered_or_bare (H := sample_host) word_wrap_item mnemonics_on)
    = Some w'
    /\ checked (item (this w')) = Some true
    /\ Dom.getAttribute 1 "role" (nodes w') = Some "menuitemcheckbox"
    /\ Dom.getAttribute 1 "aria-checked" (nodes w') = Some "true".
Proof.
  destruct (onClick_checkbox_flips_checked (H := sample_host)
              (rendered_or_bare (H := sample_host) word_wrap_item mnemonics_on)
              primary_click 1)
    as (w' & Hrun & Hck & _ & Hrole & Haria & _).
  - vm_compute; reflexivity.
  - vm_compute; reflexivity.
  - vm_compute; eauto.
  - exists w'. rewrite Hrole, Haria, Hck. split; [exact Hrun|].
    repeat split; vm_compute; reflexivity.
Defined.

Lemma onClick_runs_on_disabled_item_witness :
  exists w',
    onClick (H := sample_host) primary_click
      (rendered_or_bare (H := sample_host) disabled_item None)
    = Some w'
    /\ trace w' = [Stopped primary_click true; Clicked 0 disabled_item 1 None]
    /\ checked (item (this w')) = Some true.
Proof.
  destruct (onClick_runs_on_disabled_item (H := sample_host)
              (rendered_or_bare (H := sample_host) disabled_item None)
              primary_click 0)
    as (w' & Hrun & Htr & Hck & _).
  - vm_compute; reflexivity.
  - vm_compute; reflexivity.
  - vm_compute; eauto.
  - exists w'. split; [exact Hrun|]. split.
    + rewrite Htr. vm_compute; reflexivity.
    + rewrite Hck by (vm_compute; reflexivity). vm_compute; reflexivity.
Defined.

Lemma updateEnabled_focusability_witness :
  exists w',
    updateEnabled (rendered_or_bare (H := sample_host) separator_item None)
    = Some w'
    /\ Dom.getTabIndex 0 (nodes w') = None
    /\ Dom.hasClass 0 "disabled" (nodes w') = true.
Proof.
  destruct (updateEnabled_focusability
              (rendered_or_bare (H := sample_host) separator_item None) 0)
    as (w' & Hrun & _ & Hsep & _).
  - vm_compute; reflexivity.
  - vm_compute; eauto.
  - exists w'. split; [exact Hrun|].
    destruct Hsep as [Htab Hcls]; [vm_compute; reflexivity|].
    rewrite Htab, Hcls. split; vm_compute; reflexivity.
Defined.

Lemma dispose_idempotent_witness :
  exists w1,
    dispose (rendered_or_bare (H := sample_host) word_wrap_item None) = Some w1
    /\ Dom.listeners <$> (nodes w1 !! 0) = Some []
    /\ Dom.childNodes <$> (nodes w1 !! 0) = Some []
    /\ dispose w1 = Some w1.
Proof.
  destruct (dispose_idempotent
              (rendered_or_bare (H := sample_host) word_wrap_item None))
    as (w1 & Hrun & _ & _ & _ & Hch & _ & _ & Hls & _ & _ & _ & _ & _ & _
        & _ & _ & _ & _ & _ & Hagain).
  exists w1. split; [exact Hrun|].
  split; [rewrite Hls; vm_compute; reflexivity|].
  split; [|exact Hagain].
  rewrite (Hch 1 0) by (vm_compute; reflexivity). vm_compute; reflexivity.
Defined.

Lemma updateTooltip_never_clears_witness :
  exists w',
    updateTooltip stale_title_world = Some w'
    /\ w' = stale_title_world
    /\ Dom.getAttribute 1 "title" (nodes w') = Some "Reset zoom".
Proof.
  apply (updateTooltip_never_clears stale_title_world 1 "Reset zoom").
  - vm_compute; reflexivity.
  - vm_compute; reflexivity.
Defined.

Lemma style_applies_colours_witness :
  exists w',
    style dark_style (rendered_or_bare (H := sample_host) word_wrap_item None)
    = Some w'
    /\ Dom.getStyle 2 "backgroundColor" (nodes w') = Some "#cccccc"
    /\ Dom.getStyle 1 "color" (nodes w') = Some "#cccccc"
    /\ Dom.getStyle 1 "backgroundColor" (nodes w') = None.
Proof.
  destruct (style_applies_colours
              (rendered_or_bare (H := sample_host) word_wrap_item None)
              dark_style 1 2)
    as (w' & Hrun & _ & Hk & Hc & Hb & _).
  - vm_compute; reflexivity.
  - vm_compute; reflexivity.
  - discriminate.
  - vm_compute; eauto.
  - vm_compute; eauto.
  - exists w'. split; [exact Hrun|]. rewrite Hk, Hc, Hb.
    repeat split; vm_compute; reflexivity.
Defined.

(** A focused item takes the selection colours. *)
Example style_focused_item :
  exists w,
    ((rendered_world (H := sample_host) word_wrap_item None ≫= focus)
     ≫= style dark_style) = Some w
    /\ Dom.getStyle 2 "backgroundColor" (nodes w) = Some "#ffffff"
    /\ Dom.getStyle 1 "color" (nodes w) = Some "#ffffff"
    /\ Dom.getStyle 1 "backgroundColor" (nodes w) = Some "#094771".
Proof.
  eexists. split; [vm_compute; reflexivity|].
  repeat split; vm_compute; reflexivity.
Qed.

(** After [render] and [dispose] the container has neither the item
    element nor a listener left, and a second [dispose] changes nothing. *)
Example dispose_after_render :
  exists w,
    (rendered_world (H := sample_host) word_wrap_item mnemonics_on ≫= dispose)
    = Some w
    /\ Dom.childNodes <$> nodes w !! 0 = Some []
    /\ Dom.listeners <$> nodes w !! 0 = Some []
    /\ itemElement (this w) = None
    /\ dispose w = Some w.
Proof.
  eexists. split; [vm_compute; reflexivity|].
  repeat split; vm_compute; reflexivity.
Qed.

(** ** [render] mounts the instance *)

Lemma same_frame_refl w : same_frame w w.
Proof. repeat split; reflexivity. Qed.

Lemma same_frame_trans w1 w2 w3 :
  same_frame w1 w2 -> same_frame w2 w3 -> same_frame w1 w3.
Proof. intros (T1 & R1 & D1) (T2 & R2 & D2). repeat split; congruence. Qed.

Lemma same_frame_mounted w w' : same_frame w w' -> mounted w -> mounted w'.
Proof.
  intros (Ht & _ & Hd) (c & i & k & l & ?). exists c, i, k, l.
  rewrite Ht, Hd. assumption.
Qed.

Lemma same_frame_set_nodes_alter f n w :
  same_frame w (set_nodes (alter f n) w).
Proof. do 2 (split; [reflexivity|]). cbn [nodes set_nodes]. apply dom_alter_L. Qed.

Lemma updateChecked_frame w :
  is_Some (itemElement (this w)) ->
  exists w', updateChecked w = Some w' /\ same_frame w w'.
Proof.
  intros [i Hi]. rewrite (updateChecked_run w i Hi). eexists.
  split; [reflexivity|]. do 2 (split; [reflexivity|]). cbn [nodes set_nodes].
  destruct (Js.truthy_bool _);
    unfold Dom.setAttribute, Dom.addClass, Dom.removeClass;
    now rewrite !dom_alter_L.
Qed.

Lemma updateEnabled_frame w :
  is_Some (container (this w)) ->
  exists w', updateEnabled w = Some w' /\ same_frame w w'.
Proof.
  intros [c Hc]. unfold updateEnabled.
  destruct (_ && _); run_cmd; run_with Hc; eexists;
    (split; [reflexivity|]); do 2 (split; [reflexivity|]); cbn [nodes set_nodes];
    unfold Dom.addClass, Dom.removeClass; now rewrite !dom_alter_L.
Qed.

Lemma updateTooltip_frame w :
  is_Some (itemElement (this w)) ->
  exists w', updateTooltip w = Some w' /\ same_frame w w'.
Proof.
  intros [i Hi]. unfold updateTooltip. cbv zeta.
  destruct (Js.truthy_string (sublabel (item (this w)))) eqn:Hsub.
  - destruct (sublabel (item (this w))) as [t|]; [|discriminate].
    rewrite Hsub. run_cmd. run_with Hi. eexists. split; [reflexivity|].
    apply same_frame_set_nodes_alter.
  - assert (Hdead : negb (Js.truthy_string (label (item (this w))))
                    && Js.truthy_string (label (item (this w)))
                    && Js.truthy_string (icon (item (this w))) = false).
    { now destruct (Js.truthy_string (label (item (this w)))). }
    rewrite Hdead. eexists. split; [reflexivity|]. apply same_frame_refl.
Qed.

Lemma updateLabel_frame `{Host} w :
  is_Some (itemElement (this w)) ->
  is_Some (labelElement (this w)) ->
  exists w', updateLabel w = Some w' /\ same_frame w w'.
Proof.
  intros [i Hi] [l Hl].
  destruct (label (item (this w))) as [label0|] eqn:Hlab.
  - destruct (decide (label0 = EmptyString)) as [->|Hne].
    + unfold updateLabel. rewrite Hlab. cbn. eexists.
      split; [reflexivity|]. apply same_frame_refl.
    + rewrite (updateLabel_run w l i label0 Hlab Hne Hl Hi). cbv zeta.
      destruct (MENU_MNEMONIC_REGEX_exec _) as [r|] eqn:Hr.
      * destruct (selected_group_exec _ _ Hr) as (c & -> & _).
        cbn [mbind option_bind]. eexists. split; [reflexivity|].
        do 2 (split; [reflexivity|]). cbn [nodes set_nodes].
        unfold Dom.setAttribute. now rewrite !dom_alter_L.
      * eexists. split; [reflexivity|].
        do 2 (split; [reflexivity|]). cbn [nodes set_nodes].
        unfold Dom.setAttribute. now rewrite !dom_alter_L.
  - unfold updateLabel. rewrite Hlab. eexists.
    split; [reflexivity|]. apply same_frame_refl.
Qed.

(** Running a sequence whose first command returns. *)
Lemma seq_Some (c1 c2 : Cmd) w w1 : c1 w = Some w1 -> seq c1 c2 w = c2 w1.
Proof. intros E. unfold seq. now rewrite E. Qed.

(** The node that [append_new] creates is new to the document. *)
Lemma append_new_fresh p tag cls (d : gmap nat Dom.HTMLElement) :
  fst (Dom.append_new p tag cls d) ∉ dom d.
Proof. cbn. apply is_fresh. Qed.

Lemma append_new_dom p tag cls (d : gmap nat Dom.HTMLElement) :
  dom (snd (Dom.append_new p tag cls d))
  = {[fst (Dom.append_new p tag cls d)]} ∪ dom d.
Proof. cbn. now rewrite dom_alter_L, dom_insert_L. Qed.

Ltac fields_simpl :=
  cbn [this nodes trace set_this set_nodes emit
       container itemElement labelElement checkElement item options mnemonic
       event currentWindow _toDispose menuStyle
       set_container set_itemElement set_labelElement set_checkElement
       set_item set__toDispose set_menuStyle].

Ltac step :=
  erewrite seq_Some
    by (unfold listen, append_to, deref, lift, on_nodes; fields_simpl;
        reflexivity).

(** Three nodes appended one after the other are new and different. *)
Lemma four_nodes (D0 D1 D2 D3 D4 : gset nat) c i k l :
  c ∈ D0 -> i ∉ D0 -> D1 = {[i]} ∪ D0 -> k ∉ D1 -> D2 = {[k]} ∪ D1 ->
  l ∉ D2 -> D3 = {[l]} ∪ D2 -> D3 ⊆ D4 ->
  NoDup [c; i; k; l] /\ {[c; i; k; l]} ⊆ D4.
Proof.
  intros Hc Hi -> Hk -> Hl -> Hsub.
  apply not_elem_of_union in Hk as [Hki Hk0].
  apply not_elem_of_union in Hl as [Hlk Hl].
  apply not_elem_of_union in Hl as [Hli Hl0].
  rewrite not_elem_of_singleton in Hki, Hlk, Hli.
  split.
  - rewrite !NoDup_cons, !not_elem_of_cons.
    repeat split; try congruence; try apply not_elem_of_nil; try apply NoDup_nil_2;
      intros <-; contradiction.
  - intros x. rewrite !elem_of_union, !elem_of_singleton.
    intros Hx. apply Hsub. rewrite !elem_of_union, !elem_of_singleton.
    destruct Hx as [[[->| ->]| ->]| ->]; auto.
Qed.

(** [render] returns on every container of the document; the instance is
    then mounted, the item, the options and the trace are as before. *)
Lemma render_mounts `{Host} (w : World) c :
  is_Some (nodes w !! c) ->
  exists w',
    render c w = Some w'
    /\ mounted w'
    /\ container (this w') = Some c
    /\ item (this w') = item (this w)
    /\ options (this w') = options (this w)
    /\ trace w' = trace w.
Proof.
  intros Hc. apply elem_of_dom in Hc. unfold render.
  do 8 step.
  set (d0 := Dom.addListener c MOUSE_OUT _ _).
  assert (Hd0 : dom d0 = dom (nodes w)).
  { subst d0. unfold Dom.addListener. now rewrite !dom_alter_L. }
  rewrite <- Hd0 in Hc.
  pose proof (append_new_fresh c "a" "action-menu-item" d0) as Hi.
  pose proof (append_new_dom c "a" "action-menu-item" d0) as Hdi.
  set (ri := Dom.append_new c "a" "action-menu-item" d0) in *.
  clearbody ri. clearbody d0.
  destruct (mnemonic (this w)) as [[|km]|] eqn:Hm;
  (erewrite seq_Some
     by (fields_simpl; rewrite Hm; cbn [Js.truthy_nat];
         unfold deref, on_nodes, lift; fields_simpl; reflexivity)).
  all: do 3 step.
  all: destruct (accelerator (item (this w))) as [acc|] eqn:Hacc;
    [destruct (Js.truthy_string (label (item (this w)))
               && Js.truthy_string (Some acc)) eqn:Hcond|].
  all: (erewrite seq_Some
     by (fields_simpl; rewrite Hacc, ?Hcond;
         unfold append_to, deref, on_nodes, lift; fields_simpl; reflexivity)).
  all: match goal with
       | |- context [Dom.append_new ?i "span" "menu-item-check" ?d] =>
           set (d1 := d);
           assert (Hd1 : dom d1 = dom (snd ri))
             by (subst d1; unfold Dom.setAttribute; now rewrite !dom_alter_L);
           pose proof (append_new_fresh i "span" "menu-item-check" d1) as Hk;
           pose proof (append_new_dom i "span" "menu-item-check" d1) as Hdk;
           set (rk := Dom.append_new i "span" "menu-item-check" d1) in *;
           clearbody rk; clearbody d1
       end.
  all: match goal with
       | |- context [Dom.append_new ?i "span" "action-label" ?d] =>
           set (d2 := d);
           assert (Hd2 : dom d2 = dom (snd rk))
             by (subst d2; unfold Dom.setAttribute; now rewrite !dom_alter_L);
           pose proof (append_new_fresh i "span" "action-label" d2) as Hl;
           pose proof (append_new_dom i "span" "action-label" d2) as Hdl;
           set (rl := Dom.append_new i "span" "action-label" d2) in *;
           clearbody rl; clearbody d2
       end.
  all: rewrite Hd2 in Hl, Hdl; rewrite Hd1 in Hk, Hdk.
  all: match goal with
       | |- exists w', seq _ _ ?W0 = _ /\ _ => set (W := W0)
       end.
  all: assert (HW : container (this W) = Some c
                    /\ is_Some (itemElement (this W))
                    /\ is_Some (labelElement (this W))
                    /\ item (this W) = item (this w)
                    /\ options (this W) = options (this w)
                    /\ trace W = trace w)
         by (subst W; fields_simpl; repeat split; eauto).
  all: assert (HdW : dom (snd rl) ⊆ dom (nodes W))
         by (subst W; fields_simpl; rewrite ?dom_alter_L, ?append_new_dom;
             first [reflexivity | apply union_subseteq_r]).
  all: assert (HM : mounted W)
         by (exists c, (fst ri), (fst rk), (fst rl);
             repeat (split; [subst W; reflexivity|]);
             exact (four_nodes _ _ _ _ _ _ _ _ _ Hc Hi Hdi Hk Hdk Hl Hdl HdW)).
  all: clearbody W; clear - HW HM.
  all: destruct HW as (HWc & HWi & HWl & HWitem & HWopts & HWtr).
  all: destruct (updateLabel_frame W HWi HWl) as (w1 & E1 & F1);
       rewrite (seq_Some _ _ _ _ E1).
  all: destruct (updateTooltip_frame w1) as (w2 & E2 & F2);
       [rewrite (proj1 F1); exact HWi|]; rewrite (seq_Some _ _ _ _ E2).
  all: destruct (updateEnabled_frame w2) as (w3 & E3 & F3);
       [rewrite (proj1 F2), (proj1 F1), HWc; eauto|];
       rewrite (seq_Some _ _ _ _ E3).
  all: destruct (updateChecked_frame w3) as (w4 & E4 & F4);
       [rewrite (proj1 F3), (proj1 F2), (proj1 F1); exact HWi|].
  all: exists w4; split; [exact E4|].
  all: pose proof (same_frame_trans _ _ _ (same_frame_trans _ _ _
                     (same_frame_trans _ _ _ F1 F2) F3) F4) as F.
  all: split; [exact (same_frame_mounted _ _ F HM)|].
  all: rewrite (proj1 F), (proj1 (proj2 F)); repeat split; assumption.
Qed.

(** Every item, with any options, can be constructed and rendered into the
    container of the sample document, and is mounted afterwards. *)
Lemma rendered_world_mounted `{Host} (it : IMenuItem) (opts : option IMenuOptions) :
  exists w,
    rendered_world it opts = Some w
    /\ mounted w
    /\ container (this w) = Some 0
    /\ item (this w) = it
    /\ trace w = [].
Proof.
  destruct (new_MenuItem_total it opts) as (m & Hm & Hit).
  unfold rendered_world. rewrite Hm. cbn [mbind option_bind].
  destruct (render_mounts (world_of m one_div) 0)
    as (w & Hrun & Hmo & Hc & Hi & _ & Htr).
  - unfold one_div. cbn [nodes world_of]. rewrite lookup_singleton_eq. eauto.
  - exists w. repeat split; try assumption. now rewrite Hi.
Qed.

(** * Further properties of the class *)

(** * Further properties of the class *)

(** ** [onClick] beyond the checkbox case *)

(** X1. On an item that is no checkbox once the handler has returned,
    [onClick] returns whether or not the item is rendered: it records the
    stop and the handler call, leaves the item as the handler left it, and
    changes neither the document nor the references of the instance. *)
Theorem onClick_plain_item_leaves_document `{Host} (w : World) (e : EventLike) :
  type (item_after_click w) <> Some checkbox ->
  exists w',
    onClick e w = Some w'
    /\ nodes w' = nodes w
    /\ item (this w') = item_after_click w
    /\ itemElement (this w') = itemElement (this w)
    /\ container (this w') = container (this w)
    /\ trace w'
       = trace w ++ Stopped e true ::
           match click (item (this w)) with
           | Some h => [Clicked h (item (this w)) (currentWindow (this w))
                          (event (this w))]
           | None => []
           end.
Proof.
  intros Hty. rewrite onClick_run. cbv zeta.
  rewrite (item_after_click_run w e) in Hty.
  unfold item_after_click.
  set (w2 := match click (item (this w)) with Some _ => _ | None => _ end) in *.
  rewrite bool_decide_eq_false_2 by exact Hty.
  exists w2. split; [reflexivity|]. subst w2.
  destruct (click (item (this w))) as [h|]; cbn [this nodes trace set_this emit
    item set_item itemElement container]; repeat split; try reflexivity.
  now rewrite <- app_assoc.
Qed.

Lemma onClick_plain_item_leaves_document_witness :
  exists w',
    onClick (H := sample_host) primary_click
      (rendered_or_bare (H := sample_host) tooltip_item None) = Some w'
    /\ nodes w' = nodes (rendered_or_bare (H := sample_host) tooltip_item None)
    /\ trace w' = [Stopped primary_click true].
Proof.
  destruct (onClick_plain_item_leaves_document (H := sample_host)
              (rendered_or_bare (H := sample_host) tooltip_item None)
              primary_click)
    as (w' & Hrun & Hn & _ & _ & _ & Htr).
  - vm_compute. discriminate.
  - exists w'. split; [exact Hrun|]. split; [exact Hn|].
    rewrite Htr. vm_compute. reflexivity.
Defined.

(** One click on a rendered checkbox item without a handler, spelled out. *)
Lemma onClick_checkbox_without_handler `{Host} (w : World) (e : EventLike) i :
  click (item (this w)) = None ->
  type (item (this w)) = Some checkbox ->
  itemElement (this w) = Some i ->
  is_Some (nodes w !! i) ->
  exists w',
    onClick e w = Some w'
    /\ checked (item (this w'))
       = Some (negb (Js.truthy_bool (checked (item (this w)))))
    /\ type (item (this w')) = Some checkbox
    /\ click (item (this w')) = None
    /\ itemElement (this w') = Some i
    /\ is_Some (nodes w' !! i)
    /\ trace w' = trace w ++ [Stopped e true]
    /\ Dom.getAttribute i "aria-checked" (nodes w')
       = Some (if Js.truthy_bool (checked (item (this w')))
               then "true" else "false")
    /\ Dom.getAttribute i "role" (nodes w')
       = Some (if Js.truthy_bool (checked (item (this w')))
               then "menuitemcheckbox" else "menuitem")
    /\ Dom.hasClass i "checked" (nodes w')
       = Js.truthy_bool (checked (item (this w'))).
Proof.
  intros Hno Hty Hi Hel. rewrite onClick_run. cbv zeta. rewrite Hno.
  cbn [this emit]. rewrite bool_decide_eq_true_2 by exact Hty.
  set (w3 := set_this _ _).
  destruct (updateChecked_aria w3 i Hi Hel)
    as (w' & Hrun & Hthis & Htr & Hrole & Haria & Hcls).
  exists w'. rewrite Hthis, Htr. split; [exact Hrun|].
  subst w3. cbn [this set_this emit item set_item checked set_checked type
                 click itemElement trace] in *.
  repeat split; try assumption.
  destruct (updateChecked_frame
              (set_this (fun m => set_item (set_checked
                 (Some (negb (Js.truthy_bool (checked (item m))))) (item m)) m)
                 (emit (Stopped e true) w))) as (w'' & Hrun' & _ & _ & Hdom).
  { cbn. eauto. }
  rewrite Hrun in Hrun'. injection Hrun' as <-.
  apply elem_of_dom. rewrite Hdom. cbn [nodes set_this emit].
  now apply elem_of_dom.
Qed.

(** X2. Two clicks on a rendered checkbox item without a handler bring
    the checked state back: the flag has the truthiness it started with
    (as a boolean, also when it started [undefined]), and [aria-checked],
    the role and the class [checked] of the item element say the same. *)
Theorem onClick_twice_restores_checked `{Host} (w : World) (e1 e2 : EventLike) i :
  click (item (this w)) = None ->
  type (item (this w)) = Some checkbox ->
  itemElement (this w) = Some i ->
  is_Some (nodes w !! i) ->
  exists w1 w2,
    onClick e1 w = Some w1
    /\ onClick e2 w1 = Some w2
    /\ checked (item (this w2)) = Some (Js.truthy_bool (checked (item (this w))))
    /\ Dom.getAttribute i "aria-checked" (nodes w2)
       = Some (if Js.truthy_bool (checked (item (this w)))
               then "true" else "false")
    /\ Dom.getAttribute i "role" (nodes w2)
       = Some (if Js.truthy_bool (checked (item (this w)))
               then "menuitemcheckbox" else "menuitem")
    /\ Dom.hasClass i "checked" (nodes w2)
       = Js.truthy_bool (checked (item (this w)))
    /\ trace w2 = trace w ++ [Stopped e1 true; Stopped e2 true].
Proof.
  intros Hno Hty Hi Hel.
  destruct (onClick_checkbox_without_handler w e1 i Hno Hty Hi Hel)
    as (w1 & Hrun1 & Hck1 & Hty1 & Hno1 & Hi1 & Hel1 & Htr1 & _).
  destruct (onClick_checkbox_without_handler w1 e2 i Hno1 Hty1 Hi1 Hel1)
    as (w2 & Hrun2 & Hck2 & _ & _ & _ & _ & Htr2 & Haria & Hrole & Hcls).
  exists w1, w2. split; [exact Hrun1|]. split; [exact Hrun2|].
  assert (Hback : checked (item (this w2))
                  = Some (Js.truthy_bool (checked (item (this w))))).
  { rewrite Hck2, Hck1. cbn [Js.truthy_bool].
    now destruct (Js.truthy_bool (checked (item (this w)))). }
  rewrite Haria, Hrole, Hcls, Hback, Htr2, Htr1, <- app_assoc.
  cbn [Js.truthy_bool].
  repeat split; try reflexivity;
    now destruct (Js.truthy_bool (checked (item (this w)))).
Qed.

Lemma onClick_twice_restores_checked_witness :
  exists w1 w2,
    onClick (H := sample_host) primary_click
      (rendered_or_bare (H := sample_host) minimap_item None) = Some w1
    /\ onClick (H := sample_host) primary_click w1 = Some w2
    /\ checked (item (this w1)) = Some true
    /\ checked (item (this w2)) = Some false
    /\ Dom.getAttribute 1 "aria-checked" (nodes w2) = Some "false".
Proof.
  destruct (onClick_twice_restores_checked (H := sample_host)
              (rendered_or_bare (H := sample_host) minimap_item None)
              primary_click primary_click 1)
    as (w1 & w2 & H1 & H2 & Hck & Haria & _).
  - vm_compute; reflexivity.
  - vm_compute; reflexivity.
  - vm_compute; reflexivity.
  - vm_compute; eauto.
  - exists w1, w2. split; [exact H1|]. split; [exact H2|].
    rewrite Hck, Haria. vm_compute in H1. injection H1 as <-.
    repeat split; vm_compute; reflexivity.
Defined.

(** ** Before [render] and after [dispose] *)

(** The instance that the constructor returns: every reference is
    [undefined], no style is stored, nothing is registered. *)
Lemma new_MenuItem_shape `{Host} it opts m :
  new_MenuItem it opts = Some m ->
  exists mn,
    m = {| options := default {| enableMnemonics := None |} opts;
           menuStyle := None; container := None; itemElement := None;
           item := it; labelElement := None; checkElement := None;
           mnemonic := mn; event := None;
           currentWindow := remote_getCurrentWindow; _toDispose := [] |}.
Proof.
  unfold new_MenuItem.
  destruct (_ && _); [|intros [= <-]; eauto].
  destruct (label it ≫= MENU_MNEMONIC_REGEX_exec) as [r|];
    [|intros [= <-]; eauto].
  destruct (selected_group r); [|discriminate]. intros [= <-]. eauto.
Qed.

(** X3. Before [render], on any document: [updateEnabled],
    [updateChecked] and [style] throw, [updateLabel] throws exactly when
    the item has a label with text, [updateTooltip] throws when there is a
    sublabel, and a click on a checkbox item throws; [focus], [blur] and
    [dispose] return and change nothing. *)
Theorem unrendered_instance_behaviour `{Host} it opts m d st e :
  new_MenuItem it opts = Some m ->
  updateEnabled (world_of m d) = None
  /\ updateChecked (world_of m d) = None
  /\ style st (world_of m d) = None
  /\ (Js.truthy_string (label it) = true -> updateLabel (world_of m d) = None)
  /\ (Js.truthy_string (label it) = false ->
      updateLabel (world_of m d) = Some (world_of m d))
  /\ (Js.truthy_string (sublabel it) = true ->
      updateTooltip (world_of m d) = None)
  /\ (type (item_after_click (world_of m d)) = Some checkbox ->
      onClick e (world_of m d) = None)
  /\ focus (world_of m d) = Some (world_of m d)
  /\ blur (world_of m d) = Some (world_of m d)
  /\ dispose (world_of m d) = Some (world_of m d).
Proof.
  intros Hnew. destruct (new_MenuItem_shape _ _ _ Hnew) as (mn & ->).
  split; [|split; [|split; [|split; [|split; [|split; [|split]]]]]].
  - unfold updateEnabled, world_of. cbn [this item enabled type].
    now destruct (_ && _).
  - unfold updateChecked, world_of. cbn [this item checked].
    now destruct (Js.truthy_bool _).
  - reflexivity.
  - intros Hl. unfold updateLabel, world_of. cbn [this item].
    destruct (label it) as [l0|]; [|discriminate]. now rewrite Hl.
  - intros Hl. unfold updateLabel, world_of. cbn [this item].
    destruct (label it) as [l0|]; [|reflexivity]. now rewrite Hl.
  - intros Hs. unfold updateTooltip, world_of. cbn [this item]. cbv zeta.
    rewrite Hs. destruct (sublabel it) as [t|]; [|discriminate].
    now rewrite Hs.
  - intros Hty. rewrite onClick_run. cbv zeta.
    rewrite (item_after_click_run _ e) in Hty.
    set (w2 := match click _ with Some _ => _ | None => _ end) in *.
    rewrite bool_decide_eq_true_2 by exact Hty.
    set (w3 := set_this _ w2).
    assert (Hi : itemElement (this w3) = None).
    { subst w3 w2. cbn [world_of this item]. now destruct (click it). }
    unfold updateChecked. destruct (Js.truthy_bool _); run_cmd; now rewrite Hi.
  - repeat split; reflexivity.
Qed.

Lemma unrendered_instance_behaviour_witness :
  updateEnabled (world_of
    (plain_instance word_wrap_item) one_div) = None.
Proof.
  apply (unrendered_instance_behaviour (H := sample_host) word_wrap_item None
           _ one_div dark_style primary_click).
  vm_compute. reflexivity.
Defined.

(** What [dispose] leaves of the instance. *)
Lemma dispose_fields (w : World) :
  exists w1,
    dispose w = Some w1
    /\ itemElement (this w1) = None
    /\ container (this w1) = container (this w)
    /\ checkElement (this w1) = checkElement (this w)
    /\ labelElement (this w1) = labelElement (this w)
    /\ item (this w1) = item (this w)
    /\ trace w1 = trace w
    /\ dom (nodes w1) = dom (nodes w).
Proof.
  unfold dispose, Disposable_dispose. run_cmd.
  assert (Hrel : forall (ds : list IDisposable) (d : gmap nat Dom.HTMLElement),
             dom (foldr (fun x acc =>
                           Dom.removeListener (listened_node x)
                             (listened_type x) (listened_by x) acc) d ds)
             = dom d).
  { intros ds d. induction ds as [|x ds IH]; [reflexivity|].
    cbn [foldr]. unfold Dom.removeListener at 1. now rewrite dom_alter_L. }
  destruct (itemElement (this w)) as [i|] eqn:Hi; world_simpl;
    eexists; (split; [reflexivity|]); world_simpl;
    cbn [itemElement container checkElement labelElement item
         set__toDispose set_itemElement _toDispose];
    repeat split; try assumption; rewrite Hrel; try reflexivity.
  unfold Dom.removeNode. destruct (nodes w !! i ≫= Dom.parentNode);
    [now rewrite !dom_alter_L | reflexivity].
Qed.

(** X4. After [dispose] the instance has lost its item element and keeps
    its container: [updateChecked] and [style] throw, [updateTooltip]
    throws when there is a sublabel, a click on a checkbox item throws,
    while [updateEnabled] still returns when there is a container. *)
Theorem disposed_instance_behaviour `{Host} (w : World) st e :
  exists w1,
    dispose w = Some w1
    /\ updateChecked w1 = None
    /\ style st w1 = None
    /\ (Js.truthy_string (sublabel (item (this w))) = true ->
        updateTooltip w1 = None)
    /\ (type (item_after_click w1) = Some checkbox -> onClick e w1 = None)
    /\ (is_Some (container (this w)) -> is_Some (updateEnabled w1)).
Proof.
  destruct (dispose_fields w)
    as (w1 & Hrun & Hi & Hc & Hk & _ & Hit & _ & _).
  exists w1. split; [exact Hrun|]. split; [|split; [|split; [|split]]].
  - unfold updateChecked. destruct (Js.truthy_bool _); run_cmd; now rewrite Hi.
  - unfold style, applyStyle. run_cmd. cbn [menuStyle set_menuStyle].
    run_cmd. cbn [checkElement itemElement set_menuStyle].
    destruct (checkElement (this w1)); [|reflexivity].
    world_simpl. cbn [itemElement set_menuStyle]. now rewrite Hi.
  - intros Hs. unfold updateTooltip. cbv zeta. rewrite Hit, Hs.
    destruct (sublabel (item (this w))); [|discriminate].
    rewrite Hs. run_cmd. now rewrite Hi.
  - intros Hty. rewrite onClick_run. cbv zeta.
    rewrite (item_after_click_run _ e) in Hty.
    set (w2 := match click _ with Some _ => _ | None => _ end) in *.
    rewrite bool_decide_eq_true_2 by exact Hty.
    set (w3 := set_this _ w2).
    assert (Hi2 : itemElement (this w3) = None).
    { subst w3 w2. now destruct (click (item (this w1))). }
    unfold updateChecked. destruct (Js.truthy_bool _); run_cmd; now rewrite Hi2.
  - intros Hcont. rewrite <- Hc in Hcont.
    apply updateEnabled_frame in Hcont as (w' & Hw' & _).
    rewrite Hw'. eauto.
Qed.

(** ** The mouse listeners *)

(** X5. On a rendered item the mouse-down listener marks the container
    [active] when the item is enabled and the primary button is down, and
    does nothing otherwise; the mouse-up and mouse-out listener records a
    stop that does not cancel bubbling and takes [active] away again; the
    double-click listener records a stop and touches nothing else. *)
Theorem mouse_listeners_toggle_active `{Host} (w : World) (e : EventLike) c :
  container (this w) = Some c ->
  is_Some (nodes w !! c) ->
  (Js.truthy_bool (enabled (item (this w))) = true -> button e = 0 ->
   exists w',
     run_listener activate_on_mouse_down e w = Some w'
     /\ Dom.hasClass c "active" (nodes w') = true
     /\ this w' = this w /\ trace w' = trace w)
  /\ (Js.truthy_bool (enabled (item (this w))) = false \/ button e <> 0 ->
      run_listener activate_on_mouse_down e w = Some w)
  /\ (exists w',
        run_listener deactivate e w = Some w'
        /\ Dom.hasClass c "active" (nodes w') = false
        /\ this w' = this w
        /\ trace w' = trace w ++ [Stopped e false])
  /\ (exists w',
        run_listener swallow_dblclick e w = Some w'
        /\ nodes w' = nodes w
        /\ this w' = this w
        /\ trace w' = trace w ++ [Stopped e true]).
Proof.
  intros Hc Hel. split; [|split; [|split]].
  - intros Hen Hb. cbn [run_listener]. rewrite Hc, Hen, Hb. cbn.
    eexists. split; [reflexivity|]. cbn [nodes set_nodes this trace].
    split; [now apply DomFacts.hasClass_addClass_eq|]. split; reflexivity.
  - intros Hoff. cbn [run_listener]. rewrite Hc.
    destruct Hoff as [-> | Hb]; [reflexivity|].
    apply Nat.eqb_neq in Hb. rewrite Hb. now rewrite andb_false_r.
  - cbn [run_listener]. run_cmd. run_with Hc.
    eexists. split; [reflexivity|]. world_simpl.
    split; [apply DomFacts.hasClass_removeClass_eq|]. split; reflexivity.
  - cbn [run_listener]. run_cmd. eexists. split; [reflexivity|].
    world_simpl. repeat split; reflexivity.
Qed.

Lemma mouse_listeners_toggle_active_witness :
  exists w' w'',
    run_listener (H := sample_host) activate_on_mouse_down primary_click
      (rendered_or_bare (H := sample_host) word_wrap_item None) = Some w'
    /\ Dom.hasClass 0 "active" (nodes w') = true
    /\ run_listener (H := sample_host) deactivate primary_click w' = Some w''
    /\ Dom.hasClass 0 "active" (nodes w'') = false.
Proof.
  destruct (mouse_listeners_toggle_active (H := sample_host)
              (rendered_or_bare (H := sample_host) word_wrap_item None)
              primary_click 0) as (Hdown & _ & _ & _).
  - vm_compute; reflexivity.
  - vm_compute; eauto.
  - destruct Hdown as (w' & Hrun & Hact & Hthis & _);
      [vm_compute; reflexivity | reflexivity |].
    destruct (mouse_listeners_toggle_active (H := sample_host) w'
                primary_click 0) as (_ & _ & (w'' & Hup & Hoff & _) & _).
    + rewrite Hthis. vm_compute; reflexivity.
    + vm_compute in Hrun. injection Hrun as <-. vm_compute; eauto.
    + exists w', w''. auto.
Defined.

(** ** [updateLabel] on a label without a marker *)

(** X6. For a label with text and no ampersand, whether or not mnemonics
    are enabled and whether or not there is an item element,
    [updateLabel] sets [aria-label] to the label and the markup of the
    label element to the trimmed label, and writes nothing else: no other
    element changes and no other attribute of the label element. *)
Theorem updateLabel_plain_label `{Host} (w : World) l label0 :
  label (item (this w)) = Some label0 ->
  label0 <> EmptyString ->
  has_amp label0 = false ->
  labelElement (this w) = Some l ->
  is_Some (nodes w !! l) ->
  exists w',
    updateLabel w = Some w'
    /\ this w' = this w
    /\ trace w' = trace w
    /\ Dom.getAttribute l "aria-label" (nodes w') = Some label0
    /\ nodes w' !! l ≫= Dom.innerHTML = Some (Js.trim label0)
    /\ (forall n, n <> l -> nodes w' !! n = nodes w !! n)
    /\ (forall k, k <> "aria-label" ->
        Dom.getAttribute l k (nodes w') = Dom.getAttribute l k (nodes w)).
Proof.
  intros Hlab Hne Hamp Hl [el Hel]. unfold updateLabel. rewrite Hlab.
  assert (Ht : Js.truthy_string (Some label0) = true)
    by (destruct label0; [contradiction|reflexivity]).
  rewrite Ht. cbv zeta. rewrite (cleanMnemonic_no_amp _ Hamp).
  assert (Hsame : (if negb (Js.truthy_bool (enableMnemonics (options (this w))))
                   then label0 else label0) = label0)
    by now destruct (negb _).
  rewrite Hsame. unfold MENU_MNEMONIC_REGEX_exec.
  rewrite (exec_at_no_amp _ 0 Hamp). run_cmd. run_with Hl.
  eexists. split; [reflexivity|]. world_simpl.
  split; [reflexivity|]. split; [reflexivity|]. split; [|split; [|split]].
  - rewrite DomFacts.getAttribute_alter_frame by reflexivity.
    apply DomFacts.getAttribute_setAttribute_eq. eauto.
  - unfold Dom.setAttribute. rewrite !lookup_alter_eq, Hel. reflexivity.
  - intros n Hn. unfold Dom.setAttribute. now rewrite !lookup_alter_ne.
  - intros k Hk. rewrite DomFacts.getAttribute_alter_frame by reflexivity.
    apply DomFacts.getAttribute_setAttribute_ne. right. congruence.
Qed.

Lemma updateLabel_plain_label_witness :
  exists w',
    updateLabel (H := sample_host)
      (rendered_or_bare (H := sample_host) tooltip_item mnemonics_on) = Some w'
    /\ Dom.getAttribute 3 "aria-label" (nodes w') = Some "Zoom"
    /\ nodes w' !! 3 ≫= Dom.innerHTML = Some "Zoom".
Proof.
  destruct (updateLabel_plain_label (H := sample_host)
              (rendered_or_bare (H := sample_host) tooltip_item mnemonics_on)
              3 "Zoom") as (w' & Hrun & _ & _ & Haria & Hhtml & _).
  - vm_compute; reflexivity.
  - discriminate.
  - vm_compute; reflexivity.
  - vm_compute; reflexivity.
  - vm_compute; eauto.
  - exists w'. rewrite Haria, Hhtml. auto.
Defined.

(** ** [focus] and [blur] *)

Lemma chosen_colour_unfocused (selection base : option Color) :
  chosen_colour false selection base = base.
Proof. now destruct selection. Qed.

(** X7. On a rendered item with a stored style, [focus] records the
    focus call on the container, marks it [focused] and repaints with the
    selection colours where the style has them; [blur] records the blur
    call, takes the mark away and repaints with the base colours. *)
Theorem focus_blur_repaint (w : World) st c i k :
  menuStyle (this w) = Some st ->
  container (this w) = Some c ->
  itemElement (this w) = Some i ->
  checkElement (this w) = Some k ->
  i <> k ->
  is_Some (nodes w !! c) ->
  is_Some (nodes w !! i) ->
  is_Some (nodes w !! k) ->
  (exists w',
      focus w = Some w'
      /\ this w' = this w
      /\ trace w' = trace w ++ [FocusCalled c]
      /\ is_focused w' = true
      /\ Dom.getStyle k "backgroundColor" (nodes w')
         = Color_toString <$> chosen_colour true (selectionForegroundColor st)
                                (foregroundColor st)
      /\ Dom.getStyle i "color" (nodes w')
         = Color_toString <$> chosen_colour true (selectionForegroundColor st)
                                (foregroundColor st)
      /\ Dom.getStyle i "backgroundColor" (nodes w')
         = Color_toString <$> chosen_colour true (selectionBackgroundColor st)
                                (backgroundColor st))
  /\ (exists w',
         blur w = Some w'
         /\ this w' = this w
         /\ trace w' = trace w ++ [BlurCalled c]
         /\ is_focused w' = false
         /\ Dom.getStyle k "backgroundColor" (nodes w')
            = Color_toString <$> foregroundColor st
         /\ Dom.getStyle i "color" (nodes w')
            = Color_toString <$> foregroundColor st
         /\ Dom.getStyle i "backgroundColor" (nodes w')
            = Color_toString <$> backgroundColor st).
Proof.
  intros Hst Hc Hi Hk Hne Helc Heli Helk.
  assert (Hpaint : forall (d : gmap nat Dom.HTMLElement) fg bg,
             is_Some (d !! i) -> is_Some (d !! k) ->
             let d' := Dom.setStyle i "backgroundColor" bg
                         (Dom.setStyle i "color" fg
                            (Dom.setStyle k "backgroundColor" fg d)) in
             Dom.getStyle k "backgroundColor" d' = fg
             /\ Dom.getStyle i "color" d' = fg
             /\ Dom.getStyle i "backgroundColor" d' = bg
             /\ forall n cls, Dom.hasClass n cls d' = Dom.hasClass n cls d).
  { intros d fg bg Hdi Hdk d'. subst d'. split; [|split; [|split]].
    - rewrite !DomFacts.getStyle_setStyle_ne by (left; exact Hne).
      now apply DomFacts.getStyle_setStyle_eq.
    - rewrite DomFacts.getStyle_setStyle_ne by (right; discriminate).
      apply DomFacts.getStyle_setStyle_eq. now apply DomFacts.is_Some_alter.
    - apply DomFacts.getStyle_setStyle_eq.
      now apply DomFacts.is_Some_alter, DomFacts.is_Some_alter.
    - intros n cls. unfold Dom.setStyle.
      now rewrite !DomFacts.hasClass_alter_frame by reflexivity. }
  split.
  - unfold focus. run_cmd. rewrite Hc. world_simpl.
    set (w1 := set_nodes _ _).
    assert (Hf1 : is_focused w1 = true).
    { unfold is_focused. subst w1. cbn [this set_nodes emit nodes]. rewrite Hc.
      now apply DomFacts.hasClass_addClass_eq. }
    rewrite (applyStyle_run w1 st i k Hst Hi Hk), Hf1.
    eexists. split; [reflexivity|]. cbn [this trace nodes set_nodes].
    split; [reflexivity|]. split; [reflexivity|].
    destruct (Hpaint (nodes w1)
                (Color_toString <$> chosen_colour true
                   (selectionForegroundColor st) (foregroundColor st))
                (Color_toString <$> chosen_colour true
                   (selectionBackgroundColor st) (backgroundColor st)))
      as (P1 & P2 & P3 & P4).
    { subst w1. cbn [nodes set_nodes emit]. now apply DomFacts.is_Some_alter. }
    { subst w1. cbn [nodes set_nodes emit]. now apply DomFacts.is_Some_alter. }
    split; [|auto].
    unfold is_focused. cbn [this nodes set_nodes]. change (this w1) with (this w).
    rewrite Hc, P4. subst w1. cbn [nodes set_nodes emit].
    now apply DomFacts.hasClass_addClass_eq.
  - unfold blur. run_cmd. rewrite Hc. world_simpl.
    set (w1 := set_nodes _ _).
    assert (Hf1 : is_focused w1 = false).
    { unfold is_focused. subst w1. cbn [this set_nodes emit nodes]. rewrite Hc.
      apply DomFacts.hasClass_removeClass_eq. }
    rewrite (applyStyle_run w1 st i k Hst Hi Hk), Hf1.
    rewrite !chosen_colour_unfocused.
    eexists. split; [reflexivity|]. cbn [this trace nodes set_nodes].
    split; [reflexivity|]. split; [reflexivity|].
    destruct (Hpaint (nodes w1) (Color_toString <$> foregroundColor st)
                (Color_toString <$> backgroundColor st))
      as (P1 & P2 & P3 & P4).
    { subst w1. cbn [nodes set_nodes emit]. now apply DomFacts.is_Some_alter. }
    { subst w1. cbn [nodes set_nodes emit]. now apply DomFacts.is_Some_alter. }
    split; [|auto].
    unfold is_focused. cbn [this nodes set_nodes]. change (this w1) with (this w).
    rewrite Hc, P4. subst w1. cbn [nodes set_nodes emit].
    apply DomFacts.hasClass_removeClass_eq.
Qed.

Lemma focus_blur_repaint_witness :
  exists w' w'',
    focus styled_world = Some w'
    /\ Dom.getStyle 1 "color" (nodes w') = Some "#ffffff"
    /\ blur w' = Some w''
    /\ Dom.getStyle 1 "color" (nodes w'') = Some "#cccccc".
Proof.
  destruct (focus_blur_repaint styled_world dark_style 0 1 2)
    as ((w' & Hf & Hthis & _ & _ & _ & Hcol & _) & _).
  - vm_compute; reflexivity.
  - vm_compute; reflexivity.
  - vm_compute; reflexivity.
  - vm_compute; reflexivity.
  - discriminate.
  - vm_compute; eauto.
  - vm_compute; eauto.
  - vm_compute; eauto.
  - assert (Hw' : w' = default styled_world (focus styled_world))
      by now rewrite Hf.
    destruct (focus_blur_repaint w' dark_style 0 1 2)
      as (_ & (w'' & Hb & _ & _ & _ & _ & Hcol' & _)).
    + rewrite Hthis. vm_compute; reflexivity.
    + rewrite Hthis. vm_compute; reflexivity.
    + rewrite Hthis. vm_compute; reflexivity.
    + rewrite Hthis. vm_compute; reflexivity.
    + discriminate.
    + rewrite Hw'. vm_compute; eauto.
    + rewrite Hw'. vm_compute; eauto.
    + rewrite Hw'. vm_compute; eauto.
    + exists w', w''. rewrite Hcol, Hcol'. repeat split; assumption.
Defined.

(** ** Refreshing twice *)

(** Writing the same attributes, classes and properties again changes
    nothing: the element-level facts behind the idempotence of the refresh
    methods. *)
Lemma addClass_twice n name (d : gmap nat Dom.HTMLElement) :
  Dom.addClass n name (Dom.addClass n name d) = Dom.addClass n name d.
Proof.
  unfold Dom.addClass. rewrite alter_alter_eq. apply alter_ext.
  intros el _. unfold compose, Dom.with_classList. cbn. f_equal.
  destruct (decide (name ∈ Dom.classList el)) as [Hin|Hout].
  - now rewrite decide_True by exact Hin.
  - rewrite decide_True; [reflexivity|].
    apply elem_of_app. right. now apply list_elem_of_singleton.
Qed.

Lemma removeClass_twice n name (d : gmap nat Dom.HTMLElement) :
  Dom.removeClass n name (Dom.removeClass n name d) = Dom.removeClass n name d.
Proof.
  unfold Dom.removeClass. rewrite alter_alter_eq. apply alter_ext.
  intros el _. unfold compose, Dom.with_classList. cbn. f_equal.
  induction (Dom.classList el) as [|x l IH]; [reflexivity|].
  rewrite filter_cons. destruct (decide (x <> name)) as [Hx|Hx].
  - rewrite filter_cons, decide_True by exact Hx. now rewrite IH.
  - exact IH.
Qed.

Lemma setAttribute_twice n k v (d : gmap nat Dom.HTMLElement) :
  Dom.setAttribute n k v (Dom.setAttribute n k v d) = Dom.setAttribute n k v d.
Proof.
  unfold Dom.setAttribute. rewrite alter_alter_eq. apply alter_ext.
  intros el _. unfold compose, Dom.with_attributes. cbn. f_equal.
  apply insert_insert_eq.
Qed.

(** Two writes commute when they go to different elements, or to
    different parts of one element. *)
Lemma setAttribute_commute n n' k k' v v' (d : gmap nat Dom.HTMLElement) :
  n <> n' \/ k <> k' ->
  Dom.setAttribute n k v (Dom.setAttribute n' k' v' d)
  = Dom.setAttribute n' k' v' (Dom.setAttribute n k v d).
Proof.
  intros Hne. unfold Dom.setAttribute.
  destruct (decide (n = n')) as [<-|Hn].
  - rewrite !alter_alter_eq. apply alter_ext. intros el _.
    unfold compose, Dom.with_attributes. cbn. f_equal.
    apply insert_insert_ne. intuition.
  - now apply alter_alter_ne.
Qed.

Lemma setAttribute_addClass_commute n n' k v name (d : gmap nat Dom.HTMLElement) :
  Dom.setAttribute n k v (Dom.addClass n' name d)
  = Dom.addClass n' name (Dom.setAttribute n k v d).
Proof.
  unfold Dom.setAttribute, Dom.addClass.
  destruct (decide (n = n')) as [<-|Hn].
  - rewrite !alter_alter_eq. now apply alter_ext.
  - now apply alter_alter_ne.
Qed.

Lemma setAttribute_removeClass_commute n n' k v name
  (d : gmap nat Dom.HTMLElement) :
  Dom.setAttribute n k v (Dom.removeClass n' name d)
  = Dom.removeClass n' name (Dom.setAttribute n k v d).
Proof.
  unfold Dom.setAttribute, Dom.removeClass.
  destruct (decide (n = n')) as [<-|Hn].
  - rewrite !alter_alter_eq. now apply alter_ext.
  - now apply alter_alter_ne.
Qed.

Lemma setAttribute_innerHTML_commute n n' k v h (d : gmap nat Dom.HTMLElement) :
  Dom.setAttribute n k v (alter (Dom.with_innerHTML h) n' d)
  = alter (Dom.with_innerHTML h) n' (Dom.setAttribute n k v d).
Proof.
  unfold Dom.setAttribute.
  destruct (decide (n = n')) as [<-|Hn].
  - rewrite !alter_alter_eq. now apply alter_ext.
  - now apply alter_alter_ne.
Qed.

Lemma innerHTML_twice n h (d : gmap nat Dom.HTMLElement) :
  alter (Dom.with_innerHTML h) n (alter (Dom.with_innerHTML h) n d)
  = alter (Dom.with_innerHTML h) n d.
Proof. rewrite alter_alter_eq. now apply alter_ext. Qed.

Lemma tabIndex_twice n t (d : gmap nat Dom.HTMLElement) :
  alter (Dom.with_tabIndex t) n (alter (Dom.with_tabIndex t) n d)
  = alter (Dom.with_tabIndex t) n d.
Proof. rewrite alter_alter_eq. now apply alter_ext. Qed.

Lemma removeClass_tabIndex_commute n name t (d : gmap nat Dom.HTMLElement) :
  Dom.removeClass n name (alter (Dom.with_tabIndex t) n d)
  = alter (Dom.with_tabIndex t) n (Dom.removeClass n name d).
Proof.
  unfold Dom.removeClass. rewrite !alter_alter_eq. now apply alter_ext.
Qed.

(** [updateEnabled] and [updateTooltip] in one step. *)
Lemma updateEnabled_run (w : World) c :
  container (this w) = Some c ->
  updateEnabled w =
  Some (set_nodes
          (fun d =>
             if Js.truthy_bool (enabled (item (this w)))
                && negb (bool_decide (type (item (this w)) = Some separator))
             then alter (Dom.with_tabIndex (Some 0%Z)) c
                    (Dom.removeClass c "disabled" d)
             else Dom.addClass c "disabled" d) w).
Proof.
  intros Hc. unfold updateEnabled.
  destruct (_ && _); run_cmd; run_with Hc; reflexivity.
Qed.

Lemma updateTooltip_run (w : World) i t :
  sublabel (item (this w)) = Some t ->
  Js.truthy_string (Some t) = true ->
  itemElement (this w) = Some i ->
  updateTooltip w = Some (set_nodes (Dom.setAttribute i "title" t) w).
Proof.
  intros Ht Hs Hi. unfold updateTooltip. cbv zeta. rewrite Ht, Hs, Hs.
  run_cmd. now rewrite Hi.
Qed.

Lemma updateEnabled_needs_container (w : World) :
  container (this w) = None -> updateEnabled w = None.
Proof.
  intros Hc. unfold updateEnabled. destruct (_ && _); run_cmd; now rewrite Hc.
Qed.

Lemma updateChecked_needs_item_element (w : World) :
  itemElement (this w) = None -> updateChecked w = None.
Proof.
  intros Hi. unfold updateChecked.
  destruct (Js.truthy_bool _); run_cmd; now rewrite Hi.
Qed.

(** [updateLabel] in one step, for a label with text and a label element,
    whatever the item element is. *)
Lemma updateLabel_run_any `{Host} (w : World) l label0 :
  label (item (this w)) = Some label0 ->
  label0 <> EmptyString ->
  labelElement (this w) = Some l ->
  let cleanLabel := cleanMnemonic label0 in
  let label1 :=
    if negb (Js.truthy_bool (enableMnemonics (options (this w))))
    then cleanLabel else label0 in
  updateLabel w =
  match MENU_MNEMONIC_REGEX_exec label1 with
  | Some r =>
      i ← itemElement (this w);
      g ← selected_group r;
      Some (set_nodes
              (fun d =>
                 alter (Dom.with_innerHTML
                          (Some (Js.trim (replace_escaped_mnemonic
                                            (Js.escape label1))))) l
                   (Dom.setAttribute i "aria-keyshortcuts" (toLocaleLowerCase g)
                      (Dom.setAttribute l "aria-label" cleanLabel d))) w)
  | None =>
      Some (set_nodes
              (fun d =>
                 alter (Dom.with_innerHTML (Some (Js.trim label1))) l
                   (Dom.setAttribute l "aria-label" cleanLabel d)) w)
  end.
Proof.
  intros Hlab Hne Hl. cbv zeta. unfold updateLabel. rewrite Hlab.
  assert (Ht : Js.truthy_string (Some label0) = true)
    by (destruct label0; [contradiction|reflexivity]).
  rewrite Ht. cbv zeta.
  destruct (MENU_MNEMONIC_REGEX_exec _) as [r|]; run_cmd; run_with Hl;
    [|reflexivity].
  destruct (itemElement (this w)) as [i|]; [|reflexivity].
  cbn [mbind option_bind].
  destruct (selected_group r); world_simpl; [|reflexivity].
  run_with Hl. reflexivity.
Qed.

(** X8. Each refresh method is idempotent: when [updateLabel],
    [updateTooltip], [updateEnabled] or [updateChecked] returns, calling it
    again returns the same world. *)
Theorem refresh_methods_idempotent `{Host} (w w1 : World) :
  (updateLabel w = Some w1 -> updateLabel w1 = Some w1)
  /\ (updateTooltip w = Some w1 -> updateTooltip w1 = Some w1)
  /\ (updateEnabled w = Some w1 -> updateEnabled w1 = Some w1)
  /\ (updateChecked w = Some w1 -> updateChecked w1 = Some w1).
Proof.
  split; [|split; [|split]].
  - destruct (label (item (this w))) as [label0|] eqn:Hlab.
    2:{ unfold updateLabel at 1. rewrite Hlab. intros [= <-].
        unfold updateLabel. now rewrite Hlab. }
    destruct (decide (label0 = EmptyString)) as [->|Hne].
    { unfold updateLabel at 1. rewrite Hlab. cbn. intros [= <-].
      unfold updateLabel. now rewrite Hlab. }
    destruct (labelElement (this w)) as [l|] eqn:Hl.
    2:{ unfold updateLabel. rewrite Hlab.
        assert (Ht : Js.truthy_string (Some label0) = true)
          by (destruct label0; [contradiction|reflexivity]).
        rewrite Ht. cbv zeta. run_cmd. now rewrite Hl. }
    rewrite (updateLabel_run_any w l label0 Hlab Hne Hl). cbv zeta.
    destruct (MENU_MNEMONIC_REGEX_exec _) as [r|] eqn:Hr.
    + destruct (itemElement (this w)) as [i|] eqn:Hi; [|discriminate].
      cbn [mbind option_bind].
      destruct (selected_group r) as [g|] eqn:Hg; [|discriminate].
      cbn [mbind option_bind]. intros [= <-].
      match goal with |- updateLabel ?W = _ =>
        rewrite (updateLabel_run_any W l label0 Hlab Hne Hl) end. cbv zeta.
      cbn [this set_nodes]. rewrite Hr, Hi. cbn [mbind option_bind].
      rewrite Hg. cbn [mbind option_bind]. f_equal.
      unfold set_nodes. cbn [this nodes trace]. f_equal.
      rewrite <- !setAttribute_innerHTML_commute.
      rewrite innerHTML_twice.
      rewrite (setAttribute_commute l i "aria-label" "aria-keyshortcuts")
        by (right; discriminate).
      now rewrite !setAttribute_twice.
    + intros [= <-].
      match goal with |- updateLabel ?W = _ =>
        rewrite (updateLabel_run_any W l label0 Hlab Hne Hl) end. cbv zeta.
      cbn [this set_nodes]. rewrite Hr. f_equal.
      unfold set_nodes. cbn [this nodes trace]. f_equal.
      rewrite <- !setAttribute_innerHTML_commute.
      now rewrite innerHTML_twice, setAttribute_twice.
  - destruct (Js.truthy_string (sublabel (item (this w)))) eqn:Hs.
    + destruct (sublabel (item (this w))) as [t|] eqn:Ht; [|discriminate].
      destruct (itemElement (this w)) as [i|] eqn:Hi.
      * rewrite (updateTooltip_run w i t Ht Hs Hi). intros [= <-].
        match goal with |- updateTooltip ?W = _ =>
          rewrite (updateTooltip_run W i t Ht Hs Hi) end.
        cbn [this set_nodes]. f_equal.
        unfold set_nodes. cbn [this nodes trace]. f_equal.
        apply setAttribute_twice.
      * unfold updateTooltip. cbv zeta. rewrite Ht, Hs, Hs.
        run_cmd. now rewrite Hi.
    + rewrite (updateTooltip_without_sublabel w Hs). intros [= <-].
      now apply updateTooltip_without_sublabel.
  - destruct (container (this w)) as [c|] eqn:Hc.
    + rewrite (updateEnabled_run w c Hc). intros [= <-].
      match goal with |- updateEnabled ?W = _ =>
        rewrite (updateEnabled_run W c Hc) end. cbn [this set_nodes]. f_equal.
      unfold set_nodes. cbn [this nodes trace]. f_equal.
      destruct (_ && _).
      * rewrite removeClass_tabIndex_commute, tabIndex_twice.
        now rewrite removeClass_twice.
      * apply addClass_twice.
    + now rewrite (updateEnabled_needs_container w Hc).
  - destruct (itemElement (this w)) as [i|] eqn:Hi.
    + rewrite (updateChecked_run w i Hi). intros [= <-].
      match goal with |- updateChecked ?W = _ =>
        rewrite (updateChecked_run W i Hi) end. cbn [this set_nodes]. f_equal.
      unfold set_nodes. cbn [this nodes trace]. f_equal.
      destruct (Js.truthy_bool _).
      * rewrite <- !setAttribute_addClass_commute, addClass_twice.
        rewrite (setAttribute_commute i i "role" "aria-checked")
          by (right; discriminate).
        now rewrite !setAttribute_twice.
      * rewrite <- !setAttribute_removeClass_commute, removeClass_twice.
        rewrite (setAttribute_commute i i "role" "aria-checked")
          by (right; discriminate).
        now rewrite !setAttribute_twice.
    + now rewrite (updateChecked_needs_item_element w Hi).
Qed.

Lemma refresh_methods_idempotent_witness :
  exists w1,
    updateLabel (H := sample_host)
      (rendered_or_bare (H := sample_host) word_wrap_item mnemonics_on)
    = Some w1
    /\ updateLabel (H := sample_host) w1 = Some w1.
Proof.
  exists (default (rendered_or_bare (H := sample_host) word_wrap_item mnemonics_on)
            (updateLabel (H := sample_host)
               (rendered_or_bare (H := sample_host) word_wrap_item
                  mnemonics_on))).
  split; [vm_compute; reflexivity|].
  apply (proj1 (refresh_methods_idempotent (H := sample_host)
                  (rendered_or_bare (H := sample_host) word_wrap_item
                     mnemonics_on) _)).
  vm_compute; reflexivity.
Defined.

(** ** The tree that [render] builds *)

(** What [append_new] does to a document that holds the parent. *)
Lemma append_new_lookups p tag cls (d : gmap nat Dom.HTMLElement) :
  p ∈ dom d ->
  let n := fst (Dom.append_new p tag cls d) in
  let d' := snd (Dom.append_new p tag cls d) in
  (n ∉ dom d)
  /\ n <> p
  /\ dom d' = {[n]} ∪ dom d
  /\ d' !! n = Some (Dom.with_parentNode (Some p) (Dom.create tag cls))
  /\ d' !! p = (Dom.with_childNodes (fun l => l ++ [n]) <$> (d !! p))
  /\ (forall m, m <> n -> m <> p -> d' !! m = d !! m).
Proof.
  intros Hp n d'. subst n d'. cbn [fst snd Dom.append_new].
  pose proof (is_fresh (dom d)) as Hfresh.
  set (n := fresh (dom d)) in *.
  assert (Hnp : n <> p) by (intros ->; contradiction).
  split; [exact Hfresh|]. split; [exact Hnp|].
  split; [now rewrite dom_alter_L, dom_insert_L|]. split; [|split].
  - rewrite lookup_alter_ne by congruence. apply lookup_insert_eq.
  - rewrite lookup_alter_eq. now rewrite lookup_insert_ne by exact Hnp.
  - intros m Hmn Hmp. rewrite lookup_alter_ne by congruence.
    now rewrite lookup_insert_ne by congruence.
Qed.

Lemma setAttribute_lookup_ne n m k v (d : gmap nat Dom.HTMLElement) :
  n <> m -> Dom.setAttribute n k v d !! m = d !! m.
Proof. intros Hne. unfold Dom.setAttribute. now rewrite lookup_alter_ne. Qed.

Lemma setAttribute_lookup_eq n k v (d : gmap nat Dom.HTMLElement) :
  Dom.setAttribute n k v d !! n
  = (Dom.with_attributes (insert k v) <$> (d !! n)).
Proof. unfold Dom.setAttribute. apply lookup_alter_eq. Qed.

Lemma setAttribute_dom n k v (d : gmap nat Dom.HTMLElement) :
  dom (Dom.setAttribute n k v d) = dom d.
Proof. unfold Dom.setAttribute. apply dom_alter_L. Qed.

Lemma addListener_lookup_eq n ty l (d : gmap nat Dom.HTMLElement) :
  Dom.addListener n ty l d !! n
  = (Dom.with_listeners (fun ls => ls ++ [(ty, l)]) <$> (d !! n)).
Proof. unfold Dom.addListener. apply lookup_alter_eq. Qed.

Lemma addListener_lookup_ne n m ty l (d : gmap nat Dom.HTMLElement) :
  n <> m -> Dom.addListener n ty l d !! m = d !! m.
Proof. intros Hne. unfold Dom.addListener. now rewrite lookup_alter_ne. Qed.

(** The world in which [render] starts its refresh calls: the references
    are assigned, the listeners registered, and the elements appended in
    the order check indicator, label, accelerator text. *)
Lemma render_stages `{Host} (w : World) c elc :
  nodes w !! c = Some elc ->
  exists W i k l bs,
    render c w = refresh W
    /\ container (this W) = Some c
    /\ itemElement (this W) = Some i
    /\ checkElement (this W) = Some k
    /\ labelElement (this W) = Some l
    /\ item (this W) = item (this w)
    /\ options (this W) = options (this w)
    /\ mnemonic (this W) = mnemonic (this w)
    /\ menuStyle (this W) = menuStyle (this w)
    /\ _toDispose (this W) = _toDispose (this w) ++ render_disposables c
    /\ trace W = trace w
    /\ NoDup (c :: i :: k :: l :: bs)
    /\ (forall n, n ∈ i :: k :: l :: bs -> n ∉ dom (nodes w))
    /\ dom (nodes W) = list_to_set (i :: k :: l :: bs) ∪ dom (nodes w)
    /\ skeleton <$> (nodes W !! c)
       = Some (Dom.tagName elc, Dom.childNodes elc ++ [i], Dom.parentNode elc,
               Dom.listeners elc ++ render_listeners, Dom.textContent elc)
    /\ Dom.classList <$> (nodes W !! c) = Some (Dom.classList elc)
    /\ Dom.tabIndex <$> (nodes W !! c) = Some (Dom.tabIndex elc)
    /\ skeleton <$> (nodes W !! i) = Some ("a", k :: l :: bs, Some c, [], None)
    /\ Dom.classList <$> (nodes W !! i) = Some ["action-menu-item"]
    /\ Dom.attributes <$> (nodes W !! i)
       = Some (match mnemonic (this w) with
                | Some (S km) =>
                    <["aria-keyshortcuts" := Js.string_of_nat (S km)]>
                      (<["role" := "menuitem"]> ∅)
                | _ => <["role" := "menuitem"]> ∅
                end)
    /\ nodes W !! k
       = Some (Dom.with_attributes (insert "role" "none")
                 (Dom.with_parentNode (Some i)
                    (Dom.create "span" "menu-item-check")))
    /\ nodes W !! l
       = Some (Dom.with_parentNode (Some i) (Dom.create "span" "action-label"))
    /\ (if has_keybinding (item (this w))
        then exists b,
               bs = [b]
               /\ nodes W !! b
                  = Some (Dom.with_textContent (accelerator (item (this w)))
                            (Dom.with_parentNode (Some i)
                               (Dom.create "span" "keybinding")))
        else bs = [])
    /\ (forall n, n ∈ dom (nodes w) -> n <> c -> nodes W !! n = nodes w !! n).
Proof.
  intros Helc.
  assert (Hc : c ∈ dom (nodes w)) by (apply elem_of_dom; eauto).
  unfold render, refresh.
  do 8 step.
  set (d0 := Dom.addListener c MOUSE_OUT _ _).
  assert (Hd0 : dom d0 = dom (nodes w)).
  { subst d0. unfold Dom.addListener. now rewrite !dom_alter_L. }
  assert (Hd0c : d0 !! c
                 = Some (Dom.with_listeners (fun ls => ls ++ render_listeners)
                           elc)).
  { subst d0. rewrite !addListener_lookup_eq, Helc. cbn.
    unfold Dom.with_listeners. cbn. f_equal. f_equal.
    now rewrite <- !app_assoc. }
  assert (Hd0o : forall n, n <> c -> d0 !! n = nodes w !! n).
  { intros n Hn. subst d0. now rewrite !addListener_lookup_ne by congruence. }
  rewrite <- Hd0 in Hc.
  destruct (append_new_lookups c "a" "action-menu-item" d0 Hc)
    as (Hi1 & Hi2 & Hi3 & Hi4 & Hi5 & Hi6).
  set (ri := Dom.append_new c "a" "action-menu-item" d0) in *.
  clearbody ri. clearbody d0.
  pose (G := fun d : gmap nat Dom.HTMLElement =>
              match mnemonic (this w) with
              | Some (S km) =>
                  Dom.setAttribute (fst ri) "aria-keyshortcuts"
                    (Js.string_of_nat (S km)) d
              | _ => d
              end).
  match goal with
  | |- exists W i k l bs, seq ?cmd _ ?W1 = _ /\ _ =>
      assert (HG : cmd W1 = Some (set_nodes G W1))
        by (subst G; fields_simpl;
            destruct (mnemonic (this w)) as [[|km]|]; cbn [Js.truthy_nat];
            unfold deref, on_nodes, lift; fields_simpl; reflexivity);
      rewrite (seq_Some _ _ _ _ HG); clear HG
  end.
  assert (HGdom : forall d, dom (G d) = dom d).
  { intros d. subst G. cbv beta.
    destruct (mnemonic (this w)) as [[|km]|]; try reflexivity.
    apply setAttribute_dom. }
  assert (HGne : forall d n, n <> fst ri -> G d !! n = d !! n).
  { intros d n Hn. subst G. cbv beta.
    destruct (mnemonic (this w)) as [[|km]|]; try reflexivity.
    now apply setAttribute_lookup_ne. }
  assert (HGeq : forall d, skeleton <$> (G d !! fst ri) = skeleton <$> (d !! fst ri)
                           /\ Dom.classList <$> (G d !! fst ri)
                              = Dom.classList <$> (d !! fst ri)
                           /\ Dom.attributes <$> (G d !! fst ri)
                              = (fun a : gmap string string =>
                                   match mnemonic (this w) with
                                   | Some (S km) =>
                                       <["aria-keyshortcuts"
                                         := Js.string_of_nat (S km)]> a
                                   | _ => a
                                   end) <$> (Dom.attributes <$> (d !! fst ri))).
  { intros d. subst G. cbv beta.
    destruct (mnemonic (this w)) as [[|km]|];
      try (repeat split; now destruct (d !! fst ri)).
    rewrite setAttribute_lookup_eq. now destruct (d !! fst ri). }
  clearbody G.
  do 3 step.
  (* the check indicator *)
  match goal with
  | |- context [Dom.append_new (fst ri) "span" "menu-item-check" ?d] =>
      set (d1 := d)
  end.
  assert (Hd1dom : dom d1 = {[fst ri]} ∪ dom d0)
    by (subst d1; now rewrite HGdom, setAttribute_dom).
  assert (Hd1ne : forall n, n <> fst ri -> d1 !! n = snd ri !! n)
    by (intros n Hn; subst d1;
        now rewrite HGne, setAttribute_lookup_ne by congruence).
  assert (Hd1eq : skeleton <$> (d1 !! fst ri)
                  = Some ("a", [], Some c, [], None)
                  /\ Dom.classList <$> (d1 !! fst ri)
                     = Some ["action-menu-item"]
                  /\ Dom.attributes <$> (d1 !! fst ri)
                     = Some (match mnemonic (this w) with
                | Some (S km) =>
                    <["aria-keyshortcuts" := Js.string_of_nat (S km)]>
                      (<["role" := "menuitem"]> ∅)
                | _ => <["role" := "menuitem"]> ∅
                end)).
  { subst d1. destruct (HGeq (Dom.setAttribute (fst ri) "role" "menuitem"
                                (snd ri))) as (-> & -> & ->).
    rewrite setAttribute_lookup_eq, Hi4.
    split; [reflexivity|]. split; [reflexivity|].
    cbn. now destruct (mnemonic (this w)) as [[|km]|]. }
  assert (Hd1i : fst ri ∈ dom d1)
    by (rewrite Hd1dom; apply elem_of_union_l; now apply elem_of_singleton).
  destruct (append_new_lookups (fst ri) "span" "menu-item-check" d1 Hd1i)
    as (Hk1 & Hk2 & Hk3 & Hk4 & Hk5 & Hk6).
  set (rk := Dom.append_new (fst ri) "span" "menu-item-check" d1) in *.
  clearbody rk. clearbody d1. clear HGdom HGne HGeq.
  (* the label *)
  match goal with
  | |- context [Dom.append_new (fst ri) "span" "action-label" ?d] =>
      set (d2 := d)
  end.
  assert (Hd2dom : dom d2 = dom (snd rk))
    by (subst d2; apply setAttribute_dom).
  assert (Hd2ne : forall n, n <> fst rk -> d2 !! n = snd rk !! n)
    by (intros n Hn; subst d2; now rewrite setAttribute_lookup_ne by congruence).
  assert (Hd2eq : d2 !! fst rk
                  = Some (Dom.with_attributes (insert "role" "none")
                            (Dom.with_parentNode (Some (fst ri))
                               (Dom.create "span" "menu-item-check"))))
    by (subst d2; now rewrite setAttribute_lookup_eq, Hk4).
  assert (Hd2i : fst ri ∈ dom d2).
  { rewrite Hd2dom, Hk3. apply elem_of_union_r. exact Hd1i. }
  destruct (append_new_lookups (fst ri) "span" "action-label" d2 Hd2i)
    as (Hl1 & Hl2 & Hl3 & Hl4 & Hl5 & Hl6).
  set (rl := Dom.append_new (fst ri) "span" "action-label" d2) in *.
  clearbody rl. clearbody d2.
  (* the accelerator text *)
  pose (B := fun d : gmap nat Dom.HTMLElement =>
              if has_keybinding (item (this w)) then
                alter (Dom.with_textContent (accelerator (item (this w))))
                  (fst (Dom.append_new (fst ri) "span" "keybinding" d))
                  (snd (Dom.append_new (fst ri) "span" "keybinding" d))
              else d).
  match goal with
  | |- exists W i k l bs, seq ?cmd _ ?W1 = _ /\ _ =>
      assert (HB : cmd W1 = Some (set_nodes B W1))
        by (subst B; unfold has_keybinding; fields_simpl;
            destruct (accelerator (item (this w))) as [acc|];
            [destruct (Js.truthy_string (label (item (this w))));
             cbn [andb]; [destruct (Js.truthy_string (Some acc))|]|
             rewrite andb_false_r];
            unfold append_to, deref, on_nodes, lift; fields_simpl;
            reflexivity);
      rewrite (seq_Some _ _ _ _ HB); clear HB
  end.
  (* the elements are pairwise different, and new *)
  assert (Hkc : fst rk <> c).
  { intros E. apply Hk1. rewrite E, Hd1dom. now apply elem_of_union_r. }
  assert (Hlk : fst rl <> fst rk).
  { intros E. apply Hl1. rewrite E, Hd2dom, Hk3.
    apply elem_of_union_l. now apply elem_of_singleton. }
  assert (Hlc : fst rl <> c).
  { intros E. apply Hl1. rewrite E, Hd2dom, Hk3, Hd1dom.
    now apply elem_of_union_r, elem_of_union_r. }
  assert (Hold : forall n, n ∈ dom (nodes w) ->
                   n <> fst ri /\ n <> fst rk /\ n <> fst rl
                   /\ n ∈ dom (snd rl)).
  { intros n Hn. rewrite <- Hd0 in Hn. repeat split.
    - intros ->. contradiction.
    - intros ->. apply Hk1. rewrite Hd1dom. now apply elem_of_union_r.
    - intros ->. apply Hl1. rewrite Hd2dom, Hk3, Hd1dom.
      now apply elem_of_union_r, elem_of_union_r.
    - rewrite Hl3, Hd2dom, Hk3, Hd1dom.
      now apply elem_of_union_r, elem_of_union_r, elem_of_union_r. }
  (* the document before the accelerator text *)
  destruct (d1 !! fst ri) as [ei|] eqn:Hei; [|now destruct Hd1eq].
  destruct Hd1eq as (Hsk & Hcl & Hat). cbn in Hsk, Hcl, Hat.
  injection Hsk as Htag Hch Hpar Hlis Htxt. injection Hcl as Hcls.
  injection Hat as Hat.
  assert (Li : snd rl !! fst ri
               = Some (Dom.with_childNodes (fun x => x ++ [fst rl])
                         (Dom.with_childNodes (fun x => x ++ [fst rk]) ei))).
  { rewrite Hl5, Hd2ne by congruence. now rewrite Hk5. }
  assert (Lk : snd rl !! fst rk
               = Some (Dom.with_attributes (insert "role" "none")
                         (Dom.with_parentNode (Some (fst ri))
                            (Dom.create "span" "menu-item-check")))).
  { rewrite Hl6 by congruence. exact Hd2eq. }
  assert (Lc : snd rl !! c
               = Some (Dom.with_childNodes (fun x => x ++ [fst ri])
                         (Dom.with_listeners
                            (fun ls => ls ++ render_listeners) elc))).
  { rewrite Hl6, Hd2ne, Hk6, Hd1ne by congruence. now rewrite Hi5, Hd0c. }
  assert (Lo : forall n, n ∈ dom (nodes w) -> n <> c ->
                 snd rl !! n = nodes w !! n).
  { intros n Hn Hnc. destruct (Hold n Hn) as (N1 & N2 & N3 & _).
    rewrite Hl6, Hd2ne, Hk6, Hd1ne, Hi6 by congruence. now apply Hd0o. }
  assert (Hdl : dom (snd rl)
                = list_to_set [fst ri; fst rk; fst rl] ∪ dom (nodes w)).
  { rewrite Hl3, Hd2dom, Hk3, Hd1dom, Hd0. cbn [list_to_set].
    apply set_eq. intros x.
    rewrite !elem_of_union, !elem_of_singleton, elem_of_empty. tauto. }
  assert (Hil : fst ri ∈ dom (snd rl)).
  { rewrite Hl3. now apply elem_of_union_r. }
  match goal with
  | |- exists W i k l bs, ?cmd ?W0 = _ /\ _ =>
      exists W0, (fst ri), (fst rk), (fst rl),
        (if has_keybinding (item (this w))
         then [fst (Dom.append_new (fst ri) "span" "keybinding" (snd rl))]
         else [])
  end.
  split; [reflexivity|]. fields_simpl.
  do 8 (split; [reflexivity|]).
  split; [unfold render_disposables, render_listeners; cbn [map fst snd];
          now rewrite <- !app_assoc|].
  split; [reflexivity|].
  subst B. cbv beta.
  destruct (has_keybinding (item (this w))).
  - destruct (append_new_lookups (fst ri) "span" "keybinding" (snd rl) Hil)
      as (Hb1 & Hb2 & Hb3 & Hb4 & Hb5 & Hb6).
    set (rb := Dom.append_new (fst ri) "span" "keybinding" (snd rl)) in *.
    clearbody rb.
    assert (Hbo : forall n, n ∈ dom (snd rl) -> n <> fst rb).
    { intros n Hn ->. contradiction. }
    assert (Hbk : fst rk <> fst rb).
    { apply Hbo. rewrite Hl3, Hd2dom, Hk3.
      apply elem_of_union_r, elem_of_union_l. now apply elem_of_singleton. }
    assert (Hbl : fst rl <> fst rb).
    { apply Hbo. rewrite Hl3. apply elem_of_union_l.
      now apply elem_of_singleton. }
    assert (Hbc : c <> fst rb).
    { apply Hbo. rewrite Hdl. apply elem_of_union_r. now rewrite <- Hd0. }
    split.
    { rewrite !NoDup_cons, !not_elem_of_cons.
      repeat split; try congruence; try apply not_elem_of_nil;
        apply NoDup_nil_2. }
    split.
    { intros n Hn. rewrite !elem_of_cons, elem_of_nil in Hn.
      rewrite <- Hd0.
      destruct Hn as [->|[->|[->|[->|[]]]]].
      - exact Hi1.
      - intros E. apply Hk1. rewrite Hd1dom. now apply elem_of_union_r.
      - intros E. apply Hl1. rewrite Hd2dom, Hk3, Hd1dom.
        now apply elem_of_union_r, elem_of_union_r.
      - intros E. apply Hb1. rewrite Hdl, <- Hd0. now apply elem_of_union_r. }
    split.
    { rewrite dom_alter_L, Hb3, Hdl. cbn [list_to_set].
      apply set_eq. intros x.
      rewrite !elem_of_union, !elem_of_singleton, !elem_of_empty. tauto. }
    rewrite !lookup_alter_ne by congruence.
    rewrite Hb5, Li.
    rewrite !Hb6 by congruence. rewrite Lc, Lk, Hl4.
    cbn [fmap option_fmap option_map].
    unfold skeleton, Dom.with_childNodes, Dom.with_listeners.
    cbn [Dom.tagName Dom.childNodes Dom.parentNode
         Dom.listeners Dom.textContent Dom.classList Dom.tabIndex
         Dom.attributes].
    rewrite Htag, Hch, Hpar, Hlis, Htxt, Hcls, Hat.
    repeat (split; [reflexivity|]).
    split; [exists (fst rb); split; [reflexivity|];
            now rewrite lookup_alter_eq, Hb4|].
    intros n Hn Hnc. destruct (Hold n Hn) as (N1 & N2 & N3 & N4).
    rewrite lookup_alter_ne by (apply not_eq_sym, Hbo, N4).
    rewrite Hb6 by (try congruence; apply Hbo, N4). now apply Lo.
  - split.
    { rewrite !NoDup_cons, !not_elem_of_cons.
      repeat split; try congruence; try apply not_elem_of_nil;
        apply NoDup_nil_2. }
    split.
    { intros n Hn. rewrite !elem_of_cons, elem_of_nil in Hn.
      rewrite <- Hd0.
      destruct Hn as [->|[->|[->|[]]]].
      - exact Hi1.
      - intros E. apply Hk1. rewrite Hd1dom. now apply elem_of_union_r.
      - intros E. apply Hl1. rewrite Hd2dom, Hk3, Hd1dom.
        now apply elem_of_union_r, elem_of_union_r. }
    split; [exact Hdl|].
    rewrite Li, Lc, Lk, Hl4.
    cbn [fmap option_fmap option_map].
    unfold skeleton, Dom.with_childNodes, Dom.with_listeners.
    cbn [Dom.tagName Dom.childNodes Dom.parentNode
         Dom.listeners Dom.textContent Dom.classList Dom.tabIndex
         Dom.attributes].
    rewrite Htag, Hch, Hpar, Hlis, Htxt, Hcls, Hat.
    repeat (split; [reflexivity|]).
    exact Lo.
Qed.

(** ** The refresh calls repaint, they do not rebuild *)

Lemma repainted_refl targets d : repainted targets d d.
Proof. repeat split; reflexivity. Qed.

Lemma repainted_trans targets d1 d2 d3 :
  repainted targets d1 d2 -> repainted targets d2 d3 ->
  repainted targets d1 d3.
Proof.
  intros (D1 & S1 & F1) (D2 & S2 & F2). repeat split.
  - congruence.
  - intros n. now rewrite S2, S1.
  - intros n Hn. now rewrite F2, F1.
Qed.

Lemma repainted_alter targets f n (d : gmap nat Dom.HTMLElement) :
  n ∈ targets ->
  (forall el, skeleton (f el) = skeleton el) ->
  repainted targets d (alter f n d).
Proof.
  intros Hn Hf. repeat split.
  - apply dom_alter_L.
  - intros m. destruct (decide (n = m)) as [<-|Hne].
    + rewrite lookup_alter_eq. destruct (d !! n); [|reflexivity].
      cbn. now rewrite Hf.
    + now rewrite lookup_alter_ne.
  - intros m Hm. apply lookup_alter_ne. intros ->. contradiction.
Qed.

Ltac repaint :=
  repeat first
    [ apply repainted_refl
    | eapply repainted_trans;
      [| apply repainted_alter; [assumption | reflexivity] ] ].

(** The four refresh calls on a world whose container, item element and
    label element are set: they return, and repaint those three elements
    at most. *)
Lemma refresh_repaints `{Host} (W : World) c i l :
  container (this W) = Some c ->
  itemElement (this W) = Some i ->
  labelElement (this W) = Some l ->
  exists w',
    refresh W = Some w'
    /\ this w' = this W
    /\ trace w' = trace W
    /\ repainted [c; i; l] (nodes W) (nodes w').
Proof.
  intros Hc Hi Hl.
  assert (Tc : c ∈ [c; i; l]) by (apply elem_of_cons; now left).
  assert (Ti : i ∈ [c; i; l])
    by (apply elem_of_cons; right; apply elem_of_cons; now left).
  assert (Tl : l ∈ [c; i; l])
    by (do 2 (apply elem_of_cons; right); apply elem_of_cons; now left).
  unfold refresh.
  (* updateLabel *)
  assert (S1 : exists w1, updateLabel W = Some w1 /\ this w1 = this W
                          /\ trace w1 = trace W
                          /\ repainted [c; i; l] (nodes W) (nodes w1)).
  { destruct (label (item (this W))) as [label0|] eqn:Hlab.
    2:{ exists W. unfold updateLabel. rewrite Hlab.
        repeat split; try reflexivity. }
    destruct (decide (label0 = EmptyString)) as [->|Hne].
    { exists W. unfold updateLabel. rewrite Hlab. cbn.
      repeat split; try reflexivity. }
    rewrite (updateLabel_run W l i label0 Hlab Hne Hl Hi). cbv zeta.
    destruct (MENU_MNEMONIC_REGEX_exec _) as [r|] eqn:Hr.
    - destruct (selected_group_exec _ _ Hr) as (ch & -> & _).
      cbn [mbind option_bind]. eexists. split; [reflexivity|].
      cbn [this trace nodes set_nodes]. split; [reflexivity|].
      split; [reflexivity|]. unfold Dom.setAttribute. repaint.
    - eexists. split; [reflexivity|].
      cbn [this trace nodes set_nodes]. split; [reflexivity|].
      split; [reflexivity|]. unfold Dom.setAttribute. repaint. }
  destruct S1 as (w1 & E1 & T1 & R1 & P1). rewrite (seq_Some _ _ _ _ E1).
  (* updateTooltip *)
  assert (S2 : exists w2, updateTooltip w1 = Some w2 /\ this w2 = this w1
                          /\ trace w2 = trace w1
                          /\ repainted [c; i; l] (nodes w1) (nodes w2)).
  { destruct (Js.truthy_string (sublabel (item (this w1)))) eqn:Hs.
    - destruct (sublabel (item (this w1))) as [t|] eqn:Ht; [|discriminate].
      rewrite (updateTooltip_run w1 i t Ht Hs) by (now rewrite T1).
      eexists. split; [reflexivity|].
      cbn [this trace nodes set_nodes]. split; [reflexivity|].
      split; [reflexivity|]. unfold Dom.setAttribute. repaint.
    - exists w1. rewrite (updateTooltip_without_sublabel w1 Hs).
      repeat split; try reflexivity. }
  destruct S2 as (w2 & E2 & T2 & R2 & P2). rewrite (seq_Some _ _ _ _ E2).
  (* updateEnabled *)
  assert (Hc2 : container (this w2) = Some c) by now rewrite T2, T1.
  rewrite (seq_Some _ _ _ _ (updateEnabled_run w2 c Hc2)).
  (* updateChecked *)
  rewrite (updateChecked_run _ i) by (cbn [this set_nodes]; now rewrite T2, T1).
  eexists. split; [reflexivity|]. cbn [this trace nodes set_nodes].
  split; [congruence|]. split; [congruence|].
  eapply repainted_trans; [exact P1|].
  eapply repainted_trans; [exact P2|].
  destruct (Js.truthy_bool (checked (item (this w2))));
    destruct (_ && _);
    unfold Dom.setAttribute, Dom.addClass, Dom.removeClass; repaint.
Qed.

(** [render] from start to end: the world before the refresh calls, and
    the world after them. *)
Lemma render_tree `{Host} (w : World) c elc :
  nodes w !! c = Some elc ->
  exists W w' i k l bs,
    render c w = Some w'
    /\ this w' = this W
    /\ trace w' = trace w
    /\ repainted [c; i; l] (nodes W) (nodes w')
    /\ container (this W) = Some c
    /\ itemElement (this W) = Some i
    /\ checkElement (this W) = Some k
    /\ labelElement (this W) = Some l
    /\ item (this W) = item (this w)
    /\ options (this W) = options (this w)
    /\ mnemonic (this W) = mnemonic (this w)
    /\ _toDispose (this W) = _toDispose (this w) ++ render_disposables c
    /\ NoDup (c :: i :: k :: l :: bs)
    /\ (forall n, n ∈ i :: k :: l :: bs -> n ∉ dom (nodes w))
    /\ dom (nodes W) = list_to_set (i :: k :: l :: bs) ∪ dom (nodes w)
    /\ skeleton <$> (nodes W !! c)
       = Some (Dom.tagName elc, Dom.childNodes elc ++ [i], Dom.parentNode elc,
               Dom.listeners elc ++ render_listeners, Dom.textContent elc)
    /\ skeleton <$> (nodes W !! i) = Some ("a", k :: l :: bs, Some c, [], None)
    /\ nodes W !! k
       = Some (Dom.with_attributes (insert "role" "none")
                 (Dom.with_parentNode (Some i)
                    (Dom.create "span" "menu-item-check")))
    /\ nodes W !! l
       = Some (Dom.with_parentNode (Some i) (Dom.create "span" "action-label"))
    /\ (if has_keybinding (item (this w))
        then exists b,
               bs = [b]
               /\ nodes W !! b
                  = Some (Dom.with_textContent (accelerator (item (this w)))
                            (Dom.with_parentNode (Some i)
                               (Dom.create "span" "keybinding")))
        else bs = [])
    /\ (forall n, n ∈ dom (nodes w) -> n <> c -> nodes W !! n = nodes w !! n).
Proof.
  intros Helc.
  destruct (render_stages w c elc Helc)
    as (W & i & k & l & bs & Hrun & Hc & Hi & Hk & Hl & Hit & Hop & Hmn & _
        & Htd & Htr & Hnd & Hnew & Hdom & Skc & _ & _ & Ski & _ & _ & Lk & Ll
        & Hkb & Hold).
  destruct (refresh_repaints W c i l Hc Hi Hl) as (w' & Href & Hth & Htr' & Hrp).
  exists W, w', i, k, l, bs. rewrite Hrun.
  split; [exact Href|]. split; [exact Hth|]. split; [congruence|].
  repeat (split; [assumption|]). assumption.
Qed.

Lemma skeleton_placement (o : option Dom.HTMLElement) tag ch par lis txt :
  skeleton <$> o = Some (tag, ch, par, lis, txt) ->
  placement <$> o = Some (tag, par, lis) /\ Dom.childNodes <$> o = Some ch.
Proof.
  destruct o as [el|]; [|discriminate]. cbn. unfold skeleton, placement.
  intros [= -> -> -> -> _]. split; reflexivity.
Qed.

(** X9. [render] on a container of the document returns and attaches
    elements that are new to the document, always in the same arrangement:
    the item element becomes the last child of the container, which also
    gets the five listeners; the item element holds the check indicator,
    which is empty, then the label element, then the accelerator text,
    which is there exactly when the item has both a label and an
    accelerator.  What the label element holds is the markup that
    [updateLabel] assigns, and is no part of this statement.  No element
    that was in the document before, other than the container, changes. *)
Theorem render_builds_tree `{Host} (w : World) c elc :
  nodes w !! c = Some elc ->
  exists w' i k l bs,
    render c w = Some w'
    /\ container (this w') = Some c
    /\ itemElement (this w') = Some i
    /\ checkElement (this w') = Some k
    /\ labelElement (this w') = Some l
    /\ NoDup (c :: i :: k :: l :: bs)
    /\ (forall n, n ∈ i :: k :: l :: bs -> n ∉ dom (nodes w))
    /\ placement <$> (nodes w' !! c)
       = Some (Dom.tagName elc, Dom.parentNode elc,
               Dom.listeners elc ++ render_listeners)
    /\ Dom.childNodes <$> (nodes w' !! c) = Some (Dom.childNodes elc ++ [i])
    /\ placement <$> (nodes w' !! i) = Some ("a", Some c, [])
    /\ Dom.childNodes <$> (nodes w' !! i) = Some (k :: l :: bs)
    /\ placement <$> (nodes w' !! k) = Some ("span", Some i, [])
    /\ Dom.childNodes <$> (nodes w' !! k) = Some []
    /\ Dom.classList <$> (nodes w' !! k) = Some ["menu-item-check"]
    /\ placement <$> (nodes w' !! l) = Some ("span", Some i, [])
    /\ (if has_keybinding (item (this w))
        then exists b,
               bs = [b]
               /\ placement <$> (nodes w' !! b) = Some ("span", Some i, [])
               /\ Dom.classList <$> (nodes w' !! b) = Some ["keybinding"]
               /\ Dom.textContent <$> (nodes w' !! b)
                  = Some (accelerator (item (this w)))
        else bs = [])
    /\ (forall n, n ∈ dom (nodes w) -> n <> c -> nodes w' !! n = nodes w !! n)
    /\ _toDispose (this w') = _toDispose (this w) ++ render_disposables c
    /\ item (this w') = item (this w)
    /\ trace w' = trace w.
Proof.
  intros Helc.
  destruct (render_tree w c elc Helc)
    as (W & w' & i & k & l & bs & Hrun & Hth & Htr & (Hd & Hsk & Hfr) & Hc & Hi
        & Hk & Hl & Hit & _ & _ & Htd & Hnd & Hnew & Hdom & Skc & Ski & Lk & Ll
        & Hkb & Hold).
  exists w', i, k, l, bs. rewrite Hth.
  apply NoDup_cons in Hnd as Hnd'. destruct Hnd' as [Hcn Hnd'].
  apply NoDup_cons in Hnd' as [Hin Hnd'].
  apply NoDup_cons in Hnd' as [Hkn Hnd'].
  apply NoDup_cons in Hnd' as [Hln _].
  apply not_elem_of_cons in Hcn as [Hci Hcn].
  apply not_elem_of_cons in Hcn as [Hck Hcn].
  apply not_elem_of_cons in Hcn as [Hcl Hcb].
  apply not_elem_of_cons in Hin as [Hik Hin].
  apply not_elem_of_cons in Hin as [Hil Hib].
  apply not_elem_of_cons in Hkn as [Hkl Hkb'].
  assert (Hk3 : k ∉ [c; i; l]).
  { rewrite !not_elem_of_cons. repeat split; try apply not_elem_of_nil;
      congruence. }
  rewrite <- (Hsk c) in Skc. rewrite <- (Hsk i) in Ski.
  apply skeleton_placement in Skc as [Pc Cc].
  apply skeleton_placement in Ski as [Pi Ci].
  assert (Sl : skeleton <$> (nodes w' !! l) = Some ("span", [], Some i, [], None))
    by now rewrite Hsk, Ll.
  apply skeleton_placement in Sl as [Pl _].
  split; [exact Hrun|]. do 4 (split; [assumption|]).
  split; [exact Hnd|]. split; [exact Hnew|].
  split; [exact Pc|]. split; [exact Cc|].
  split; [exact Pi|]. split; [exact Ci|].
  rewrite (Hfr k Hk3), Lk.
  do 3 (split; [reflexivity|]).
  split; [exact Pl|]. split.
  { destruct (has_keybinding (item (this w))); [|exact Hkb].
    destruct Hkb as (b & -> & Lb). exists b. split; [reflexivity|].
    rewrite Hfr.
    - rewrite Lb. repeat split; reflexivity.
    - apply not_elem_of_cons in Hcb as [Hcb _].
      apply not_elem_of_cons in Hib as [Hib _].
      apply not_elem_of_cons in Hln as [Hlb _].
      rewrite !not_elem_of_cons.
      repeat split; try apply not_elem_of_nil; congruence. }
  split.
  { intros n Hn Hnc. rewrite Hfr; [now apply Hold|].
    rewrite !not_elem_of_cons. repeat split; try apply not_elem_of_nil.
    - exact Hnc.
    - intros ->. apply (Hnew i); [apply elem_of_cons; now left|exact Hn].
    - intros ->. apply (Hnew l); [|exact Hn].
      do 2 (apply elem_of_cons; right). apply elem_of_cons. now left. }
  repeat split; assumption.
Qed.

Lemma render_builds_tree_witness :
  exists w',
    render (H := sample_host) 0
      (world_of
         (plain_instance word_wrap_item) one_div)
    = Some w'
    /\ Dom.childNodes <$> (nodes w' !! 0) = Some [1]
    /\ Dom.childNodes <$> (nodes w' !! 1) = Some [2; 3; 4]
    /\ Dom.textContent <$> (nodes w' !! 4) = Some (Some "Alt+Z").
Proof.
  destruct (render_builds_tree (H := sample_host)
              (world_of
                 (plain_instance word_wrap_item) one_div)
              0 (Dom.create "div" "menubar-menu-button"))
    as (w' & i & k & l & bs & Hrun & _).
  - vm_compute; reflexivity.
  - exists w'. split; [exact Hrun|].
    vm_compute in Hrun. injection Hrun as <-.
    repeat split; vm_compute; reflexivity.
Defined.

(** ** [dispose] undoes [render] *)

Lemma filter_out_last (ch : list NodeId) i :
  i ∉ ch -> filter (fun x => x <> i) (ch ++ [i]) = ch.
Proof.
  intros Hi. rewrite filter_app.
  assert (Hlast : filter (fun x => x <> i) [i] = []).
  { rewrite filter_cons. destruct (decide (i <> i)); [contradiction|reflexivity]. }
  rewrite Hlast, app_nil_r.
  induction ch as [|x ch IH]; [reflexivity|].
  apply not_elem_of_cons in Hi as [Hx Hi].
  rewrite filter_cons, decide_True by congruence. now rewrite IH.
Qed.

Lemma remove_first_skip x y ls :
  x <> y -> Dom.remove_first x (y :: ls) = y :: Dom.remove_first x ls.
Proof. intros Hne. cbn. now rewrite decide_False. Qed.

Lemma remove_all_skip (rs : list (EventType * Listener)) y ls :
  y ∉ rs ->
  foldr Dom.remove_first (y :: ls) rs = y :: foldr Dom.remove_first ls rs.
Proof.
  induction rs as [|r rs IH]; intros Hy; [reflexivity|].
  apply not_elem_of_cons in Hy as [Hyr Hy].
  cbn [foldr]. rewrite IH by exact Hy. apply remove_first_skip. congruence.
Qed.

(** Removing the registrations of [render], the last one first, from a
    list of listeners that [render] extended gives the list back, when the
    list held none of them before. *)
Lemma remove_render_listeners (ls : list (EventType * Listener)) :
  (forall r, r ∈ render_listeners -> r ∉ ls) ->
  foldr Dom.remove_first (ls ++ render_listeners) render_listeners = ls.
Proof.
  induction ls as [|y ls IH]; intros Hfresh; [reflexivity|].
  cbn [app]. rewrite remove_all_skip.
  - f_equal. apply IH. intros r Hr Hin. apply (Hfresh r Hr).
    now apply elem_of_cons; right.
  - intros Hy. apply (Hfresh y Hy). apply elem_of_cons. now left.
Qed.

(** [dispose] in one step. *)
Lemma dispose_run (w : World) :
  dispose w =
  Some (set_this (set__toDispose [])
          (set_nodes
             (fun d =>
                foldr (fun x acc =>
                         Dom.removeListener (listened_node x) (listened_type x)
                           (listened_by x) acc) d (_toDispose (this w)))
             (match itemElement (this w) with
              | Some i =>
                  set_this (set_itemElement None)
                    (set_nodes (Dom.removeNode i) w)
              | None => w
              end))).
Proof.
  unfold dispose, Disposable_dispose. run_cmd.
  destruct (itemElement (this w)); reflexivity.
Qed.

(** X10. [render] followed by [dispose] gives the container back: in a
    document where the container's children are elements of the document
    and the container holds none of the listeners of [render] yet, an
    instance with nothing registered leaves the container with the
    children and listeners it had, the item element without a parent, and
    every other element of the document as it was. *)
Theorem dispose_undoes_render `{Host} (w : World) c elc :
  nodes w !! c = Some elc ->
  _toDispose (this w) = [] ->
  (forall x, x ∈ Dom.childNodes elc -> x ∈ dom (nodes w)) ->
  (forall r, r ∈ render_listeners -> r ∉ Dom.listeners elc) ->
  exists w1 w2 i,
    render c w = Some w1
    /\ itemElement (this w1) = Some i
    /\ dispose w1 = Some w2
    /\ skeleton <$> (nodes w2 !! c) = Some (skeleton elc)
    /\ nodes w2 !! i ≫= Dom.parentNode = None
    /\ itemElement (this w2) = None
    /\ _toDispose (this w2) = []
    /\ container (this w2) = Some c
    /\ (forall n, n ∈ dom (nodes w) -> n <> c -> nodes w2 !! n = nodes w !! n)
    /\ trace w2 = trace w.
Proof.
  intros Helc Htd0 Hch Hls.
  destruct (render_tree w c elc Helc)
    as (W & w1 & i & k & l & bs & Hrun & Hth & Htr & (Hd & Hsk & Hfr) & Hc & Hi
        & Hk & Hl & Hit & _ & _ & Htd & Hnd & Hnew & Hdom & Skc & Ski & Lk & Ll
        & Hkb & Hold).
  apply NoDup_cons in Hnd as [Hcn _].
  apply not_elem_of_cons in Hcn as [Hci _].
  assert (Hinew : i ∉ dom (nodes w))
    by (apply Hnew, elem_of_cons; now left).
  exists w1, (default w1 (dispose w1)), i.
  split; [exact Hrun|]. split; [now rewrite Hth|].
  rewrite (dispose_run w1), Hth, Hi, Htd, Htd0.
  cbn [default from_option id app render_disposables render_listeners map
       fst snd foldr listened_node listened_type listened_by].
  split; [reflexivity|].
  cbn [id this nodes trace set_this set_nodes itemElement _toDispose container
       set__toDispose set_itemElement].
  rewrite <- (Hsk c), <- (Hsk i) in *.
  destruct (nodes w1 !! c) as [ec|] eqn:Hec; [|discriminate Skc].
  destruct (nodes w1 !! i) as [ei|] eqn:Hei; [|discriminate Ski].
  cbn in Skc, Ski. injection Skc as Ctag Cch Cpar Clis Ctxt.
  injection Ski as Itag Ich Ipar Ilis Itxt.
  assert (Hrm : Dom.removeNode i (nodes w1)
                = alter (Dom.with_parentNode None) i
                    (alter (Dom.with_childNodes (filter (fun x => x <> i))) c
                       (nodes w1))).
  { unfold Dom.removeNode. rewrite Hei. cbn. now rewrite Ipar. }
  rewrite Hrm. unfold Dom.removeListener.
  split.
  { rewrite !lookup_alter_eq. rewrite lookup_alter_ne by congruence.
    rewrite lookup_alter_eq, Hec. cbn. f_equal. unfold skeleton. cbn.
    rewrite Ctag, Cpar, Ctxt, Cch, Clis.
    rewrite filter_out_last.
    2:{ intros Hin. apply Hinew. now apply Hch. }
    pose proof (remove_render_listeners (Dom.listeners elc) Hls) as Hrl.
    unfold render_listeners in Hrl at 2. cbn [foldr] in Hrl.
    now rewrite Hrl. }
  split.
  { rewrite !lookup_alter_ne by congruence. rewrite lookup_alter_eq.
    now destruct (alter _ c (nodes w1) !! i). }
  do 3 (split; [first [reflexivity | now rewrite Hth, Hc]|]).
  split; [|exact Htr].
  intros n Hn Hnc.
  assert (Hni : n <> i) by (intros ->; contradiction).
  rewrite !lookup_alter_ne by congruence.
  rewrite Hfr; [now apply Hold|].
  rewrite !not_elem_of_cons. repeat split; try apply not_elem_of_nil;
    try assumption.
  intros ->. apply (Hnew l); [|exact Hn].
  do 2 (apply elem_of_cons; right). apply elem_of_cons. now left.
Qed.

Lemma dispose_undoes_render_witness :
  exists w1 w2,
    render (H := sample_host) 0 (world_of (plain_instance word_wrap_item) one_div)
    = Some w1
    /\ dispose w1 = Some w2
    /\ Dom.childNodes <$> (nodes w2 !! 0) = Some []
    /\ Dom.listeners <$> (nodes w2 !! 0) = Some [].
Proof.
  destruct (dispose_undoes_render (H := sample_host)
              (world_of (plain_instance word_wrap_item) one_div) 0
              (Dom.create "div" "menubar-menu-button"))
    as (w1 & w2 & i & Hrun & _ & Hdis & _).
  - vm_compute; reflexivity.
  - reflexivity.
  - intros x Hx. cbn in Hx. now apply elem_of_nil in Hx.
  - intros r _ Hin. cbn in Hin. now apply elem_of_nil in Hin.
  - exists w1, w2. split; [exact Hrun|]. split; [exact Hdis|].
    vm_compute in Hrun. injection Hrun as <-.
    vm_compute in Hdis. injection Hdis as <-.
    split; vm_compute; reflexivity.
Defined.

(** ** What a rendered item exposes *)

Lemma updateLabel_paint `{Host} (W : World) l i :
  labelElement (this W) = Some l ->
  itemElement (this W) = Some i ->
  updateLabel W
  = Some (set_nodes (label_paint (item (this W)) (options (this W)) l i) W).
Proof.
  intros Hl Hi. unfold label_paint.
  destruct (label (item (this W))) as [label0|] eqn:Hlab.
  2:{ unfold updateLabel. rewrite Hlab. now destruct W. }
  destruct (decide (label0 = EmptyString)) as [->|Hne].
  { unfold updateLabel. rewrite Hlab. cbn. now destruct W. }
  rewrite (updateLabel_run W l i label0 Hlab Hne Hl Hi). cbv zeta.
  assert (Ht : Js.truthy_string (Some label0) = true)
    by (destruct label0; [contradiction|reflexivity]).
  rewrite Ht.
  destruct (MENU_MNEMONIC_REGEX_exec _) as [r|] eqn:Hr; [|reflexivity].
  destruct (selected_group_exec _ _ Hr) as (ch & -> & _). reflexivity.
Qed.

Lemma updateTooltip_paint (W : World) i :
  itemElement (this W) = Some i ->
  updateTooltip W = Some (set_nodes (tooltip_paint (item (this W)) i) W).
Proof.
  intros Hi. unfold tooltip_paint.
  destruct (Js.truthy_string (sublabel (item (this W)))) eqn:Hs.
  - destruct (sublabel (item (this W))) as [t|] eqn:Ht; [|discriminate].
    rewrite Hs. now apply updateTooltip_run.
  - rewrite (updateTooltip_without_sublabel W Hs).
    destruct (sublabel (item (this W))) as [t|]; [rewrite Hs|]; now destruct W.
Qed.

(** The refresh calls in one step. *)
Lemma refresh_run `{Host} (W : World) c i l :
  container (this W) = Some c ->
  itemElement (this W) = Some i ->
  labelElement (this W) = Some l ->
  refresh W
  = Some (set_nodes
            (fun d =>
               checked_paint (item (this W)) i
                 (enabled_paint (item (this W)) c
                    (tooltip_paint (item (this W)) i
                       (label_paint (item (this W)) (options (this W)) l i d))))
            W).
Proof.
  intros Hc Hi Hl. unfold refresh.
  rewrite (seq_Some _ _ _ _ (updateLabel_paint W l i Hl Hi)).
  set (w1 := set_nodes _ W).
  assert (T1 : this w1 = this W) by reflexivity.
  rewrite (seq_Some _ _ _ _
             (updateTooltip_paint w1 i (eq_trans (f_equal _ T1) Hi))).
  set (w2 := set_nodes _ w1).
  assert (T2 : this w2 = this W) by reflexivity.
  rewrite (seq_Some _ _ _ _
             (updateEnabled_run w2 c (eq_trans (f_equal _ T2) Hc))).
  set (w3 := set_nodes _ w2).
  assert (T3 : this w3 = this W) by reflexivity.
  rewrite (updateChecked_run w3 i (eq_trans (f_equal _ T3) Hi)).
  subst w3 w2 w1. unfold checked_paint, enabled_paint. destruct W.
  reflexivity.
Qed.

(** Which attributes, classes and tab indices each writer leaves alone. *)
Lemma label_paint_attribute `{Host} it opts l i n key d :
  key <> "aria-label" -> key <> "aria-keyshortcuts" ->
  Dom.getAttribute n key (label_paint it opts l i d) = Dom.getAttribute n key d.
Proof.
  intros K1 K2. unfold label_paint.
  destruct (label it) as [label0|]; [|reflexivity].
  destruct (Js.truthy_string _); [|reflexivity]. cbv zeta.
  destruct (MENU_MNEMONIC_REGEX_exec _) as [r|];
    [destruct (selected_group r); [|reflexivity]|];
    rewrite DomFacts.getAttribute_alter_frame by reflexivity;
    now rewrite !DomFacts.getAttribute_setAttribute_ne by (right; congruence).
Qed.

Lemma label_paint_class `{Host} it opts l i n cls d :
  Dom.hasClass n cls (label_paint it opts l i d) = Dom.hasClass n cls d.
Proof.
  unfold label_paint, Dom.setAttribute.
  destruct (label it) as [label0|]; [|reflexivity].
  destruct (Js.truthy_string _); [|reflexivity]. cbv zeta.
  destruct (MENU_MNEMONIC_REGEX_exec _) as [r|];
    [destruct (selected_group r); [|reflexivity]|];
    now rewrite !DomFacts.hasClass_alter_frame by reflexivity.
Qed.

Lemma getTabIndex_alter_frame f n n' (d : gmap nat Dom.HTMLElement) :
  (forall el, Dom.tabIndex (f el) = Dom.tabIndex el) ->
  Dom.getTabIndex n' (alter f n d) = Dom.getTabIndex n' d.
Proof.
  intros Hf. unfold Dom.getTabIndex.
  destruct (decide (n = n')) as [<-|Hn].
  - rewrite lookup_alter_eq. destruct (d !! n) as [el|]; [|reflexivity].
    cbn. now rewrite Hf.
  - now rewrite lookup_alter_ne.
Qed.

Lemma label_paint_tabIndex `{Host} it opts l i n d :
  Dom.getTabIndex n (label_paint it opts l i d) = Dom.getTabIndex n d.
Proof.
  unfold label_paint, Dom.setAttribute.
  destruct (label it) as [label0|]; [|reflexivity].
  destruct (Js.truthy_string _); [|reflexivity]. cbv zeta.
  destruct (MENU_MNEMONIC_REGEX_exec _) as [r|];
    [destruct (selected_group r); [|reflexivity]|];
    now rewrite !getTabIndex_alter_frame by reflexivity.
Qed.

Lemma tooltip_paint_attribute it i n key d :
  key <> "title" ->
  Dom.getAttribute n key (tooltip_paint it i d) = Dom.getAttribute n key d.
Proof.
  intros K. unfold tooltip_paint.
  destruct (sublabel it) as [t|]; [|reflexivity].
  destruct (Js.truthy_string _); [|reflexivity].
  apply DomFacts.getAttribute_setAttribute_ne. right. congruence.
Qed.

Lemma tooltip_paint_title it i d :
  i ∈ dom d ->
  Dom.getAttribute i "title" (tooltip_paint it i d)
  = if Js.truthy_string (sublabel it) then sublabel it
    else Dom.getAttribute i "title" d.
Proof.
  intros Hi. unfold tooltip_paint.
  destruct (sublabel it) as [t|]; [|reflexivity].
  destruct (Js.truthy_string _); [|reflexivity].
  apply DomFacts.getAttribute_setAttribute_eq. now apply elem_of_dom.
Qed.

Lemma tooltip_paint_class it i n cls d :
  Dom.hasClass n cls (tooltip_paint it i d) = Dom.hasClass n cls d.
Proof.
  unfold tooltip_paint, Dom.setAttribute.
  destruct (sublabel it) as [t|]; [|reflexivity].
  destruct (Js.truthy_string _); [|reflexivity].
  now apply DomFacts.hasClass_alter_frame.
Qed.

Lemma tooltip_paint_tabIndex it i n d :
  Dom.getTabIndex n (tooltip_paint it i d) = Dom.getTabIndex n d.
Proof.
  unfold tooltip_paint, Dom.setAttribute.
  destruct (sublabel it) as [t|]; [|reflexivity].
  destruct (Js.truthy_string _); [|reflexivity].
  now apply getTabIndex_alter_frame.
Qed.

Lemma enabled_paint_attribute it c n key d :
  Dom.getAttribute n key (enabled_paint it c d) = Dom.getAttribute n key d.
Proof.
  unfold enabled_paint, Dom.addClass, Dom.removeClass.
  destruct (_ && _);
    now rewrite !DomFacts.getAttribute_alter_frame by reflexivity.
Qed.

Lemma checked_paint_attribute it i n key d :
  n <> i \/ (key <> "role" /\ key <> "aria-checked") ->
  Dom.getAttribute n key (checked_paint it i d) = Dom.getAttribute n key d.
Proof.
  intros K. unfold checked_paint.
  destruct (Js.truthy_bool _);
    rewrite !DomFacts.getAttribute_setAttribute_ne
      by (destruct K as [K|[K1 K2]]; [left|right]; congruence);
    unfold Dom.addClass, Dom.removeClass;
    now rewrite DomFacts.getAttribute_alter_frame by reflexivity.
Qed.

Lemma checked_paint_state it i d :
  i ∈ dom d ->
  Dom.getAttribute i "role" (checked_paint it i d)
  = Some (if Js.truthy_bool (checked it)
          then "menuitemcheckbox" else "menuitem")
  /\ Dom.getAttribute i "aria-checked" (checked_paint it i d)
     = Some (if Js.truthy_bool (checked it) then "true" else "false")
  /\ Dom.hasClass i "checked" (checked_paint it i d)
     = Js.truthy_bool (checked it).
Proof.
  intros Hi. apply elem_of_dom in Hi. unfold checked_paint.
  destruct (Js.truthy_bool _).
  - split; [|split].
    + rewrite DomFacts.getAttribute_setAttribute_ne by (right; congruence).
      apply DomFacts.getAttribute_setAttribute_eq.
      unfold Dom.addClass. rewrite lookup_alter_eq.
      destruct Hi as [el ->]. now eexists.
    + apply DomFacts.getAttribute_setAttribute_eq.
      unfold Dom.setAttribute, Dom.addClass. rewrite !lookup_alter_eq.
      destruct Hi as [el ->]. now eexists.
    + unfold Dom.setAttribute.
      rewrite !DomFacts.hasClass_alter_frame by reflexivity.
      now apply DomFacts.hasClass_addClass_eq.
  - split; [|split].
    + rewrite DomFacts.getAttribute_setAttribute_ne by (right; congruence).
      apply DomFacts.getAttribute_setAttribute_eq.
      unfold Dom.removeClass. rewrite lookup_alter_eq.
      destruct Hi as [el ->]. now eexists.
    + apply DomFacts.getAttribute_setAttribute_eq.
      unfold Dom.setAttribute, Dom.removeClass. rewrite !lookup_alter_eq.
      destruct Hi as [el ->]. now eexists.
    + unfold Dom.setAttribute.
      rewrite !DomFacts.hasClass_alter_frame by reflexivity.
      apply DomFacts.hasClass_removeClass_eq.
Qed.

Lemma checked_paint_class_ne it i n cls d :
  n <> i ->
  Dom.hasClass n cls (checked_paint it i d) = Dom.hasClass n cls d.
Proof.
  intros Hn. unfold checked_paint, Dom.setAttribute.
  destruct (Js.truthy_bool _);
    rewrite !DomFacts.hasClass_alter_frame by reflexivity;
    unfold Dom.hasClass, Dom.addClass, Dom.removeClass;
    now rewrite lookup_alter_ne by congruence.
Qed.

Lemma checked_paint_tabIndex it i n d :
  Dom.getTabIndex n (checked_paint it i d) = Dom.getTabIndex n d.
Proof.
  unfold checked_paint, Dom.setAttribute, Dom.addClass, Dom.removeClass.
  destruct (Js.truthy_bool _);
    now rewrite !getTabIndex_alter_frame by reflexivity.
Qed.

Lemma label_paint_dom `{Host} it opts l i d :
  dom (label_paint it opts l i d) = dom d.
Proof.
  unfold label_paint, Dom.setAttribute.
  destruct (label it) as [label0|]; [|reflexivity].
  destruct (Js.truthy_string _); [|reflexivity]. cbv zeta.
  destruct (MENU_MNEMONIC_REGEX_exec _) as [r|];
    [destruct (selected_group r); [|reflexivity]|];
    now rewrite !dom_alter_L.
Qed.

Lemma tooltip_paint_dom it i d : dom (tooltip_paint it i d) = dom d.
Proof.
  unfold tooltip_paint, Dom.setAttribute.
  destruct (sublabel it) as [t|]; [|reflexivity].
  destruct (Js.truthy_string _); [|reflexivity]. apply dom_alter_L.
Qed.

Lemma enabled_paint_dom it c d : dom (enabled_paint it c d) = dom d.
Proof.
  unfold enabled_paint, Dom.addClass, Dom.removeClass.
  destruct (_ && _); now rewrite !dom_alter_L.
Qed.

Lemma enabled_paint_state it c d :
  c ∈ dom d ->
  Dom.hasClass c "disabled" (enabled_paint it c d)
  = negb (Js.truthy_bool (enabled it)
          && negb (bool_decide (type it = Some separator)))
  /\ Dom.getTabIndex c (enabled_paint it c d)
     = if Js.truthy_bool (enabled it)
          && negb (bool_decide (type it = Some separator))
       then Some 0%Z else Dom.getTabIndex c d.
Proof.
  intros Hc. apply elem_of_dom in Hc. unfold enabled_paint.
  destruct (_ && _); cbn [negb]; split.
  - rewrite DomFacts.hasClass_alter_frame by reflexivity.
    apply DomFacts.hasClass_removeClass_eq.
  - unfold Dom.getTabIndex, Dom.removeClass. rewrite !lookup_alter_eq.
    destruct Hc as [el ->]. reflexivity.
  - now apply DomFacts.hasClass_addClass_eq.
  - unfold Dom.addClass. now apply getTabIndex_alter_frame.
Qed.

(** The accessible name and the shortcut that [updateLabel] writes. *)
Lemma label_paint_aria_label `{Host} it opts l i d :
  l ∈ dom d ->
  Dom.getAttribute l "aria-label" (label_paint it opts l i d)
  = match label it with
    | Some label0 =>
        if Js.truthy_string (Some label0) then Some (cleanMnemonic label0)
        else Dom.getAttribute l "aria-label" d
    | None => Dom.getAttribute l "aria-label" d
    end.
Proof.
  intros Hl. apply elem_of_dom in Hl. unfold label_paint.
  destruct (label it) as [label0|]; [|reflexivity].
  destruct (Js.truthy_string _); [|reflexivity]. cbv zeta.
  destruct (MENU_MNEMONIC_REGEX_exec _) as [r|] eqn:Hr.
  - destruct (selected_group_exec _ _ Hr) as (ch & -> & _).
    rewrite DomFacts.getAttribute_alter_frame by reflexivity.
    rewrite DomFacts.getAttribute_setAttribute_ne by (right; congruence).
    now apply DomFacts.getAttribute_setAttribute_eq.
  - rewrite DomFacts.getAttribute_alter_frame by reflexivity.
    now apply DomFacts.getAttribute_setAttribute_eq.
Qed.

Lemma label_paint_keyshortcuts `{Host} it opts l i d :
  i ∈ dom d ->
  Dom.getAttribute i "aria-keyshortcuts" (label_paint it opts l i d)
  = match (label it
           ≫= (fun label0 =>
                 MENU_MNEMONIC_REGEX_exec
                   (if Js.truthy_bool (enableMnemonics opts)
                    then label0 else cleanMnemonic label0)))
          ≫= selected_group
    with
    | Some g => Some (toLocaleLowerCase g)
    | None => Dom.getAttribute i "aria-keyshortcuts" d
    end.
Proof.
  intros Hi. apply elem_of_dom in Hi. unfold label_paint.
  destruct (label it) as [label0|]; [|reflexivity].
  cbn [mbind option_bind].
  destruct label0 as [|a rest].
  { cbn [Js.truthy_string]. now destruct (Js.truthy_bool _). }
  cbn [Js.truthy_string]. cbv zeta.
  destruct (Js.truthy_bool (enableMnemonics opts)); cbn [negb];
    (destruct (MENU_MNEMONIC_REGEX_exec _) as [r|] eqn:Hr;
     cbn [mbind option_bind];
     [destruct (selected_group_exec _ _ Hr) as (ch & -> & _);
      rewrite DomFacts.getAttribute_alter_frame by reflexivity;
      apply DomFacts.getAttribute_setAttribute_eq;
      unfold Dom.setAttribute;
      destruct (decide (l = i)) as [->|Hn];
      [rewrite lookup_alter_eq; destruct Hi as [el ->]; now eexists
      |now rewrite lookup_alter_ne]
     |rewrite DomFacts.getAttribute_alter_frame by reflexivity;
      apply DomFacts.getAttribute_setAttribute_ne; right; congruence]).
Qed.

(** X11. What assistive technology finds after [render], whatever the
    item: the item element has the role and the [aria-checked] value of
    the item's checked state, and the class [checked] exactly when the item
    is checked; the check indicator has the role [none]; the title is the
    sublabel when there is one and is absent otherwise; the label element's
    [aria-label] is the cleaned label when there is a label and is absent
    otherwise; the container has the class [disabled] exactly when the item
    is disabled or a separator, and gets the tab index 0 otherwise. *)
Theorem render_accessibility `{Host} (w : World) c elc :
  nodes w !! c = Some elc ->
  exists w' i k l,
    render c w = Some w'
    /\ itemElement (this w') = Some i
    /\ checkElement (this w') = Some k
    /\ labelElement (this w') = Some l
    /\ Dom.getAttribute i "role" (nodes w')
       = Some (if Js.truthy_bool (checked (item (this w)))
               then "menuitemcheckbox" else "menuitem")
    /\ Dom.getAttribute i "aria-checked" (nodes w')
       = Some (if Js.truthy_bool (checked (item (this w)))
               then "true" else "false")
    /\ Dom.hasClass i "checked" (nodes w')
       = Js.truthy_bool (checked (item (this w)))
    /\ Dom.getAttribute k "role" (nodes w') = Some "none"
    /\ Dom.getAttribute i "title" (nodes w')
       = (if Js.truthy_string (sublabel (item (this w)))
          then sublabel (item (this w)) else None)
    /\ Dom.getAttribute l "aria-label" (nodes w')
       = (if Js.truthy_string (label (item (this w)))
          then cleanMnemonic <$> label (item (this w)) else None)
    /\ Dom.hasClass c "disabled" (nodes w')
       = negb (Js.truthy_bool (enabled (item (this w)))
               && negb (bool_decide (type (item (this w)) = Some separator)))
    /\ Dom.getTabIndex c (nodes w')
       = (if Js.truthy_bool (enabled (item (this w)))
             && negb (bool_decide (type (item (this w)) = Some separator))
          then Some 0%Z else Dom.tabIndex elc).
Proof.
  intros Helc.
  destruct (render_stages w c elc Helc)
    as (W & i & k & l & bs & Hrun & Hc & Hi & Hk & Hl & Hit & Hop & Hmn & _
        & _ & _ & Hnd & _ & Hdom & _ & _ & Tc & _ & _ & Ai & Lk & Ll & _ & _).
  rewrite Hrun, (refresh_run W c i l Hc Hi Hl), Hit, Hop.
  set (it := item (this w)). set (opts := options (this w)).
  exists (set_nodes
            (fun d => checked_paint it i
                        (enabled_paint it c
                           (tooltip_paint it i (label_paint it opts l i d))))
            W), i, k, l.
  split; [reflexivity|]. cbn [this nodes set_nodes].
  do 3 (split; [assumption|]).
  apply NoDup_cons in Hnd as [Hc' Hnd]. apply NoDup_cons in Hnd as [Hi' Hnd].
  apply not_elem_of_cons in Hc' as [Hci Hc'].
  apply not_elem_of_cons in Hc' as [Hck Hc'].
  apply not_elem_of_cons in Hi' as [Hik Hi'].
  assert (Di : i ∈ dom (nodes W)).
  { apply elem_of_dom. destruct (nodes W !! i); [eauto|discriminate]. }
  assert (Dl : l ∈ dom (nodes W)) by (apply elem_of_dom; eauto).
  assert (Dc : c ∈ dom (nodes W)).
  { apply elem_of_dom. destruct (nodes W !! c); [eauto|discriminate]. }
  set (d1 := label_paint it opts l i (nodes W)).
  set (d2 := tooltip_paint it i d1).
  set (d3 := enabled_paint it c d2).
  assert (D1 : dom d1 = dom (nodes W)) by apply label_paint_dom.
  assert (D2 : dom d2 = dom (nodes W))
    by (subst d2; now rewrite tooltip_paint_dom).
  assert (D3 : dom d3 = dom (nodes W))
    by (subst d3; now rewrite enabled_paint_dom).
  destruct (checked_paint_state it i d3) as (R1 & R2 & R3);
    [now rewrite D3|].
  split; [exact R1|]. split; [exact R2|]. split; [exact R3|].
  split.
  { rewrite checked_paint_attribute by (left; congruence).
    subst d3 d2 d1. rewrite enabled_paint_attribute.
    rewrite tooltip_paint_attribute, label_paint_attribute by congruence.
    unfold Dom.getAttribute. rewrite Lk. reflexivity. }
  split.
  { rewrite checked_paint_attribute by (right; split; congruence).
    subst d3. rewrite enabled_paint_attribute.
    subst d2. rewrite tooltip_paint_title by now rewrite D1.
    destruct (Js.truthy_string (sublabel it)); [reflexivity|].
    subst d1. rewrite label_paint_attribute by congruence.
    unfold Dom.getAttribute.
    destruct (nodes W !! i) as [ei|]; [|reflexivity].
    cbn in Ai. injection Ai as Ai. cbn. rewrite Ai.
    now destruct (mnemonic (this w)) as [[|km]|]. }
  split.
  { rewrite checked_paint_attribute by (right; split; congruence).
    subst d3. rewrite enabled_paint_attribute.
    subst d2. rewrite tooltip_paint_attribute by congruence.
    subst d1. rewrite label_paint_aria_label by assumption.
    assert (A0 : Dom.getAttribute l "aria-label" (nodes W) = None)
      by (unfold Dom.getAttribute; now rewrite Ll).
    rewrite A0.
    destruct (label it) as [[|a rest]|]; reflexivity. }
  destruct (enabled_paint_state it c d2) as (E1 & E2); [now rewrite D2|].
  split.
  { rewrite checked_paint_class_ne by congruence. exact E1. }
  rewrite checked_paint_tabIndex. fold d3 in E2. subst d3. rewrite E2.
  destruct (_ && _); [reflexivity|].
  subst d2 d1. rewrite tooltip_paint_tabIndex, label_paint_tabIndex.
  unfold Dom.getTabIndex.
  destruct (nodes W !! c) as [ec|]; [|discriminate].
  cbn in Tc. injection Tc as Tc. exact Tc.
Qed.

Lemma render_accessibility_witness :
  exists w' i k l,
    render (H := sample_host) 0 (world_of (plain_instance word_wrap_item) one_div)
    = Some w'
    /\ itemElement (this w') = Some i
    /\ checkElement (this w') = Some k
    /\ labelElement (this w') = Some l
    /\ Dom.getAttribute i "role" (nodes w') = Some "menuitem"
    /\ Dom.getAttribute k "role" (nodes w') = Some "none"
    /\ Dom.getAttribute l "aria-label" (nodes w') = Some "Word Wrap"
    /\ Dom.getTabIndex 0 (nodes w') = Some 0%Z.
Proof.
  destruct (render_accessibility (H := sample_host)
              (world_of (plain_instance word_wrap_item) one_div) 0
              (Dom.create "div" "menubar-menu-button"))
    as (w' & i & k & l & Hrun & Hi & Hk & Hl & R & _ & _ & Rk & _ & A & _ & T).
  - vm_compute; reflexivity.
  - exists w', i, k, l.
    split; [exact Hrun|]. split; [exact Hi|]. split; [exact Hk|].
    split; [exact Hl|]. split; [exact R|]. split; [exact Rk|].
    split; [exact A|]. exact T.
Defined.

(** The constructor leaves the mnemonic unset when mnemonics are disabled
    or the marker pattern does not match the label. *)
Lemma new_MenuItem_without_mnemonic `{Host} it opts m :
  new_MenuItem it opts = Some m ->
  Js.truthy_bool (enableMnemonics (default {| enableMnemonics := None |} opts))
  = false
  \/ label it ≫= MENU_MNEMONIC_REGEX_exec = None ->
  mnemonic m = None.
Proof.
  unfold new_MenuItem. intros Hm Hcase.
  destruct (Js.truthy_bool _) eqn:Hen.
  - destruct Hcase as [?|Hno]; [discriminate|]. rewrite Hno in Hm.
    destruct (_ && _); now injection Hm as <-.
  - rewrite andb_false_r in Hm. now injection Hm as <-.
Qed.

(** X12. The shortcut that a new instance announces once rendered.  The
    numeric key code that the constructor derives and that [render] writes
    to [aria-keyshortcuts] never stays there: after [render] the attribute
    holds the lower-cased mnemonic character of the label as [updateLabel]
    reads it (the label itself with mnemonics enabled, the cleaned label
    without), and it is absent when that text has no marker or there is no
    label. *)
Theorem render_keyshortcuts_of_new_instance `{Host} it opts m
  (d : gmap nat Dom.HTMLElement) c elc :
  new_MenuItem it opts = Some m ->
  d !! c = Some elc ->
  exists w' i,
    render c (world_of m d) = Some w'
    /\ itemElement (this w') = Some i
    /\ Dom.getAttribute i "aria-keyshortcuts" (nodes w')
       = toLocaleLowerCase
           <$> ((label it
                   ≫= (fun label0 =>
                         MENU_MNEMONIC_REGEX_exec
                           (if Js.truthy_bool
                                 (enableMnemonics
                                    (default {| enableMnemonics := None |} opts))
                            then label0 else cleanMnemonic label0)))
                  ≫= selected_group).
Proof.
  intros Hm Helc.
  destruct (new_MenuItem_shape it opts m Hm) as (mn & Hshape).
  assert (Hitem : item m = it) by (rewrite Hshape; reflexivity).
  assert (Hopt : options m = default {| enableMnemonics := None |} opts)
    by (rewrite Hshape; reflexivity).
  pose proof (new_MenuItem_without_mnemonic it opts m Hm) as Hnone.
  set (o := default {| enableMnemonics := None |} opts) in *.
  destruct (render_stages (world_of m d) c elc Helc)
    as (W & i & k & l & bs & Hrun & Hc & Hi & Hk & Hl & Hit & Hop & _ & _
        & _ & _ & _ & _ & _ & _ & _ & _ & _ & _ & Ai & _ & _ & _ & _).
  cbn [this world_of] in Hit, Hop, Ai. rewrite Hitem in Hit.
  rewrite Hopt in Hop.
  rewrite Hrun, (refresh_run W c i l Hc Hi Hl), Hit, Hop.
  eexists _, i. split; [reflexivity|]. cbn [this nodes set_nodes].
  split; [exact Hi|].
  assert (Di : i ∈ dom (nodes W)).
  { apply elem_of_dom. destruct (nodes W !! i); [eauto|discriminate]. }
  rewrite checked_paint_attribute by (right; split; congruence).
  rewrite enabled_paint_attribute.
  rewrite tooltip_paint_attribute by congruence.
  rewrite label_paint_keyshortcuts by exact Di.
  destruct ((label it ≫= _) ≫= selected_group) as [g|] eqn:Hg; [reflexivity|].
  cbn [fmap option_fmap option_map].
  assert (Hmn : mnemonic m = None).
  { apply Hnone. destruct (Js.truthy_bool (enableMnemonics o)); [|now left].
    right. destruct (label it) as [label0|]; [|reflexivity].
    cbn [mbind option_bind] in Hg |- *.
    destruct (MENU_MNEMONIC_REGEX_exec label0) as [r|] eqn:Hr; [|reflexivity].
    destruct (selected_group_exec _ _ Hr) as (ch & Hsel & _).
    cbn [mbind option_bind] in Hg. congruence. }
  rewrite Hmn in Ai. unfold Dom.getAttribute.
  destruct (nodes W !! i) as [ei|]; [|reflexivity].
  cbn in Ai. injection Ai as Ai. cbn. now rewrite Ai.
Qed.

Lemma render_keyshortcuts_of_new_instance_witness :
  exists m w' i,
    new_MenuItem (H := sample_host) word_wrap_item mnemonics_on = Some m
    /\ mnemonic m <> None
    /\ render (H := sample_host) 0 (world_of m one_div) = Some w'
    /\ itemElement (this w') = Some i
    /\ Dom.getAttribute i "aria-keyshortcuts" (nodes w') = Some "w".
Proof.
  exists (default (plain_instance word_wrap_item)
            (new_MenuItem (H := sample_host) word_wrap_item mnemonics_on)).
  destruct (render_keyshortcuts_of_new_instance (H := sample_host)
              word_wrap_item mnemonics_on
              (default (plain_instance word_wrap_item)
                 (new_MenuItem (H := sample_host) word_wrap_item mnemonics_on))
              one_div 0
              (Dom.create "div" "menubar-menu-button"))
    as (w' & i & Hrun & Hi & Hks);
    [vm_compute; reflexivity|vm_compute; reflexivity|].
  exists w', i. split; [vm_compute; reflexivity|].
  split; [discriminate|]. split; [exact Hrun|]. split; [exact Hi|].
  exact Hks.
Defined.

(** ** [render] a second time *)

(** Disposing of listener registrations leaves the tree as it is. *)
Lemma removeListeners_tree (ds : list IDisposable)
  (d : gmap nat Dom.HTMLElement) n :
  Dom.childNodes
    <$> (foldr (fun x acc =>
                  Dom.removeListener (listened_node x) (listened_type x)
                    (listened_by x) acc) d ds !! n)
  = Dom.childNodes <$> (d !! n)
  /\ (foldr (fun x acc =>
               Dom.removeListener (listened_node x) (listened_type x)
                 (listened_by x) acc) d ds !! n) ≫= Dom.parentNode
     = (d !! n) ≫= Dom.parentNode.
Proof.
  induction ds as [|x ds [IH1 IH2]]; [split; reflexivity|].
  cbn [foldr]. unfold Dom.removeListener at 1 3.
  destruct (decide (listened_node x = n)) as [<-|Hn].
  - rewrite lookup_alter_eq. rewrite <- IH1, <- IH2.
    destruct (foldr _ d ds !! listened_node x); split; reflexivity.
  - rewrite lookup_alter_ne by exact Hn. now split.
Qed.

(** X13. [render] does not look for an earlier item element.  A second
    [render] on the same container appends a second item element after the
    first and registers the five listeners once more; the instance then
    refers to the second element only, so that [dispose] detaches the
    second element and leaves the first one in the container, with the
    container as its parent. *)
Theorem second_render_keeps_first_item `{Host} (w : World) c elc :
  nodes w !! c = Some elc ->
  exists w1 w2 w3 i1 i2,
    render c w = Some w1
    /\ itemElement (this w1) = Some i1
    /\ render c w1 = Some w2
    /\ itemElement (this w2) = Some i2
    /\ i1 <> i2
    /\ Dom.childNodes <$> (nodes w2 !! c)
       = Some (Dom.childNodes elc ++ [i1; i2])
    /\ Dom.listeners <$> (nodes w2 !! c)
       = Some (Dom.listeners elc ++ render_listeners ++ render_listeners)
    /\ dispose w2 = Some w3
    /\ itemElement (this w3) = None
    /\ Dom.childNodes <$> (nodes w3 !! c)
       = Some (filter (fun x => x <> i2) (Dom.childNodes elc) ++ [i1])
    /\ (nodes w3 !! i1) ≫= Dom.parentNode = Some c
    /\ (nodes w3 !! i2) ≫= Dom.parentNode = None.
Proof.
  intros Helc.
  destruct (render_tree w c elc Helc)
    as (W1 & w1 & i1 & k1 & l1 & bs1 & Hrun1 & Hth1 & _ & (Hd1 & Hsk1 & _)
        & Hc1 & Hi1 & _ & _ & _ & _ & _ & _ & Hnd1 & _ & Hdom1 & Skc1 & Ski1
        & _).
  apply NoDup_cons in Hnd1 as [Hcn1 _].
  apply not_elem_of_cons in Hcn1 as [Hci1 _].
  rewrite <- (Hsk1 c) in Skc1. rewrite <- (Hsk1 i1) in Ski1.
  destruct (nodes w1 !! c) as [ec1|] eqn:Hec1; [|discriminate Skc1].
  cbn in Skc1. injection Skc1 as Ctag Cch Cpar Clis Ctxt.
  destruct (render_tree w1 c ec1 Hec1)
    as (W2 & w2 & i2 & k2 & l2 & bs2 & Hrun2 & Hth2 & _ & (Hd2 & Hsk2 & _)
        & Hc2 & Hi2 & _ & _ & _ & _ & _ & _ & Hnd2 & Hnew2 & _ & Skc2 & Ski2
        & _ & _ & _ & Hold2).
  apply NoDup_cons in Hnd2 as [Hcn2 _].
  apply not_elem_of_cons in Hcn2 as [Hci2 _].
  assert (Di1 : i1 ∈ dom (nodes w1)).
  { apply elem_of_dom. destruct (nodes w1 !! i1); [eauto|discriminate]. }
  assert (Ni2 : i2 ∉ dom (nodes w1))
    by (apply Hnew2, elem_of_cons; now left).
  assert (Hii : i1 <> i2) by (intros ->; contradiction).
  assert (Ski1' : skeleton <$> (nodes w2 !! i1)
                  = Some ("a", k1 :: l1 :: bs1, Some c, [], None)).
  { rewrite Hsk2, Hold2 by (assumption || congruence). exact Ski1. }
  rewrite <- (Hsk2 c) in Skc2. rewrite <- (Hsk2 i2) in Ski2.
  destruct (nodes w2 !! c) as [ec2|] eqn:Hec2; [|discriminate Skc2].
  destruct (nodes w2 !! i2) as [ei2|] eqn:Hei2; [|discriminate Ski2].
  destruct (nodes w2 !! i1) as [ei1|] eqn:Hei1; [|discriminate Ski1'].
  cbn in Skc2, Ski2, Ski1'.
  injection Skc2 as Ctag2 Cch2 Cpar2 Clis2 Ctxt2.
  injection Ski2 as _ _ Ipar2 _ _. injection Ski1' as _ _ Ipar1 _ _.
  exists w1, w2, (default w2 (dispose w2)), i1, i2.
  split; [exact Hrun1|]. split; [now rewrite Hth1|].
  split; [exact Hrun2|]. split; [now rewrite Hth2|].
  split; [exact Hii|].
  rewrite Hec2. cbn [fmap option_fmap option_map].
  split; [now rewrite Cch2, Cch, <- app_assoc|].
  split; [now rewrite Clis2, Clis, <- app_assoc|].
  rewrite (dispose_run w2), Hth2, Hi2.
  cbn [default from_option id]. split; [reflexivity|].
  cbn [this nodes set_this set_nodes itemElement set__toDispose
       set_itemElement].
  split; [reflexivity|].
  assert (Hrm : Dom.removeNode i2 (nodes w2)
                = alter (Dom.with_parentNode None) i2
                    (alter (Dom.with_childNodes (filter (fun x => x <> i2))) c
                       (nodes w2))).
  { unfold Dom.removeNode. rewrite Hei2. cbn. now rewrite Ipar2. }
  rewrite Hrm.
  split.
  { rewrite (proj1 (removeListeners_tree _ _ c)).
    rewrite lookup_alter_ne by congruence. rewrite lookup_alter_eq, Hec2.
    cbn. rewrite Cch2, Cch, !filter_app. f_equal.
    rewrite <- app_assoc. f_equal.
    rewrite !filter_cons, !filter_nil.
    rewrite decide_True by exact Hii.
    destruct (decide (i2 <> i2)); [contradiction|reflexivity]. }
  split.
  { rewrite (proj2 (removeListeners_tree _ _ i1)).
    rewrite !lookup_alter_ne by congruence. rewrite Hei1. exact Ipar1. }
  rewrite (proj2 (removeListeners_tree _ _ i2)).
  rewrite lookup_alter_eq.
  now destruct (alter _ c (nodes w2) !! i2).
Qed.

Lemma second_render_keeps_first_item_witness :
  exists w1 w2 w3,
    render (H := sample_host) 0 (world_of (plain_instance minimap_item) one_div)
    = Some w1
    /\ render (H := sample_host) 0 w1 = Some w2
    /\ dispose w2 = Some w3
    /\ Dom.childNodes <$> (nodes w2 !! 0) = Some [1; 4]
    /\ Dom.childNodes <$> (nodes w3 !! 0) = Some [1].
Proof.
  destruct (second_render_keeps_first_item (H := sample_host)
              (world_of (plain_instance minimap_item) one_div) 0
              (Dom.create "div" "menubar-menu-button"))
    as (w1 & w2 & w3 & i1 & i2 & Hrun1 & _ & Hrun2 & _ & _ & _ & _ & Hdis & _).
  - vm_compute; reflexivity.
  - exists w1, w2, w3.
    split; [exact Hrun1|]. split; [exact Hrun2|]. split; [exact Hdis|].
    vm_compute in Hrun1. injection Hrun1 as <-.
    vm_compute in Hrun2. injection Hrun2 as <-.
    vm_compute in Hdis. injection Hdis as <-.
    split; vm_compute; reflexivity.
Defined.
